(** * AI-Interviewer: the real-time media pipeline, embedded and verified

    A shallow embedding of the streaming core of the interviewer
    application:

    - the PCM conversions of [services/geminiService.ts]
      ([floatTo16BitPCM], the inline conversion of [sendAudioChunk]) and of
      [components/InterviewScreen.tsx] ([decodePCMData]);
    - the playback scheduler (the [onAudioData] callback of [startSession]);
    - the speech-rate analyzer ([analyzeSpeechRate]);
    - the nudge advisory manager ([addNudge]);
    - the timestamp guard of [VisionService.analyze];
    - the report fallback of the report screen.

    Numbers.  JavaScript numbers are IEEE doubles.  Wall-clock stamps
    ([Date.now()]) are integral milliseconds and are modelled in [Z].  Audio
    samples, playback times and [performance.now()] stamps are modelled as
    rationals [Q]: every finite float is a rational, and the products the
    codec forms (a 24-bit float32 significand times [32768] or [32767]) as
    well as the quotient [int16 / 32768] are exact in double precision, so
    the rational model of the codec is exact on finite samples.  Elsewhere
    (the sums of playback times, the quotient that gives the speech rate,
    the sums of blendshape scores) the arithmetic is exact where the
    program rounds to the nearest double.  [NaN] and the infinities are
    outside the model.

    Closures.  The component is a function that React calls once per
    render; its [useState] bindings ([nudges], [aiSpeaking]) are constants
    of that call, and a function defined in the component reads the
    constants of the render that created it.  Such a binding is an argument
    of the embedded function; the state cell behind it, which the next
    render reads, is part of the state.  [useRef] objects are shared by all
    renders and are plain state.

    Exceptions.  A call that can throw returns an [option]; [None] is the
    exception. *)

From Stdlib Require Import ZArith QArith Qround Qminmax Qabs Lqa Lia List Sorted Ascii String.
From stdpp Require Import base option list gmap strings.

Set Warnings "-register-all".

Local Open Scope Z_scope.

(* ===================================================================== *)
(** * Part I: the program                                                 *)
(* ===================================================================== *)

(** ** PCM codec *)

Module PCM.

(** A [Float32Array] is a list of samples, an [ArrayBuffer] a list of
    bytes, each byte a [Z] in [0, 256). *)
Definition Float32Array := list Q.
Definition ArrayBuffer := list Z.

Definition is_byte (b : Z) : Prop := 0 <= b < 256.

(** [x < y] on numbers, as a boolean. *)
Definition Qltb (x y : Q) : bool := negb (Qle_bool y x).

(** The integer part of a number, rounding toward zero: the
    [sign(x) * floor(abs(x))] of ECMAScript's integer conversions. *)
Definition truncate (x : Q) : Z :=
  if Qle_bool 0 x then Qfloor x else Qceiling x.

(** ECMAScript [ToInt16], the conversion applied by a store into an
    [Int16Array] and by [DataView.setInt16]: truncate, reduce modulo
    [2^16], and read the result as a signed 16-bit integer. *)
Definition ToInt16 (x : Q) : Z :=
  let int16bit := truncate x mod 65536 in
  if 32768 <=? int16bit then int16bit - 65536 else int16bit.

(** The two bytes of a 16-bit integer, least significant first
    ([setInt16(_, _, true)], and the memory of an [Int16Array] on a
    little-endian platform). *)
Definition int16_le (v : Z) : list Z :=
  [Z.land v 255; Z.land (Z.shiftr v 8) 255].

(** The signed 16-bit integer stored in two bytes, least significant
    first. *)
Definition int16_of_le (lo hi : Z) : Z :=
  let u := Z.lor lo (Z.shiftl hi 8) in
  if 32768 <=? u then u - 65536 else u.

(** [Math.max(-1, Math.min(1, x))]. *)
Definition clamp (x : Q) : Q := Qmax (-1) (Qmin 1 x).

(** [floatTo16BitPCM], geminiService.ts lines 6-14. *)
Definition encodeSample (x : Q) : Z :=
  let s := clamp x in
  ToInt16 (if Qltb s 0 then s * 32768 else s * 32767)%Q.

Definition floatTo16BitPCM (float32Array : Float32Array) : ArrayBuffer :=
  flat_map (fun x => int16_le (encodeSample x)) float32Array.

(** [new Int16Array(buffer)]: a view of the buffer as 16-bit integers.
    The constructor throws a [RangeError] when the byte length is odd. *)
Fixpoint Int16Array_of_buffer (buffer : ArrayBuffer) : option (list Z) :=
  match buffer with
  | [] => Some []
  | [_] => None
  | lo :: hi :: rest =>
      match Int16Array_of_buffer rest with
      | Some pcm => Some (int16_of_le lo hi :: pcm)
      | None => None
      end
  end.

(** An [AudioBuffer] with one channel. *)
Record AudioBuffer := mkAudioBuffer {
  channelData : Float32Array;
  sampleRate : Z
}.

(** [buffer.duration]: the number of sample frames over the sample rate,
    in seconds. *)
Definition duration (b : AudioBuffer) : Q :=
  (inject_Z (Z.of_nat (length (channelData b))) / inject_Z (sampleRate b))%Q.

(** [ctx.createBuffer(1, length, 24000)]: throws a [NotSupportedError]
    when the number of frames is zero. *)
Definition createBuffer (data : Float32Array) (rate : Z) : option AudioBuffer :=
  match data with
  | [] => None
  | _ => Some (mkAudioBuffer data rate)
  end.

(** The sample loop of [decodePCMData], InterviewScreen.tsx lines 72-77:
    [float32Data[i] = pcmData[i] / 32768.0]. *)
Definition decodeSamples (buffer : ArrayBuffer) : option Float32Array :=
  match Int16Array_of_buffer buffer with
  | Some pcmData => Some (map (fun v => (inject_Z v / 32768)%Q) pcmData)
  | None => None
  end.

(** [decodePCMData], InterviewScreen.tsx lines 71-83.  [None] stands for
    a thrown exception. *)
Definition decodePCMData (buffer : ArrayBuffer) : option AudioBuffer :=
  match decodeSamples buffer with
  | Some float32Data => createBuffer float32Data 24000
  | None => None
  end.

(** The conversion loop of [sendAudioChunk], geminiService.ts lines
    205-209: [int16[i] = float32Data[i] * 32768], a store into an
    [Int16Array]. *)
Definition chunkSample (x : Q) : Z := ToInt16 (x * 32768)%Q.

Definition chunkBytes (float32Data : Float32Array) : ArrayBuffer :=
  flat_map (fun x => int16_le (chunkSample x)) float32Data.

End PCM.

(** ** Streaming session adapter: outbound audio *)

Module Session.
Import PCM.

Definition alphabet : string :=
  "ABCDEFGHIJKLMNOPQRSTUVWXYZabcdefghijklmnopqrstuvwxyz0123456789+/".

Definition sextet (n : Z) : ascii :=
  default "="%char (String.get (Z.to_nat n) alphabet).

(** [btoa(String.fromCharCode(...bytes))]: the base64 text of a byte
    sequence. *)
Fixpoint btoa (bytes : list Z) : string :=
  match bytes with
  | [] => ""
  | [a] =>
      String (sextet (a / 4)) (String (sextet (a mod 4 * 16)) "==")
  | [a; b] =>
      String (sextet (a / 4))
        (String (sextet (a mod 4 * 16 + b / 16))
           (String (sextet (b mod 16 * 4)) "="))
  | a :: b :: c :: rest =>
      String (sextet (a / 4))
        (String (sextet (a mod 4 * 16 + b / 16))
           (String (sextet (b mod 16 * 4 + c / 64))
              (String (sextet (c mod 64)) (btoa rest))))
  end.

(** The argument of [sendRealtimeInput]. *)
Record Media := mkMedia { mimeType : string; data : string }.

(** [sendAudioChunk], geminiService.ts lines 200-223.  [connected] says
    that [sessionInstance || this.session] is set; the result is the
    event handed to the session, if any.  Line 211 spreads the bytes into
    the arguments of one call: this is the function for a chunk whose
    bytes the engine takes as arguments, as it does for the chunks of
    4096 and 3200 samples the application sends;
    [Transport.sendAudioChunkWithin] has the limit. *)
Definition sendAudioChunk (connected : bool) (float32Data : Float32Array)
    : option Media :=
  if negb connected then None
  else Some (mkMedia "audio/pcm;rate=16000" (btoa (chunkBytes float32Data))).

End Session.

(** ** Nudge advisory manager *)

Module Advisory.

(** The [type] of a nudge, types.ts line 24. *)
Inductive NudgeType := posture | eye_contact | audio | general.

#[export] Instance NudgeType_eq_dec : EqDecision NudgeType.
Proof. solve_decision. Defined.

Definition NudgeType_code (t : NudgeType) : nat :=
  match t with posture => 0 | eye_contact => 1 | audio => 2 | general => 3 end%nat.

Definition NudgeType_of_code (n : nat) : NudgeType :=
  match n with 0 => posture | 1 => eye_contact | 2 => audio | _ => general end%nat.

#[export] Instance NudgeType_countable : Countable NudgeType.
Proof.
  apply (inj_countable' NudgeType_code NudgeType_of_code).
  intros []; reflexivity.
Defined.

Record Nudge := mkNudge {
  id : string;
  type : NudgeType;
  message : string;
  timestamp : Z
}.

(** constants.ts: cooldowns for nudges, in milliseconds. *)
Definition NUDGE_COOLDOWN : Z := 30000.
Definition NUDGE_DISPLAY_TIME : Z := 5000.

(** What the component keeps across renders: the React state cell behind
    [const [nudges, setNudges] = useState([])], the ledger
    [lastNudgeTimeRef.current], and the removal timers armed so far by
    [setTimeout], each with its due time and the id it removes. *)
Record State := mkState {
  nudgeCell : list Nudge;
  lastNudgeTime : gmap NudgeType Z;
  timers : list (Z * string)
}.

Definition initial : State := mkState [] ∅ [].

(** [addNudge], InterviewScreen.tsx lines 53-68.

    [nudges] is the constant the enclosing render bound to the content of
    the state cell; [setNudges] writes the cell and leaves that constant
    as it is, so it is an argument of its own.  [now] is the result of
    [Date.now()] and [rnd] of [Math.random().toString()]. *)
Definition addNudge (nudges : list Nudge) (now : Z) (rnd : string)
    (type : NudgeType) (message : string) (st : State) : State :=
  let lastTime := default 0 (lastNudgeTime st !! type) in
  if (0 <? Z.of_nat (length nudges)) then st
  else if (now - lastTime <? NUDGE_COOLDOWN) then st
  else
    let newNudge := mkNudge rnd type message now in
    mkState [newNudge]
            (<[type := now]> (lastNudgeTime st))
            (timers st ++ [(now + NUDGE_DISPLAY_TIME, id newNudge)]).

(** The timer callback:
    [setNudges(prev => prev.filter(n => n.id !== newNudge.id))]. *)
Definition removeNudge (nid : string) (st : State) : State :=
  mkState (filter (fun n => id n ≠ nid) (nudgeCell st))
          (lastNudgeTime st) (timers st).

(** A render binds [nudges] to the content of the state cell. *)
Definition render (st : State) : list Nudge := nudgeCell st.

(** A call admits its nudge when it gets past both guards. *)
Definition admits (nudges : list Nudge) (now : Z) (type : NudgeType)
    (st : State) : bool :=
  negb (0 <? Z.of_nat (length nudges))
  && negb (now - default 0 (lastNudgeTime st !! type) <? NUDGE_COOLDOWN).

(** The result of the visual analyzer, as the polling loop reads it. *)
Record VisionResult := mkVisionResult {
  eyeContactIssue : bool;
  postureIssue : bool;
  postureMessage : string
}.

(** The two advisory calls of one tick of the polling loop,
    InterviewScreen.tsx lines 281-282.  Both calls go through the one
    [addNudge] closure the loop was created with, so both read the same
    [nudges]. *)
Definition tickNudges (nudges : list Nudge) (now1 : Z) (rnd1 : string)
    (now2 : Z) (rnd2 : string) (result : VisionResult) (st : State) : State :=
  let st1 :=
    if eyeContactIssue result
    then addNudge nudges now1 rnd1 eye_contact "Maintain eye contact." st
    else st in
  if postureIssue result
  then addNudge nudges now2 rnd2 posture
         (if String.eqb (postureMessage result) "" then "Check your posture."
          else postureMessage result) st1
  else st1.

(** The actions that touch the advisory state: a call of [addNudge] from
    a closure that captured [nudges], and a removal timer going off. *)
Inductive Action :=
| Add (nudges : list Nudge) (now : Z) (rnd : string)
      (type : NudgeType) (message : string)
| Expire (nid : string).

Definition step (st : State) (a : Action) : State :=
  match a with
  | Add nudges now rnd type message => addNudge nudges now rnd type message st
  | Expire nid => removeNudge nid st
  end.

Definition run (st : State) (actions : list Action) : State :=
  fold_left step actions st.

End Advisory.

(** ** Playback scheduler *)

Module Playback.
Import PCM.

(** What one call of the handler does to the outside world. *)
Inductive Effect :=
| SetAiSpeaking                            (* the 200 ms speaking pulse *)
| Start (when : Q) (buffer : AudioBuffer)  (* source.start(when) *)
| ConsoleError.                            (* "Audio decode error" *)

(** The [onAudioData] callback of [startSession], InterviewScreen.tsx
    lines 224-246, from the point where the output context runs.

    [outputReady] says that [outputAudioContextRef.current] and
    [outputNodeRef.current] are set; [currentTime] is the playback clock
    [outputAudioContextRef.current.currentTime] read at line 234; the last
    argument and the first component of the result are
    [nextStartTimeRef.current] before and after the call. *)
Definition onAudioData (outputReady : bool) (currentTime : Q)
    (audioBufferRaw : ArrayBuffer) (nextStartTime : Q) : Q * list Effect :=
  if negb outputReady then (nextStartTime, [])
  else
    let nextStartTime := Qmax nextStartTime currentTime in
    match decodePCMData audioBufferRaw with
    | Some buffer =>
        ((nextStartTime + duration buffer)%Q,
         [SetAiSpeaking; Start nextStartTime buffer])
    | None => (nextStartTime, [SetAiSpeaking; ConsoleError])
    end.

(** One inbound audio event, with what the handler reads when it runs. *)
Record Inbound := mkInbound {
  ready : bool;
  clock : Q;
  payload : ArrayBuffer
}.

(** The segments a call scheduled, each with its start time. *)
Definition scheduled (effects : list Effect) : list (Q * AudioBuffer) :=
  flat_map (fun e => match e with Start w b => [(w, b)] | _ => [] end) effects.

(** What a run of the handler records about each call: the cursor before,
    the event, the effects and the cursor after. *)
Record Call := mkCall {
  before : Q;
  event : Inbound;
  effects : list Effect;
  after : Q
}.

Fixpoint run (nextStartTime : Q) (events : list Inbound) : list Call :=
  match events with
  | [] => []
  | e :: rest =>
      let '(next, effs) := onAudioData (ready e) (clock e) (payload e) nextStartTime in
      mkCall nextStartTime e effs next :: run next rest
  end.

(** All segments of a run, in the order they were scheduled. *)
Definition timeline (calls : list Call) : list (Q * AudioBuffer) :=
  flat_map (fun c => scheduled (effects c)) calls.

(** The instant a scheduled segment ends. *)
Definition segmentEnd (s : Q * AudioBuffer) : Q := (fst s + duration (snd s))%Q.

End Playback.

(** ** Speech-rate analyzer *)

Module SpeechRate.
Import PCM Advisory.

(** [speechRateDataRef.current]. *)
Record Data := mkData {
  peaks : Z;
  startTime : Z;
  lastPeakTime : Z
}.

(** The value [startSession] leaves in the ref at time [t0]. *)
Definition started (t0 : Z) : Data := mkData 0 t0 0.

(** The amplitude threshold and the refractory distance (ms) of the peak
    scan.  No float32 sample lies between the double nearest to 0.15 and
    3/20, so comparing a sample with either gives the same answer. *)
Definition threshold : Q := 3 # 20.
Definition minPeakDist : Z := 150.

(** A call [addNudge(type, message)] made by the analyzer. *)
Definition Trigger := (NudgeType * string)%type.

Definition tooFast : Trigger := (audio, "Speaking too fast. Breathe.").
Definition uncertain : Trigger := (audio, "Sounding uncertain. Project confidence.").

(** [rate = data.peaks / ((now - data.startTime) / 1000)]. *)
Definition rate (now : Z) (data : Data) : Q :=
  let durationSec := (inject_Z (now - startTime data) / 1000)%Q in
  (inject_Z (peaks data) / durationSec)%Q.

(** The classification of a finished window, lines 97-103.
    [aiSpeaking] is the flag as the closure sees it. *)
Definition classify (aiSpeaking : bool) (now : Z) (data : Data) : list Trigger :=
  let r := rate now data in
  if (2 <? peaks data) && negb aiSpeaking then
    if Qltb (9 # 2) r then [tooFast]
    else if Qltb r (3 # 2) then [uncertain]
    else []
  else [].

(** The window block of [analyzeSpeechRate], InterviewScreen.tsx lines
    90-108. *)
Definition window (aiSpeaking : bool) (now : Z) (data : Data)
    : Data * list Trigger :=
  if 3000 <? now - startTime data then
    (mkData 0 now (lastPeakTime data), classify aiSpeaking now data)
  else (data, []).

(** The body of the scan loop at index [i], with [prev = inputData[i-1]]
    and [x = inputData[i]], lines 117-123. *)
Definition crossing (now : Z) (prev x : Q) (data : Data) : Data :=
  if Qltb threshold x && Qle_bool prev threshold then
    if minPeakDist <? now - lastPeakTime data
    then mkData (peaks data + 1) (startTime data) now
    else data
  else data.

(** The loop [for (i = 1; i < inputData.length; i++)], lines 116-124. *)
Fixpoint scan (now : Z) (prev : Q) (rest : list Q) (data : Data) : Data :=
  match rest with
  | [] => data
  | x :: rest' => scan now x rest' (crossing now prev x data)
  end.

Definition countPeaks (now : Z) (inputData : Float32Array) (data : Data) : Data :=
  match inputData with
  | [] => data
  | x0 :: rest => scan now x0 rest data
  end.

(** [analyzeSpeechRate], lines 86-125: the new content of the ref and the
    advisory calls made, in order. *)
Definition analyzeSpeechRate (aiSpeaking : bool) (now : Z)
    (inputData : Float32Array) (data : Data) : Data * list Trigger :=
  let '(data1, calls) := window aiSpeaking now data in
  (countPeaks now inputData data1, calls).

(** A stream of buffers, each with the wall-clock time of its call and
    the flag its closure reads; the result is the final ref and the
    advisory calls of every invocation. *)
Record Buffer := mkBuffer {
  at_ms : Z;
  speaking : bool;
  samples : Float32Array
}.

Fixpoint analyzeAll (buffers : list Buffer) (data : Data)
    : Data * list (list Trigger) :=
  match buffers with
  | [] => (data, [])
  | b :: rest =>
      let '(data1, calls) := analyzeSpeechRate (speaking b) (at_ms b) (samples b) data in
      let '(data2, later) := analyzeAll rest data1 in
      (data2, calls :: later)
  end.

(** The number of rising edges of a buffer through the threshold. *)
Fixpoint risingEdges (prev : Q) (rest : list Q) : nat :=
  match rest with
  | [] => 0
  | x :: rest' =>
      ((if Qltb threshold x && Qle_bool prev threshold then 1 else 0)
       + risingEdges x rest')%nat
  end.

(** A test buffer with one rising edge, and a stream of such buffers
    at given times, analyzed with the speaking flag off. *)
Definition pulse : Float32Array := [0; 1 # 2; 0]%Q.

Definition pulsesAt (times : list Z) : list Buffer :=
  map (fun t => mkBuffer t false pulse) times.

(** The rising edges the scan loop meets in a buffer. *)
Definition edges (inputData : Float32Array) : nat :=
  match inputData with
  | [] => 0
  | x0 :: rest => risingEdges x0 rest
  end.

End SpeechRate.

(** ** Visual analyzer *)

Module Vision.
Import Advisory.

(** One blendshape category of a face result. *)
Record Category := mkCategory { categoryName : string; score : Q }.

(** A pose landmark; only its height is read. *)
Record Landmark := mkLandmark { y : Q }.

Record FaceResult := mkFaceResult { faceBlendshapes : list (list Category) }.
Record PoseResult := mkPoseResult { landmarks : list (list Landmark) }.

(** The fields of the [VisionService] object. *)
Record Service := mkService {
  isInitialized : bool;
  faceLandmarker : bool;      (* the field is not null *)
  poseLandmarker : bool;      (* the field is not null *)
  lastTimestamp : Q;
  totalFrames : Z;
  eyeContactFrames : Z;
  goodPostureFrames : Z
}.

(** The object as constructed. *)
Definition fresh : Service := mkService false false false (-1) 0 0 0.

(** [reset], visionService.ts lines 50-55. *)
Definition reset (s : Service) : Service :=
  mkService (isInitialized s) (faceLandmarker s) (poseLandmarker s) (-1) 0 0 0.

(** A call into a landmark model, with the timestamp passed. *)
Inductive Detection := FaceDetect (timestamp : Q) | PoseDetect (timestamp : Q).

(** [bs.find(b => b.categoryName === name)?.score || 0]. *)
Definition findScore (bs : list Category) (name : string) : Q :=
  match List.find (fun b => String.eqb (categoryName b) name) bs with
  | Some b => score b
  | None => 0
  end.

(** The eye-contact rule, lines 78-90. *)
Definition eyeIssue (face : FaceResult) : bool :=
  match faceBlendshapes face with
  | [] => false
  | bs :: _ =>
      let lookLeft := (findScore bs "eyeLookInLeft" + findScore bs "eyeLookOutRight")%Q in
      let lookRight := (findScore bs "eyeLookOutLeft" + findScore bs "eyeLookInRight")%Q in
      let lookDown := (findScore bs "eyeLookDownLeft" + findScore bs "eyeLookDownRight")%Q in
      let lookUp := (findScore bs "eyeLookUpLeft" + findScore bs "eyeLookUpRight")%Q in
      PCM.Qltb (8 # 10) lookLeft || PCM.Qltb (8 # 10) lookRight
      || PCM.Qltb (6 # 10) lookDown || PCM.Qltb (6 # 10) lookUp
  end.

(** The posture rule, lines 93-103; [None] when a shoulder landmark is
    missing, where reading its [y] throws. *)
Definition shoulderIssue (pose : PoseResult) : option (bool * string) :=
  match landmarks pose with
  | [] => Some (false, "")
  | lm :: _ =>
      match lm !! 11%nat, lm !! 12%nat with
      | Some leftShoulder, Some rightShoulder =>
          let yDiff := Qabs (y leftShoulder - y rightShoulder) in
          if PCM.Qltb (15 # 100) yDiff
          then Some (true, "You're tilting your shoulders.")
          else Some (false, "")
      | _, _ => None
      end
  end.

(** The two landmark models are collaborators: a detection on a video
    frame returns a result or throws ([None]). *)
Record Landmarkers (Video : Type) := mkLandmarkers {
  detectFace : Video -> Q -> option FaceResult;
  detectPose : Video -> Q -> option PoseResult
}.
Arguments detectFace {Video}.
Arguments detectPose {Video}.

Section Analyze.

Context {Video : Type}.
Variable models : Landmarkers Video.

(** The [try] block of [analyze], lines 67-114: the result, the service
    afterwards and the detections run; a throw anywhere gives the
    [catch] branch, which returns null with the counters as they
    were. *)
Definition detect (s : Service) (video : Video) (timestamp : Q)
    : option VisionResult * Service * list Detection :=
  match detectFace models video timestamp with
  | None => (None, s, [FaceDetect timestamp])
  | Some faceResult =>
      let calls := [FaceDetect timestamp; PoseDetect timestamp] in
      match detectPose models video timestamp with
      | None => (None, s, calls)
      | Some poseResult =>
          let eyeContactIssue := eyeIssue faceResult in
          match shoulderIssue poseResult with
          | None => (None, s, calls)
          | Some (postureIssue, postureMessage) =>
              (Some (mkVisionResult eyeContactIssue postureIssue postureMessage),
               mkService (isInitialized s) (faceLandmarker s) (poseLandmarker s)
                 (lastTimestamp s)
                 (totalFrames s + 1)
                 (if eyeContactIssue then eyeContactFrames s else eyeContactFrames s + 1)
                 (if postureIssue then goodPostureFrames s else goodPostureFrames s + 1),
               calls)
          end
      end
  end.

(** [analyze], visionService.ts lines 57-119. *)
Definition analyze (s : Service) (video : Video) (timestamp : Q)
    : option VisionResult * Service * list Detection :=
  if negb (isInitialized s) || negb (faceLandmarker s) || negb (poseLandmarker s)
  then (None, s, [])
  else if Qle_bool timestamp (lastTimestamp s) || Qle_bool timestamp 0
  then (None, s, [])
  else
    detect (mkService (isInitialized s) (faceLandmarker s) (poseLandmarker s)
              timestamp
              (totalFrames s) (eyeContactFrames s) (goodPostureFrames s))
           video timestamp.

(** A call gets past both guards of [analyze]. *)
Definition accepts (s : Service) (timestamp : Q) : bool :=
  isInitialized s && faceLandmarker s && poseLandmarker s
  && negb (Qle_bool timestamp (lastTimestamp s) || Qle_bool timestamp 0).

(** A sequence of calls: the service they leave and the timestamps that
    got past the guards, latest first. *)
Fixpoint analyzeAll (s : Service) (frames : list (Video * Q))
    : Service * list Q :=
  match frames with
  | [] => (s, [])
  | (video, timestamp) :: rest =>
      let '(s2, accepted) := analyzeAll (analyze s video timestamp).1.2 rest in
      (s2, accepted ++ (if accepts s timestamp then [timestamp] else []))
  end.

End Analyze.

(** For examples: a service with both models loaded, and models that see
    one face looking ahead and no pose. *)
Definition loaded : Service := mkService true true true (-1) 0 0 0.
Definition calm : Landmarkers unit :=
  mkLandmarkers unit (fun _ _ => Some (mkFaceResult [[]]))
                     (fun _ _ => Some (mkPoseResult [])).

End Vision.

(** ** Report screen *)

Module Report.

(** A parsed JSON value. *)
Inductive Json :=
| JNull
| JBool (b : bool)
| JNum (n : Q)
| JStr (s : string)
| JArr (items : list Json)
| JObj (fields : list (string * Json)).

(** The schema language of [REPORT_JSON_SCHEMA]. *)
Inductive Schema :=
| NUMBER
| STRING
| ARRAY (items : Schema)
| OBJECT (properties : list (string * Schema)) (required : list string).

(** The value of a property of an object, the first binding of the key. *)
Fixpoint property (key : string) (fields : list (string * Json)) : option Json :=
  match fields with
  | [] => None
  | (k, v) :: rest => if String.eqb k key then Some v else property key rest
  end.

(** A value has the shape a schema describes: the type matches, every
    required property is there and every described property that is there
    has the shape of its own schema. *)
Fixpoint conforms (s : Schema) (j : Json) {struct s} : bool :=
  match s, j with
  | NUMBER, JNum _ => true
  | STRING, JStr _ => true
  | ARRAY items, JArr l => forallb (conforms items) l
  | OBJECT properties required, JObj fields =>
      forallb (fun r => match property r fields with Some _ => true | None => false end)
              required
      && (fix described (ps : list (string * Schema)) : bool :=
            match ps with
            | [] => true
            | (k, s') :: ps' =>
                match property k fields with
                | Some v => conforms s' v
                | None => true
                end && described ps'
            end) properties
  | _, _ => false
  end.

Definition dimensionNames : list string :=
  ["firstImpression"; "communicationClarity"; "technicalKnowledge";
   "behavioralExamples"; "eyeContact"; "posturePresence"; "voiceTone";
   "fillerWords"; "questionHandling"; "enthusiasm"; "closingStrength"].

(** constants.ts: [REPORT_JSON_SCHEMA]. *)
Definition REPORT_JSON_SCHEMA : Schema :=
  OBJECT
    [("overallScore", NUMBER);
     ("dimensions",
      OBJECT (map (fun name => (name, NUMBER)) dimensionNames) dimensionNames);
     ("feedback",
      OBJECT [("wentWell", ARRAY STRING);
              ("needsWork", ARRAY STRING);
              ("improvementPlan", ARRAY STRING)]
             ["wentWell"; "needsWork"; "improvementPlan"]);
     ("transcriptSummary", STRING)]
    ["overallScore"; "dimensions"; "feedback"; "transcriptSummary"].

(** The report the screen substitutes when generation fails, ReportScreen
    lines 44-57. *)
Definition fallbackReport : Json :=
  JObj
    [("overallScore", JNum 75);
     ("dimensions",
      JObj [("firstImpression", JNum 8); ("communicationClarity", JNum 7);
            ("technicalKnowledge", JNum 8); ("behavioralExamples", JNum 6);
            ("eyeContact", JNum 9); ("posturePresence", JNum 8);
            ("voiceTone", JNum 7); ("fillerWords", JNum 12);
            ("questionHandling", JNum 7); ("enthusiasm", JNum 8);
            ("closingStrength", JNum 6)]);
     ("feedback",
      JObj [("wentWell",
             JArr [JStr "Great eye contact throughout.";
                   JStr "Solid technical understanding of the role."]);
            ("needsWork",
             JArr [JStr "Structured answers better (use STAR).";
                   JStr "Closing was a bit abrupt."]);
            ("improvementPlan",
             JArr [JStr "Practice the STAR method for behavioral questions.";
                   JStr "Prepare 2-3 questions for the interviewer."])]);
     ("transcriptSummary",
      JStr "The interview covered the candidate's background and technical skills. Some hesitation on behavioral questions.")].

Record TranscriptItem := mkTranscriptItem {
  role : string;
  text : string;
  timestamp : Z
}.

Inductive InterviewMode := PRACTICE | SIMULATION.

Record UserConfig := mkUserConfig {
  jobDescription : string;
  resume : string;
  durationMinutes : Z;
  mode : InterviewMode
}.

(** What the call to the generation model comes back with: a rejected
    promise or a response, whose [text] may be undefined. *)
Inductive Outcome := Rejected | Response (text : option string).

(** The state of the report screen. *)
Record Screen := mkScreen {
  report : option Json;
  loading : bool;
  loadingStepIndex : nat
}.

Definition mounted : Screen := mkScreen None true 0.

Definition LOADING_STEPS : nat := 5.

(** What the screen shows, ReportScreen lines 71 and 113, for a report
    that has the parts the page reads, as the fallback report has:
    [Result r] is the page rendered from [r].  A report that is falsy
    renders nothing, and rendering throws at line 116 for one without
    [dimensions]; neither is told apart here. *)
Inductive View := Loader (step : nat) | Blank | Result (r : Json).

Definition view (s : Screen) : View :=
  if loading s then Loader (loadingStepIndex s)
  else match report s with
       | None => Blank
       | Some r => Result r
       end.

(** [response.text || "{}"]. *)
Definition jsonText (text : option string) : string :=
  match text with
  | None => "{}"
  | Some t => if String.eqb t "" then "{}" else t
  end.

(** What report generation relies on: the prompt template, the
    generation model and [JSON.parse] (which throws a [SyntaxError], here
    [None], on text that is not JSON). *)
Record Platform := mkPlatform {
  prompt : list TranscriptItem -> UserConfig -> string;
  generateContent : string -> Outcome;
  JSON_parse : string -> option Json
}.

Section Generate.

Variable platform : Platform.

(** [generateReport], geminiService.ts lines 37-75; [None] is the
    rethrown exception. *)
Definition generateReport (transcript : list TranscriptItem)
    (config : UserConfig) : option Json :=
  match generateContent platform (prompt platform transcript config) with
  | Rejected => None
  | Response text => JSON_parse platform (jsonText text)
  end.

(** The body of [generate], ReportScreen lines 37-63, up to the arming
    of the 800 ms timer. *)
Definition generate (transcript : list TranscriptItem) (config : UserConfig)
    (s : Screen) : Screen :=
  let s1 :=
    match generateReport transcript config with
    | Some data => mkScreen (Some data) (loading s) (loadingStepIndex s)
    | None => mkScreen (Some fallbackReport) (loading s) (loadingStepIndex s)
    end in
  mkScreen (report s1) (loading s1) (LOADING_STEPS - 1).

(** The timer of the [finally] block: [setLoading(false)]. *)
Definition finished (s : Screen) : Screen :=
  mkScreen (report s) false (loadingStepIndex s).


End Generate.

(** For examples: a model whose call is rejected, and one that answers with
    text that is not JSON, under a parser that accepts only the empty
    object. *)
Definition parseEmptyObject (text : string) : option Json :=
  if String.eqb text "{}" then Some (JObj []) else None.
Definition rejecting : Platform :=
  mkPlatform (fun _ _ => "") (fun _ => Rejected) parseEmptyObject.

End Report.

From stdpp Require Import pretty.

Local Open Scope Z_scope.

(** ** Text transport of audio: base64 in both directions *)

Module Transport.
Import PCM Session.

(** The position of a character in the base64 alphabet. *)
Fixpoint indexIn (c : ascii) (s : string) (i : Z) : option Z :=
  match s with
  | EmptyString => None
  | String d rest => if Ascii.eqb c d then Some i else indexIn c rest (i + 1)
  end.

Definition sextetOf (c : ascii) : option Z := indexIn c alphabet 0.

(** ASCII whitespace: TAB, LF, FF, CR and SPACE. *)
Definition isSpace (c : ascii) : bool :=
  let n := nat_of_ascii c in
  (n =? 9)%nat || (n =? 10)%nat || (n =? 12)%nat || (n =? 13)%nat || (n =? 32)%nat.

(** With a length that is a multiple of four, one or two [=] at the end
    are padding and are removed. *)
Definition dropPadding (l : list ascii) : list ascii :=
  if (length l mod 4 =? 0)%nat then
    match rev l with
    | c1 :: c2 :: r =>
        if Ascii.eqb c1 "=" then
          if Ascii.eqb c2 "=" then rev r else rev (c2 :: r)
        else l
    | [c1] => if Ascii.eqb c1 "=" then [] else l
    | [] => l
    end
  else l.

(** The sextet of every character, or [None] when one of them is not in
    the alphabet. *)
Fixpoint sextets (l : list ascii) : option (list Z) :=
  match l with
  | [] => Some []
  | c :: rest =>
      match sextetOf c, sextets rest with
      | Some n, Some ns => Some (n :: ns)
      | _, _ => None
      end
  end.

(** The bytes of a run of sextets: three bytes for every four sextets,
    two for three left over and one for two left over, the bits beyond
    the last whole byte being discarded. *)
Fixpoint bytesOf (ns : list Z) : list Z :=
  match ns with
  | a :: b :: c :: d :: rest =>
      (a * 4 + b / 16) :: (b mod 16 * 16 + c / 4) :: (c mod 4 * 64 + d) :: bytesOf rest
  | [a; b; c] => [a * 4 + b / 16; b mod 16 * 16 + c / 4]
  | [a; b] => [a * 4 + b / 16]
  | _ => []
  end.

(** [atob]: the forgiving base64 decoding of the platform.  Whitespace is
    removed, then padding; a length that leaves one character over and a
    character outside the alphabet make it throw. *)
Definition atob (text : string) : option (list Z) :=
  let data := dropPadding (List.filter (fun c => negb (isSpace c))
                                       (list_ascii_of_string text)) in
  if (length data mod 4 =? 1)%nat then None
  else match sextets data with
       | Some ns => Some (bytesOf ns)
       | None => None
       end.

(** [base64ToUint8Array], geminiService.ts lines 16-24: the character
    codes of the binary string [atob] returns, one byte each. *)
Definition base64ToUint8Array (base64 : string) : option ArrayBuffer :=
  atob base64.

(** What [btoa] writes, apart from the alphabet: the sextets of a byte
    sequence and the number of padding characters after them. *)
Fixpoint sextetsOfBytes (bytes : list Z) : list Z :=
  match bytes with
  | [] => []
  | [a] => [a / 4; a mod 4 * 16]
  | [a; b] => [a / 4; a mod 4 * 16 + b / 16; b mod 16 * 4]
  | a :: b :: c :: rest =>
      a / 4 :: (a mod 4 * 16 + b / 16) :: (b mod 16 * 4 + c / 64) :: c mod 64
      :: sextetsOfBytes rest
  end.

Fixpoint padCount (bytes : list Z) : nat :=
  match bytes with
  | [] => 0
  | [_] => 2
  | [_; _] => 1
  | _ :: _ :: _ :: rest => padCount rest
  end.

(** [sendAudioChunk] with the spread of line 211,
    [String.fromCharCode(...new Uint8Array(int16.buffer))], which hands
    every byte to one call as an argument and stands before the [try]:
    with more bytes than the engine takes as arguments of a call,
    [maxArguments], it throws a [RangeError] and nothing is sent.  The
    result is [None] when the function throws, and otherwise the event
    handed to the session, if any. *)
Definition sendAudioChunkWithin (maxArguments : nat) (connected : bool)
    (float32Data : Float32Array) : option (option Media) :=
  if negb connected then Some None
  else if (maxArguments <? length (chunkBytes float32Data))%nat then None
  else Some (sendAudioChunk connected float32Data).

End Transport.

(** ** Playback timeline: segments that abut *)

Module Timeline.
Import PCM Playback.

(** A timeline in which the first segment starts at [cursor] and every
    other segment starts at the very instant the one before it ends. *)
Fixpoint contiguous (cursor : Q) (segments : list (Q * AudioBuffer)) : Prop :=
  match segments with
  | [] => True
  | s :: rest => fst s = cursor /\ contiguous (segmentEnd s) rest
  end.

End Timeline.

(** ** Streams of capture buffers *)

Module Capture.
Import PCM SpeechRate.

(** A stream whose first buffer is analyzed at [earliest] or later and
    whose buffers are analyzed at least [d] ms apart.  A script processor
    with 4096 frames at 16000 Hz delivers a buffer every 256 ms. *)
Fixpoint spaced (d earliest : Z) (buffers : list Buffer) : Prop :=
  match buffers with
  | [] => True
  | b :: rest => earliest <= at_ms b /\ spaced d (at_ms b + d) rest
  end.

End Capture.

(** ** Invariants of the advisory state *)

Module AdvisoryInvariant.
Import Advisory.

(** The ledger entry of the category of an active nudge is the time that
    nudge was created. *)
Definition stamped (st : State) : Prop :=
  Forall (fun n => lastNudgeTime st !! type n = Some (timestamp n)) (nudgeCell st).

End AdvisoryInvariant.

(** ** The visual summary of a session *)

Module Summary.
Import Vision.

(** The line feed of a template literal. *)
Definition nl : string := String (ascii_of_nat 10) "".

(** [Math.round]: the nearest integer, halves toward plus infinity. *)
Definition Math_round (x : Q) : Z := Qfloor (x + (1 # 2)).

(** The counters count: both are between 0 and the number of frames. *)
Definition counted (s : Service) : Prop :=
  (0 <= eyeContactFrames s <= totalFrames s)%Z
  /\ (0 <= goodPostureFrames s <= totalFrames s)%Z.

Section Rounding.

(** The rounding of a real number to the nearest double: the quotient and
    the product of [getSummary] are rounded, each once. *)
Variable fl : Q -> Q.

(** [Math.round((part / total) * 100)]. *)
Definition percent (part total : Z) : Z :=
  Math_round (fl (fl (inject_Z part / inject_Z total) * 100)).

(** [getSummary], visionService.ts lines 121-130. *)
Definition getSummary (s : Service) : string :=
  if (totalFrames s =? 0)%Z then "No visual analysis data available."
  else
    let eyeContactPct := percent (eyeContactFrames s) (totalFrames s) in
    let posturePct := percent (goodPostureFrames s) (totalFrames s) in
    "VISUAL ANALYSIS SUMMARY:" ++ nl
    ++ "    - Eye Contact Maintained: " ++ pretty eyeContactPct ++ "%" ++ nl
    ++ "    - Good Posture Maintained: " ++ pretty posturePct ++ "%".

End Rounding.

End Summary.

(** ** Streaming session adapter: inbound events and the transcript *)

Module Inbox.
Import PCM Transport Report.

(** The fields of a server message the handler reads; a field that is
    absent is [None]. *)
Record ServerMessage := mkServerMessage {
  inlineData : option string;         (* modelTurn.parts[0].inlineData.data *)
  modelText : option string;          (* modelTurn.parts[0].text *)
  outputTranscription : option string;
  inputTranscription : option string
}.

(** A string field counts when it is there and is not empty. *)
Definition present (field : option string) : option string :=
  match field with
  | Some s => if String.eqb s "" then None else Some s
  | None => None
  end.

(** The calls the handler makes to the callbacks it was given. *)
Inductive Callback :=
| OnAudioData (buffer : ArrayBuffer)
| OnTranscript (item : TranscriptItem).

(** One transcript branch of the handler: with a text, an item is pushed
    and passed to [onTranscript]. *)
Definition note (role : string) (field : option string) (now : Z)
    (acc : list TranscriptItem * list Callback) : list TranscriptItem * list Callback :=
  match present field with
  | Some text =>
      let item := mkTranscriptItem role text now in
      (acc.1 ++ [item], acc.2 ++ [OnTranscript item])
  | None => acc
  end.

(** The [onmessage] callback of [connect], geminiService.ts lines 115-146.
    [now1], [now2] and [now3] are the results of the three calls of
    [Date.now()].  The result is the transcript afterwards and the
    callbacks made, or [None] when [base64ToUint8Array] throws, which
    happens before anything else is done. *)
Definition onmessage (now1 now2 now3 : Z) (message : ServerMessage)
    (transcript : list TranscriptItem)
    : option (list TranscriptItem * list Callback) :=
  let audio :=
    match present (inlineData message) with
    | Some audioStr =>
        match base64ToUint8Array audioStr with
        | Some audioData => Some [OnAudioData audioData]
        | None => None
        end
    | None => Some []
    end in
  match audio with
  | None => None
  | Some calls =>
      Some (note "user" (inputTranscription message) now3
              (note "model" (outputTranscription message) now2
                 (note "model" (modelText message) now1 (transcript, calls))))
  end.

(** [addLocalTranscriptItem], geminiService.ts lines 252-258. *)
Definition addLocalTranscriptItem (role text : string) (now : Z)
    (transcript : list TranscriptItem) : list TranscriptItem :=
  transcript ++ [mkTranscriptItem role text now].

(** The transcript items among the callbacks made. *)
Definition transcribed (calls : list Callback) : list TranscriptItem :=
  flat_map (fun c => match c with OnTranscript item => [item] | _ => [] end) calls.

(** The media recorder of the interview screen: the ref is null, or the
    recorder is inactive, or it is recording. *)
Inductive Recorder := NoRecorder | Inactive | Recording.

(** What is handed to [onFinish]: the transcript and the recording, the
    recorded chunks as one blob or null. *)
Record Finish (Chunk : Type) := mkFinish {
  finalTranscript : list TranscriptItem;
  recordingBlob : option (list Chunk)
}.
Arguments mkFinish {Chunk}.
Arguments finalTranscript {Chunk}.
Arguments recordingBlob {Chunk}.

(** [handleEndSession], InterviewScreen.tsx lines 343-357, up to the
    return: the transcript with the system note, and the call of
    [onFinish] made at once, if any.  [summary] is what
    [visionService.getSummary()] returns. *)
Definition handleEndSession {Chunk : Type} (summary : string) (now : Z)
    (recorder : Recorder) (transcript : list TranscriptItem)
    : list TranscriptItem * option (Finish Chunk) :=
  let transcript1 := addLocalTranscriptItem "SYSTEM_NOTE" summary now transcript in
  match recorder with
  | Recording => (transcript1, None)
  | _ => (transcript1, Some (mkFinish transcript1 None))
  end.

(** The 500 ms timer a recording session arms: [onFinish] with the
    transcript as it is by then and the blob of the chunks recorded. *)
Definition finishLater {Chunk : Type} (recordedChunks : list Chunk)
    (transcript : list TranscriptItem) : Finish Chunk :=
  mkFinish transcript (Some recordedChunks).

End Inbox.

(** ** The countdown of the interview screen *)

Module Countdown.

(** The updater of the one-second interval, InterviewScreen.tsx lines
    332-338: the time left afterwards, and whether [handleEndSession] was
    called. *)
Definition tick (prev : Z) : Z * bool :=
  if prev <=? 1 then (0, true) else (prev - 1, false).

(** [k] ticks in a row: the time left and, for each tick, whether it
    ended the session. *)
Fixpoint ticks (k : nat) (timeLeft : Z) : Z * list bool :=
  match k with
  | O => (timeLeft, [])
  | S k' =>
      let '(remaining, ended) := tick timeLeft in
      let '(final, later) := ticks k' remaining in
      (final, ended :: later)
  end.

End Countdown.

(** ** The loading steps of the report screen *)

Module Loading.
Import Report.

(** The updater of the two-second interval, ReportScreen lines 29-31. *)
Definition advance (prev : nat) : nat :=
  if (prev <? LOADING_STEPS - 1)%nat then (prev + 1)%nat else prev.

(** [setReport(data)] with what [JSON.parse] returned: the state holds a
    report or null, and a parsed [null] is null. *)
Definition setReport (data : Json) : option Json :=
  match data with
  | JNull => None
  | _ => Some data
  end.

(** What changes the state of the report screen: a tick of the interval,
    which exists while the screen is loading; the end of [generate] for a
    given result of [generateReport]; and the timer of its [finally]
    block. *)
Inductive Action :=
| Tick
| Generated (result : option Json)
| Timer.

Definition step (s : Screen) (a : Action) : Screen :=
  match a with
  | Tick =>
      if loading s then mkScreen (report s) (loading s) (advance (loadingStepIndex s))
      else s
  | Generated result =>
      mkScreen (match result with
                | Some data => setReport data
                | None => Some fallbackReport
                end)
               (loading s) (LOADING_STEPS - 1)
  | Timer => finished s
  end.

Definition run (s : Screen) (actions : list Action) : Screen :=
  fold_left step actions s.

(** The result of the generation that ended last, if one has ended. *)
Definition lastGenerated (actions : list Action) : option (option Json) :=
  fold_left (fun acc a => match a with Generated result => Some result | _ => acc end)
            actions None.

End Loading.

(** ** Streaming session adapter: outbound video frames *)

Module Frames.

(** A character of the class [\w]: a letter, a digit or the underscore. *)
Definition isWord (c : ascii) : bool :=
  let n := nat_of_ascii c in
  ((48 <=? n) && (n <=? 57) || (65 <=? n) && (n <=? 90)
   || (97 <=? n) && (n <=? 122) || (n =? 95))%nat.

(** The rest of a string after a given prefix, if it starts with it. *)
Fixpoint after (prefix s : string) : option string :=
  match prefix, s with
  | EmptyString, _ => Some s
  | String p prefix', String c s' => if Ascii.eqb p c then after prefix' s' else None
  | String _ _, EmptyString => None
  end.

(** The rest of a string after its longest run of word characters. *)
Fixpoint skipWord (s : string) : string :=
  match s with
  | String c s' => if isWord c then skipWord s' else s
  | EmptyString => s
  end.

(** [base64Data.replace(/^data:image\/\w+;base64,/, "")].  The run of
    word characters is followed by [;], which is no word character, so
    the match, when there is one, takes the longest run. *)
Definition stripDataUri (base64Data : string) : string :=
  match after "data:image/" base64Data with
  | Some rest =>
      match rest with
      | String c _ =>
          if isWord c then
            match after ";base64," (skipWord rest) with
            | Some data => data
            | None => base64Data
            end
          else base64Data
      | EmptyString => base64Data
      end
  | None => base64Data
  end.

(** Every character of a string is a word character. *)
Fixpoint allWord (s : string) : bool :=
  match s with
  | String c s' => isWord c && allWord s'
  | EmptyString => true
  end.

(** [sendVideoFrame], geminiService.ts lines 225-239. *)
Definition sendVideoFrame (connected : bool) (base64Data : string)
    : option Session.Media :=
  if negb connected then None
  else Some (Session.mkMedia "image/jpeg" (stripDataUri base64Data)).

End Frames.

(** ** The resume excerpt of the prompts *)

Module Prompt.

(** A JavaScript string: its UTF-16 code units. *)
Definition JsString := list Z.

(** The code units of a text of ASCII characters. *)
Definition units (s : string) : JsString :=
  map (fun c => Z.of_nat (nat_of_ascii c)) (list_ascii_of_string s).

(** The code units [trim] removes: white space and line terminators. *)
Definition isWhiteSpace (u : Z) : bool :=
  (u =? 9) || (u =? 10) || (u =? 11) || (u =? 12) || (u =? 13) || (u =? 32)
  || (u =? 160) || (u =? 5760) || ((8192 <=? u) && (u <=? 8202))
  || (u =? 8232) || (u =? 8233) || (u =? 8239) || (u =? 8287) || (u =? 12288)
  || (u =? 65279).

Fixpoint trimStart (s : JsString) : JsString :=
  match s with
  | u :: rest => if isWhiteSpace u then trimStart rest else s
  | [] => []
  end.

(** [s.trim()]. *)
Definition trim (s : JsString) : JsString := rev (trimStart (rev (trimStart s))).

(** [s.slice(0, n)]. *)
Definition slice0 (n : nat) (s : JsString) : JsString := firstn n s.

(** A resume counts when more than ten code units are left of it after
    trimming: [config.resume && config.resume.trim().length > 10]. *)
Definition hasResume (resume : JsString) : bool :=
  (10 <? length (trim resume))%nat.

(** The resume section of the system instruction, geminiService.ts lines
    87-89; 10 is the line feed. *)
Definition resumeSection (resume : JsString) : JsString :=
  if hasResume resume
  then units "CANDIDATE RESUME SUMMARY:" ++ [10] ++ slice0 500 resume ++ units "..."
  else units "CANDIDATE RESUME SUMMARY:" ++ [10]
       ++ units "[No resume provided. Ask about their background generally.]".

(** The resume context of the report prompt, geminiService.ts lines
    41-43; 34 is the double quote. *)
Definition resumeContext (resume : JsString) : JsString :=
  if hasResume resume
  then units "User Resume Context: " ++ [34] ++ slice0 1000 resume
       ++ units "..." ++ [34]
  else units "User Resume Context: N/A (The user did not provide a resume. Do not make up facts about their background.)".

End Prompt.

(** ** The polling loop of the interview screen *)

Module Polling.
Import Advisory Vision.

(** A call of [visionService.analyze] made by the loop: the service as
    the call found it, the timestamp passed and the result. *)
Record Analysis := mkAnalysis {
  serviceBefore : Service;
  ts : Q;
  result : option VisionResult
}.

Section Loop.

Context {Video : Type}.
Variable models : Landmarkers Video.

(** The rounding of a real number to the nearest double, for the
    difference [now - lastAnalysisTimeRef.current]. *)
Variable fl : Q -> Q.

(** One run of [loop], InterviewScreen.tsx lines 268-301.  [hasStarted] is
    the binding the closure captured; [now] is what [performance.now()]
    returns; [video] is the video element when it is there, has enough
    data and is not paused.  The result is [None] when the loop returns
    without requesting another animation frame, and otherwise
    [lastAnalysisTimeRef.current] and the service afterwards with the
    analysis made, if any.  What the loop does with the result of an
    analysis is [Advisory.tickNudges]; neither that nor the upload of a
    frame changes what the loop reads here. *)
Definition loop (hasStarted : bool) (now : Q) (video : option Video)
    (lastAnalysisTime : Q) (s : Service) : option (Q * Service * list Analysis) :=
  if negb hasStarted then None
  else if PCM.Qltb 100 (fl (now - lastAnalysisTime)) then
    match video with
    | Some v =>
        let ts := Qmax 1 now in
        let '(result, s', _) := analyze models s v ts in
        Some (now, s', [mkAnalysis s ts result])
    | None => Some (lastAnalysisTime, s, [])
    end
  else Some (lastAnalysisTime, s, []).

(** The loop over the animation frames that follow, each with its clock
    reading and its video element: the analyses made, in order. *)
Fixpoint poll (hasStarted : bool) (frames : list (Q * option Video))
    (lastAnalysisTime : Q) (s : Service) : list Analysis :=
  match frames with
  | [] => []
  | (now, video) :: rest =>
      match loop hasStarted now video lastAnalysisTime s with
      | None => []
      | Some (lastAnalysisTime', s', made) =>
          made ++ poll hasStarted rest lastAnalysisTime' s'
      end
  end.

End Loop.

End Polling.

(* ===================================================================== *)
(** * Part II: properties                                                 *)
(* ===================================================================== *)

Local Open Scope Q_scope.

(** ** Numbers *)

Section Numbers.

Lemma Qltb_lt (x y : Q) : PCM.Qltb x y = true <-> x < y.
Proof.
  unfold PCM.Qltb. rewrite negb_true_iff, <- not_true_iff_false, Qle_bool_iff.
  split; [apply Qnot_le_lt | apply Qlt_not_le].
Qed.

Lemma Qltb_ge (x y : Q) : PCM.Qltb x y = false <-> y <= x.
Proof.
  unfold PCM.Qltb. rewrite negb_false_iff. apply Qle_bool_iff.
Qed.

Lemma Qle_bool_gt (x y : Q) : Qle_bool x y = false <-> y < x.
Proof.
  rewrite <- not_true_iff_false, Qle_bool_iff.
  split; [apply Qnot_le_lt | apply Qlt_not_le].
Qed.

(** [Math.max] returns one of its arguments, the larger one. *)
Lemma Qmax_cases (x y : Q) :
  (Qmax x y = x /\ y <= x) \/ (Qmax x y = y /\ x <= y).
Proof.
  unfold Qmax, GenericMinMax.gmax.
  destruct (Qcompare_spec x y) as [E | L | G].
  - left. split; [reflexivity | rewrite E; apply Qle_refl].
  - right. split; [reflexivity | apply Qlt_le_weak, L].
  - left. split; [reflexivity | apply Qlt_le_weak, G].
Qed.

Lemma Qmin_cases (x y : Q) :
  (Qmin x y = x /\ x <= y) \/ (Qmin x y = y /\ y <= x).
Proof.
  unfold Qmin, GenericMinMax.gmin.
  destruct (Qcompare_spec x y) as [E | L | G].
  - left. split; [reflexivity | rewrite E; apply Qle_refl].
  - left. split; [reflexivity | apply Qlt_le_weak, L].
  - right. split; [reflexivity | apply Qlt_le_weak, G].
Qed.

Lemma Qmax_ub_l (x y : Q) : x <= Qmax x y.
Proof. destruct (Qmax_cases x y) as [[-> H] | [-> H]]; [apply Qle_refl | exact H]. Qed.

Lemma Qmax_ub_r (x y : Q) : y <= Qmax x y.
Proof. destruct (Qmax_cases x y) as [[-> H] | [-> H]]; [exact H | apply Qle_refl]. Qed.

(** Truncation moves a number toward zero by less than one. *)
Lemma truncate_nonneg (x : Q) :
  0 <= x -> inject_Z (PCM.truncate x) <= x /\ x < inject_Z (PCM.truncate x) + 1.
Proof.
  intros H. unfold PCM.truncate.
  apply Qle_bool_iff in H. rewrite H. cbv iota.
  split; [apply Qfloor_le |].
  pose proof (Qlt_floor x) as L. rewrite inject_Z_plus in L. exact L.
Qed.

Lemma truncate_neg (x : Q) :
  x < 0 -> x <= inject_Z (PCM.truncate x) /\ inject_Z (PCM.truncate x) < x + 1.
Proof.
  intros H. unfold PCM.truncate.
  apply Qle_bool_gt in H. rewrite H. cbv iota.
  split; [apply Qle_ceiling |].
  pose proof (Qceiling_lt x) as L.
  unfold Z.sub in L. rewrite inject_Z_plus, inject_Z_opp in L.
  change (inject_Z 1) with 1 in L. lra.
Qed.

Lemma ToInt16_in_range (x : Q) :
  (-32768 <= PCM.truncate x <= 32767)%Z -> PCM.ToInt16 x = PCM.truncate x.
Proof.
  intros H. unfold PCM.ToInt16. cbv zeta.
  destruct (Z.leb_spec 32768 (PCM.truncate x mod 65536)) as [L | L];
    Z.to_euclidean_division_equations; lia.
Qed.

Lemma ToInt16_range (x : Q) : (-32768 <= PCM.ToInt16 x <= 32767)%Z.
Proof.
  unfold PCM.ToInt16. cbv zeta.
  destruct (Z.leb_spec 32768 (PCM.truncate x mod 65536)) as [L | L];
    Z.to_euclidean_division_equations; lia.
Qed.

End Numbers.

(** ** PCM codec *)

Module PCMFacts.
Import PCM.

(** Division by the constant of the decoder, as a product. *)
Ltac over_32768 :=
  unfold Qdiv in *; change (/ 32768)%Q with (1 # 32768)%Q in *.

Lemma low_high_disjoint (lo hi : Z) :
  (0 <= lo < 256)%Z -> Z.land lo (Z.shiftl hi 8) = 0%Z.
Proof.
  intros Hlo. apply Z.bits_inj'. intros n Hn.
  rewrite Z.land_spec, Z.bits_0.
  destruct (Z.lt_ge_cases n 8) as [L | G].
  - rewrite (Z.shiftl_spec_low hi 8 n L). apply andb_false_r.
  - replace lo with (lo mod 2 ^ 8)%Z by (apply Z.mod_small; lia).
    rewrite Z.mod_pow2_bits_high by lia. reflexivity.
Qed.

(** Two bytes, least significant first, hold the number they were made
    from. *)
Lemma int16_of_le_bytes (v : Z) :
  (-32768 <= v <= 32767)%Z ->
  int16_of_le (Z.land v 255) (Z.land (Z.shiftr v 8) 255) = v.
Proof.
  intros Hv. unfold int16_of_le.
  change 255%Z with (Z.ones 8).
  rewrite !Z.land_ones by lia.
  rewrite Z.shiftr_div_pow2 by lia.
  assert (Hlo : (0 <= v mod 2 ^ 8 < 256)%Z) by (apply Z.mod_pos_bound; lia).
  pose proof (Z.add_lor_land (v mod 2 ^ 8) (Z.shiftl ((v / 2 ^ 8) mod 2 ^ 8) 8)) as A.
  rewrite (low_high_disjoint _ _ Hlo), Z.add_0_r in A.
  rewrite A, Z.shiftl_mul_pow2 by lia.
  change (2 ^ 8)%Z with 256%Z in *.
  destruct (Z.leb_spec 32768 (v mod 256 + (v / 256) mod 256 * 256)) as [L | L];
    Z.to_euclidean_division_equations; lia.
Qed.

Lemma int16_le_bytes (v : Z) : Forall is_byte (int16_le v).
Proof.
  unfold int16_le, is_byte. change 255%Z with (Z.ones 8).
  rewrite !Z.land_ones by lia.
  repeat constructor; apply Z.mod_pos_bound; lia.
Qed.

Lemma encodeSample_range (x : Q) : (-32768 <= encodeSample x <= 32767)%Z.
Proof. apply ToInt16_range. Qed.

(** The encoder writes bytes, two for each sample. *)
Lemma floatTo16BitPCM_bytes (x : Float32Array) : Forall is_byte (floatTo16BitPCM x).
Proof.
  induction x as [| s x IH]; [constructor |].
  cbn [floatTo16BitPCM flat_map]. apply Forall_app. split; [apply int16_le_bytes | exact IH].
Qed.

Lemma floatTo16BitPCM_length (x : Float32Array) :
  length (floatTo16BitPCM x) = (2 * length x)%nat.
Proof.
  induction x as [| s x IH]; [reflexivity |].
  cbn [floatTo16BitPCM flat_map]. rewrite length_app.
  unfold floatTo16BitPCM in IH. rewrite IH. cbn. lia.
Qed.

(** Decoding what the encoder wrote gives each encoded integer over
    32768. *)
Lemma decodeSamples_floatTo16BitPCM (x : Float32Array) :
  decodeSamples (floatTo16BitPCM x)
  = Some (map (fun s => inject_Z (encodeSample s) / 32768) x).
Proof.
  unfold decodeSamples.
  assert (E : Int16Array_of_buffer (floatTo16BitPCM x) = Some (map encodeSample x)).
  { induction x as [| s x IH]; [reflexivity |].
    cbn [floatTo16BitPCM flat_map int16_le app map Int16Array_of_buffer].
    fold (floatTo16BitPCM x). rewrite IH.
    rewrite int16_of_le_bytes by apply encodeSample_range. reflexivity. }
  rewrite E, map_map. reflexivity.
Qed.

(** On [[-1, 1]] the clamp changes nothing. *)
Lemma clamp_inside (x : Q) : -1 <= x <= 1 -> clamp x == x.
Proof.
  intros [L U]. unfold clamp.
  destruct (Qmax_cases (-1) (Qmin 1 x)) as [[E' H'] | [E' H']]; rewrite E';
    destruct (Qmin_cases 1 x) as [[E H] | [E H]]; rewrite E in *; lra.
Qed.

(** The quantisation error of one sample: the decoded value lies toward
    zero from the sample, by less than one step of 1/32768 on the
    negative side, and by less than [(1 + x)] steps on the other. *)
Lemma sample_error (x : Q) :
  -1 <= x <= 1 ->
  let t := inject_Z (encodeSample x) / 32768 in
  (x < 0 -> 0 <= t - x /\ t - x < 1 # 32768)
  /\ (0 <= x -> 0 <= x - t /\ x - t < (1 + x) * (1 # 32768)).
Proof.
  intros Hx. pose proof (clamp_inside x Hx) as Hc.
  unfold encodeSample. cbv zeta.
  set (s := clamp x) in *.
  destruct (Qltb s 0) eqn:Hs.
  - apply Qltb_lt in Hs.
    destruct (truncate_neg (s * 32768)) as [Lo Hi]; [lra |].
    assert (R : (-32768 <= truncate (s * 32768) <= 32767)%Z).
    { split.
      - rewrite Zle_Qle. change (inject_Z (-32768)) with (-32768 # 1). lra.
      - apply Z.lt_succ_r. rewrite Zlt_Qlt.
        change (inject_Z (Z.succ 32767)) with 32768. lra. }
    rewrite (ToInt16_in_range _ R). over_32768.
    split; intros Hsign; [| lra].
    split; lra.
  - apply Qltb_ge in Hs.
    destruct (truncate_nonneg (s * 32767)) as [Lo Hi]; [lra |].
    assert (R : (-32768 <= truncate (s * 32767) <= 32767)%Z).
    { split.
      - apply Z.le_trans with 0%Z; [lia |].
        apply Z.lt_succ_r. rewrite Zlt_Qlt.
        change (inject_Z 0) with 0. rewrite <- Z.add_1_r, inject_Z_plus.
        change (inject_Z 1) with 1. lra.
      - rewrite Zle_Qle. change (inject_Z 32767) with 32767. lra. }
    rewrite (ToInt16_in_range _ R). over_32768.
    split; intros Hsign; [lra |].
    split; lra.
Qed.

(** C3, as the code has it: for every sample sequence with all values in
    [[-1, 1]], decoding the 16-bit encoding of [floatTo16BitPCM] with the
    sample loop of [decodePCMData] yields a sequence of the same length
    whose per-sample absolute difference from the input is below
    2/32768, and below 1/32768 for negative samples; for a sequence that
    is not empty, [decodePCMData] returns the buffer of those samples. *)
Theorem roundtrip_error (x : Float32Array) :
  Forall (fun s => -1 <= s <= 1) x ->
  exists y : Float32Array,
    decodeSamples (floatTo16BitPCM x) = Some y
    /\ Forall2 (fun s t => Qabs (t - s) < 2 # 32768
                           /\ (s < 0 -> Qabs (t - s) < 1 # 32768)) x y
    /\ (x <> [] -> decodePCMData (floatTo16BitPCM x) = Some (mkAudioBuffer y 24000)).
Proof.
  intros Hx.
  exists (map (fun s => inject_Z (encodeSample s) / 32768) x).
  split; [apply decodeSamples_floatTo16BitPCM |].
  split.
  - induction Hx as [| s x Hs Hx IH]; cbn [map]; constructor; [| exact IH].
    destruct (sample_error s Hs) as [Neg Pos].
    destruct (Qlt_le_dec s 0) as [L | G].
    + destruct (Neg L) as [A B].
      split; [| intros _]; apply Qabs_Qlt_condition; lra.
    + destruct (Pos G) as [A B].
      split; [| intros L; lra]. apply Qabs_Qlt_condition. lra.
  - intros Hne. unfold decodePCMData.
    rewrite decodeSamples_floatTo16BitPCM.
    destruct x as [| s x]; [contradiction | reflexivity].
Qed.

Lemma roundtrip_error_witness :
  exists y : Float32Array,
    decodeSamples (floatTo16BitPCM [1; -1; 1 # 2]) = Some y
    /\ Forall2 (fun s t => Qabs (t - s) < 2 # 32768
                           /\ (s < 0 -> Qabs (t - s) < 1 # 32768))
               [1; -1; 1 # 2] y
    /\ ([1; -1; 1 # 2] <> []
        -> decodePCMData (floatTo16BitPCM [1; -1; 1 # 2])
           = Some (mkAudioBuffer y 24000)).
Proof.
  apply (roundtrip_error [1; -1; 1 # 2]).
  repeat constructor; vm_compute; discriminate.
Defined.

(** C3, as the spec words it, fails: the sample 1 - 2^-17 comes back as
    32766/32768, which is 7/131072 away, more than 1/32768. *)
Lemma roundtrip_exceeds_one_step :
  -1 <= 131071 # 131072 <= 1
  /\ decodeSamples (floatTo16BitPCM [131071 # 131072]) = Some [32766 # 32768]
  /\ ~ Qabs ((32766 # 32768) - (131071 # 131072)) <= 1 # 32768.
Proof.
  split; [split; vm_compute; discriminate |].
  split; [reflexivity |].
  vm_compute. intros H. apply H. reflexivity.
Qed.

(** [truncate], and with it [ToInt16], does not tell equal rationals
    apart. *)
Lemma truncate_comp (x y : Q) : x == y -> truncate x = truncate y.
Proof.
  intros E. unfold truncate.
  rewrite (Qfloor_comp _ _ E), (Qceiling_comp _ _ E).
  replace (Qle_bool 0 y) with (Qle_bool 0 x); [reflexivity |].
  destruct (Qle_bool 0 x) eqn:A, (Qle_bool 0 y) eqn:B; try reflexivity.
  - apply Qle_bool_iff in A. apply Qle_bool_gt in B. lra.
  - apply Qle_bool_iff in B. apply Qle_bool_gt in A. lra.
Qed.

(** On negative samples of [[-1, 0)] the inline conversion of
    [sendAudioChunk] and [floatTo16BitPCM] agree. *)
Lemma chunkSample_negative (x : Q) :
  -1 <= x -> x < 0 -> chunkSample x = encodeSample x.
Proof.
  intros L U. unfold chunkSample, encodeSample. cbv zeta.
  assert (E : clamp x == x) by (apply clamp_inside; lra).
  assert (N : Qltb (clamp x) 0 = true) by (apply Qltb_lt; lra).
  rewrite N. unfold ToInt16.
  rewrite (truncate_comp (clamp x * 32768) (x * 32768)); [reflexivity |].
  rewrite E. reflexivity.
Qed.

(** C2 at a full-scale sample: [sendAudioChunk] sends the bytes [00 80],
    the integer -32768, where [floatTo16BitPCM] writes [FF 7F], the
    integer 32767. *)
Lemma sendAudioChunk_wraps_full_scale :
  Session.sendAudioChunk true [1]
  = Some (Session.mkMedia "audio/pcm;rate=16000" (Session.btoa [0; 128]%Z))
  /\ chunkBytes [1] = [0; 128]%Z
  /\ Int16Array_of_buffer (chunkBytes [1]) = Some [-32768]%Z
  /\ floatTo16BitPCM [1] = [255; 127]%Z
  /\ Int16Array_of_buffer (floatTo16BitPCM [1]) = Some [32767]%Z.
Proof. repeat split; reflexivity. Qed.

(** The same at an ordinary positive sample: 0.5 is sent as 16384, the
    codec writes 16383. *)
Example sendAudioChunk_half_scale :
  Int16Array_of_buffer (chunkBytes [1 # 2]) = Some [16384]%Z
  /\ Int16Array_of_buffer (floatTo16BitPCM [1 # 2]) = Some [16383]%Z.
Proof. split; reflexivity. Qed.

(** A sample beyond full scale is clamped by the codec and wrapped by
    [sendAudioChunk]. *)
Example sendAudioChunk_beyond_full_scale :
  Int16Array_of_buffer (chunkBytes [3 # 2]) = Some [-16384]%Z
  /\ Int16Array_of_buffer (floatTo16BitPCM [3 # 2]) = Some [32767]%Z.
Proof. split; reflexivity. Qed.

(** Not connected: nothing is sent. *)
Example sendAudioChunk_disconnected (x : Float32Array) :
  Session.sendAudioChunk false x = None.
Proof. reflexivity. Qed.

End PCMFacts.

(** ** Playback scheduler *)

Module PlaybackFacts.
Import PCM Playback.

(** Induction over a buffer two bytes at a time, as the 16-bit view reads
    it. *)
Lemma byte_pairs_ind (P : ArrayBuffer -> Prop) :
  P [] -> (forall a, P [a]) -> (forall lo hi rest, P rest -> P (lo :: hi :: rest)) ->
  forall raw, P raw.
Proof.
  intros H0 H1 H2 raw.
  enough (P raw /\ forall a, P (a :: raw)) by tauto.
  induction raw as [| b raw [IH1 IH2]]; split; auto.
Qed.

Lemma Int16Array_length (raw : ArrayBuffer) (pcm : list Z) :
  Int16Array_of_buffer raw = Some pcm -> length raw = (2 * length pcm)%nat.
Proof.
  revert pcm. induction raw as [| a | lo hi rest IH] using byte_pairs_ind;
    intros pcm E; cbn in E.
  - injection E as <-. reflexivity.
  - discriminate.
  - destruct (Int16Array_of_buffer rest) as [pcm' |]; [| discriminate].
    injection E as <-. cbn. rewrite (IH pcm' eq_refl). lia.
Qed.

Lemma Int16Array_odd (raw : ArrayBuffer) :
  Int16Array_of_buffer raw = None <-> Nat.Odd (length raw).
Proof.
  induction raw as [| a | lo hi rest IH] using byte_pairs_ind; cbn.
  - split; [discriminate | intros [k Hk]; cbn in Hk; lia].
  - split; [intros _; exists 0%nat; reflexivity | reflexivity].
  - destruct (Int16Array_of_buffer rest) as [pcm |].
    + split; [discriminate |]. intros [k Hk].
      assert (O : Nat.Odd (length rest)) by (exists (k - 1)%nat; lia).
      apply IH in O. discriminate.
    + split; [| reflexivity]. intros _.
      destruct (proj1 IH eq_refl) as [k Hk]. exists (S k). lia.
Qed.

(** What a successful decode returns: as many samples as byte pairs, at
    least one, at 24000 Hz. *)
Lemma decodePCMData_Some (raw : ArrayBuffer) (b : AudioBuffer) :
  decodePCMData raw = Some b ->
  sampleRate b = 24000%Z /\ channelData b <> []
  /\ length raw = (2 * length (channelData b))%nat.
Proof.
  unfold decodePCMData, decodeSamples.
  destruct (Int16Array_of_buffer raw) as [pcm |] eqn:E; [| discriminate].
  apply Int16Array_length in E.
  unfold createBuffer.
  destruct (map _ pcm) as [| t ts] eqn:M; [discriminate |].
  intros [= <-]. cbn [sampleRate channelData].
  split; [reflexivity |]. split; [discriminate |].
  rewrite E, <- M, length_map. reflexivity.
Qed.

(** A decode fails exactly on a payload of odd length or of no bytes. *)
Lemma decodePCMData_None (raw : ArrayBuffer) :
  decodePCMData raw = None <-> raw = [] \/ Nat.Odd (length raw).
Proof.
  unfold decodePCMData, decodeSamples.
  destruct (Int16Array_of_buffer raw) as [pcm |] eqn:E.
  - pose proof (Int16Array_length raw pcm E) as L.
    destruct pcm as [| v pcm]; cbn.
    + split; [intros _; left | reflexivity].
      destruct raw; [reflexivity | cbn in L; lia].
    + split; [discriminate |].
      intros [-> | O]; [discriminate |].
      apply Int16Array_odd in O. congruence.
  - split; [intros _; right; apply Int16Array_odd, E | reflexivity].
Qed.

Lemma duration_decoded (raw : ArrayBuffer) (b : AudioBuffer) :
  decodePCMData raw = Some b -> 0 < duration b.
Proof.
  intros H. destruct (decodePCMData_Some raw b H) as (R & N & _).
  unfold duration. rewrite R.
  destruct (channelData b) as [| t ts]; [contradiction |].
  unfold Qdiv. change (/ inject_Z 24000) with (1 # 24000).
  assert (0 < inject_Z (Z.of_nat (length (t :: ts)))).
  { change 0 with (inject_Z 0). rewrite <- Zlt_Qlt. cbn [length]. lia. }
  lra.
Qed.

(** One call: what it schedules and where it leaves the cursor. *)
Lemma onAudioData_scheduled (outputReady : bool) (currentTime : Q)
    (raw : ArrayBuffer) (cursor : Q) :
  let '(next, effs) := onAudioData outputReady currentTime raw cursor in
  (scheduled effs = [] /\ cursor <= next /\ next <= Qmax cursor currentTime)
  \/ (exists b, outputReady = true /\ decodePCMData raw = Some b
                /\ scheduled effs = [(Qmax cursor currentTime, b)]
                /\ next = Qmax cursor currentTime + duration b).
Proof.
  unfold onAudioData.
  destruct outputReady; cbn [negb].
  - destruct (decodePCMData raw) as [b |] eqn:D.
    + right. exists b. repeat split; reflexivity.
    + left. cbn. split; [reflexivity |]. split; [apply Qmax_ub_l | apply Qle_refl].
  - left. cbn. split; [reflexivity |]. split; [apply Qle_refl | apply Qmax_ub_l].
Qed.

Lemma onAudioData_monotone (outputReady : bool) (currentTime : Q)
    (raw : ArrayBuffer) (cursor : Q) :
  cursor <= fst (onAudioData outputReady currentTime raw cursor).
Proof.
  pose proof (onAudioData_scheduled outputReady currentTime raw cursor) as H.
  destruct (onAudioData outputReady currentTime raw cursor) as [next effs].
  cbn [fst]. destruct H as [(_ & H & _) | (b & _ & D & _ & ->)]; [exact H |].
  pose proof (duration_decoded raw b D). pose proof (Qmax_ub_l cursor currentTime). lra.
Qed.

(** Every segment of a run starts at or after the cursor the run started
    with. *)
Lemma run_starts_after (events : list Inbound) (cursor : Q) :
  Forall (fun s => cursor <= fst s) (timeline (run cursor events)).
Proof.
  revert cursor. induction events as [| e events IH]; intros cursor; [constructor |].
  cbn [run].
  pose proof (onAudioData_scheduled (ready e) (clock e) (payload e) cursor) as H.
  pose proof (onAudioData_monotone (ready e) (clock e) (payload e) cursor) as M.
  destruct (onAudioData (ready e) (clock e) (payload e) cursor) as [next effs].
  cbn [fst] in M. unfold timeline. cbn [flat_map effects]. fold (timeline (run next events)).
  apply Forall_app. split.
  - destruct H as [(-> & _) | (b & _ & _ & -> & _)]; [constructor |].
    repeat constructor. cbn [fst]. apply Qmax_ub_l.
  - eapply Forall_impl; [apply IH |]. cbn beta. intros s Hs. lra.
Qed.

(** The timeline of a run is ordered: a segment ends before any later
    one starts. *)
Lemma run_ordered (events : list Inbound) (cursor : Q) :
  StronglySorted (fun s1 s2 => segmentEnd s1 <= fst s2) (timeline (run cursor events)).
Proof.
  revert cursor. induction events as [| e events IH]; intros cursor; [constructor |].
  cbn [run].
  pose proof (onAudioData_scheduled (ready e) (clock e) (payload e) cursor) as H.
  destruct (onAudioData (ready e) (clock e) (payload e) cursor) as [next effs].
  unfold timeline. cbn [flat_map effects]. fold (timeline (run next events)).
  destruct H as [(-> & _) | (b & _ & _ & -> & ->)]; [apply IH |].
  cbn [app]. constructor; [apply IH |].
  apply (run_starts_after events).
Qed.

Lemma StronglySorted_lookup {A} (R : A -> A -> Prop) (l : list A) :
  StronglySorted R l ->
  forall (i j : nat) (a b : A),
    (i < j)%nat -> l !! i = Some a -> l !! j = Some b -> R a b.
Proof.
  induction 1 as [| x l S IH F]; intros i j a b Hij Ha Hb; [discriminate |].
  destruct j as [| j]; [lia |]. cbn in Hb.
  destruct i as [| i]; cbn in Ha.
  - injection Ha as <-. rewrite Forall_forall in F. apply F.
    eapply list_elem_of_lookup_2, Hb.
  - apply (IH i j); [lia | assumption | assumption].
Qed.

(** A run is the handler applied to each event in turn, each call
    starting from the cursor the call before left. *)
Lemma run_calls (events : list Inbound) (cursor : Q) :
  map event (run cursor events) = events
  /\ Forall (fun c => onAudioData (ready (event c)) (clock (event c))
                        (payload (event c)) (before c)
                      = (after c, effects c)) (run cursor events)
  /\ (forall i c1 c2, run cursor events !! i = Some c1 ->
                      run cursor events !! S i = Some c2 ->
                      before c2 = after c1).
Proof.
  revert cursor. induction events as [| e events IH]; intros cursor.
  - repeat split; [constructor | intros i c1 c2 H; destruct i; discriminate].
  - cbn [run].
    destruct (onAudioData (ready e) (clock e) (payload e) cursor) as [next effs] eqn:E.
    destruct (IH next) as (M & F & C).
    split; [cbn; rewrite M; reflexivity |].
    split; [constructor; [exact E | exact F] |].
    intros [| i] c1 c2 H1 H2; cbn in H1, H2.
    + injection H1 as <-. cbn [after].
      destruct events as [| e' events]; [discriminate |].
      cbn [run] in H2.
      destruct (onAudioData (ready e') (clock e') (payload e') next).
      cbn in H2. injection H2 as <-. reflexivity.
    + apply (C i c1 c2 H1 H2).
Qed.

(** What a call with an output context and a payload that decodes does:
    it raises the speaking pulse and starts the decoded buffer at
    max(cursor, playback clock), and leaves the cursor at that start plus
    the duration of the buffer. *)
Lemma onAudioData_decoded (currentTime : Q) (raw : ArrayBuffer) (cursor : Q)
    (b : AudioBuffer) :
  decodePCMData raw = Some b ->
  onAudioData true currentTime raw cursor
  = (Qmax cursor currentTime + duration b,
     [SetAiSpeaking; Start (Qmax cursor currentTime) b]).
Proof.
  intros D. unfold onAudioData. cbn [negb]. rewrite D. reflexivity.
Qed.

(** C1: over every sequence of inbound audio events handed to the
    playback handler, the run starts from the given cursor and every call
    starts from the cursor the call before it left; every event that
    finds the output context and whose payload decodes is scheduled, as
    one segment that starts at max(cursor, playback clock), and the
    cursor is then that start plus the segment's duration; every other
    event schedules nothing; no call decreases the cursor; and in the
    order of scheduling every segment starts at or after the end (start
    plus duration) of the one before it, and of every earlier one, so no
    two segments overlap whatever the clock readings are. *)
Theorem schedule_never_overlaps (cursor : Q) (events : list Inbound) :
  let calls := run cursor events in
  map event calls = events
  /\ Forall (fun c =>
       onAudioData (ready (event c)) (clock (event c)) (payload (event c)) (before c)
       = (after c, effects c)) calls
  /\ (forall c, calls !! 0%nat = Some c -> before c = cursor)
  /\ (forall i c1 c2, calls !! i = Some c1 -> calls !! S i = Some c2 ->
                      before c2 = after c1)
  /\ Forall (fun c => forall b,
               ready (event c) = true ->
               decodePCMData (payload (event c)) = Some b ->
               scheduled (effects c) = [(Qmax (before c) (clock (event c)), b)]
               /\ after c = Qmax (before c) (clock (event c)) + duration b) calls
  /\ Forall (fun c =>
               ready (event c) = false \/ decodePCMData (payload (event c)) = None ->
               scheduled (effects c) = []) calls
  /\ Forall (fun c => forall w b, In (w, b) (scheduled (effects c)) ->
               w = Qmax (before c) (clock (event c))
               /\ after c = w + duration b
               /\ 0 < duration b) calls
  /\ Forall (fun c => before c <= after c) calls
  /\ (forall i s1 s2, timeline calls !! i = Some s1 -> timeline calls !! S i = Some s2 ->
                      fst s1 + duration (snd s1) <= fst s2)
  /\ (forall i j s1 s2, (i < j)%nat ->
                        timeline calls !! i = Some s1 -> timeline calls !! j = Some s2 ->
                        fst s1 + duration (snd s1) <= fst s2).
Proof.
  cbv zeta.
  destruct (run_calls events cursor) as (M & F & C).
  pose proof (StronglySorted_lookup _ _ (run_ordered events cursor)) as O.
  unfold segmentEnd in O.
  split; [exact M |]. split; [exact F |].
  split.
  { intros c H. destruct events as [| e events]; [discriminate |].
    cbn [run] in H.
    destruct (onAudioData (ready e) (clock e) (payload e) cursor).
    injection H as <-. reflexivity. }
  split; [exact C |].
  split.
  { eapply Forall_impl; [exact F |]. cbn beta. intros c E b R D.
    rewrite R, (onAudioData_decoded _ _ _ b D) in E.
    injection E as <- <-. split; reflexivity. }
  split.
  { eapply Forall_impl; [exact F |]. cbn beta. intros c E H.
    unfold onAudioData in E.
    destruct H as [R | D].
    - rewrite R in E. cbn [negb] in E. injection E as _ <-. reflexivity.
    - rewrite D in E. destruct (ready (event c)); cbn [negb] in E;
        injection E as _ <-; reflexivity. }
  split.
  { eapply Forall_impl; [exact F |]. cbn beta. intros c E w b I.
    pose proof (onAudioData_scheduled (ready (event c)) (clock (event c))
                  (payload (event c)) (before c)) as H.
    rewrite E in H.
    destruct H as [(N & _) | (b' & _ & D & S & A)].
    + rewrite N in I. destruct I.
    + rewrite S in I. destruct I as [[= <- <-] | []].
      split; [reflexivity |]. split; [exact A | apply (duration_decoded _ _ D)]. }
  split.
  { eapply Forall_impl; [exact F |]. cbn beta. intros c E.
    pose proof (onAudioData_monotone (ready (event c)) (clock (event c))
                  (payload (event c)) (before c)) as H.
    rewrite E in H. exact H. }
  split.
  - intros i s1 s2 H1 H2. apply (O i (S i)); [lia | exact H1 | exact H2].
  - exact O.
Qed.

(** A run on a jittery clock: two segments arriving together, then one
    late, then one while the queue is still playing. *)
Example schedule_jitter :
  map (fun s => (fst s, segmentEnd s))
      (timeline (run 0 [mkInbound true (1 # 10) [0; 0; 0; 0]%Z;
                        mkInbound true (1 # 10) [0; 0]%Z;
                        mkInbound true 2 [0; 0; 0; 0; 0; 0]%Z;
                        mkInbound true (3 # 2) [0; 0]%Z]))
  = [(1 # 10, (1 # 10) + (2 # 24000));
     ((1 # 10) + (2 # 24000), (1 # 10) + (2 # 24000) + (1 # 24000));
     (2, 2 + (3 # 24000));
     (2 + (3 # 24000), 2 + (3 # 24000) + (1 # 24000))].
Proof. reflexivity. Qed.

(** C7, as the code has it: a payload whose decode fails is dropped, with
    the error logged when the output context is there, and no segment is
    scheduled; the cursor is not advanced by any duration: the call leaves
    it at max(cursor, playback clock) (untouched without an output
    context), which is its value before the call whenever the clock has
    not passed it. *)
Theorem decode_failure_drops_segment (outputReady : bool) (currentTime : Q)
    (raw : ArrayBuffer) (cursor : Q) :
  decodePCMData raw = None ->
  let '(next, effs) := onAudioData outputReady currentTime raw cursor in
  scheduled effs = []
  /\ (outputReady = true -> In ConsoleError effs)
  /\ next = (if outputReady then Qmax cursor currentTime else cursor)
  /\ (currentTime <= cursor -> next = cursor).
Proof.
  intros D. unfold onAudioData. rewrite D.
  destruct outputReady; cbn [negb].
  - split; [reflexivity |]. split; [intros _; right; left; reflexivity |].
    split; [reflexivity |]. intros L.
    destruct (Qmax_cases cursor currentTime) as [[E _] | [E G]]; [exact E |].
    unfold Qmax, GenericMinMax.gmax in *.
    destruct (Qcompare_spec cursor currentTime) as [Q | Q | Q]; try reflexivity. lra.
  - split; [reflexivity |]. split; [intros [=] |].
    split; [reflexivity | intros _; reflexivity].
Qed.

Lemma decode_failure_drops_segment_witness :
  let '(next, effs) := onAudioData true 5 [1%Z] 7 in
  scheduled effs = []
  /\ (true = true -> In ConsoleError effs)
  /\ next = Qmax 7 5
  /\ (5 <= 7 -> next = 7).
Proof.
  apply (decode_failure_drops_segment true 5 [1%Z] 7). reflexivity.
Defined.

(** C7, as the spec words it, fails: with the cursor at 0 and the clock
    at 5, a one-byte payload fails to decode and leaves the cursor
    at 5. *)
Lemma decode_failure_moves_cursor :
  decodePCMData [1%Z] = None
  /\ fst (onAudioData true 5 [1%Z] 0) = 5
  /\ ~ fst (onAudioData true 5 [1%Z] 0) == 0.
Proof.
  split; [reflexivity |]. split; [reflexivity |].
  vm_compute. discriminate.
Qed.

(** A dropped segment does not disturb what follows: with a clock that
    does not run backwards, the next start time is what it would have
    been without the failed call. *)
Lemma dropped_segment_transparent (currentTime later : Q) (raw : ArrayBuffer)
    (cursor : Q) :
  decodePCMData raw = None -> currentTime <= later ->
  Qmax (fst (onAudioData true currentTime raw cursor)) later == Qmax cursor later.
Proof.
  intros D L. unfold onAudioData. rewrite D. cbn [negb fst].
  destruct (Qmax_cases cursor currentTime) as [[-> H] | [-> H]]; [reflexivity |].
  destruct (Qmax_cases currentTime later) as [[-> H1] | [-> H1]];
    destruct (Qmax_cases cursor later) as [[-> H2] | [-> H2]]; lra.
Qed.

End PlaybackFacts.

(** ** Speech-rate analyzer *)

Module SpeechRateFacts.
Import PCM Advisory SpeechRate.

(** Once the refractory check fails it fails for the rest of the scan:
    the scan leaves the data alone. *)
Lemma scan_blocked (now : Z) (rest : list Q) (prev : Q) (data : Data) :
  (now - lastPeakTime data <= minPeakDist)%Z -> scan now prev rest data = data.
Proof.
  intros B. revert prev. induction rest as [| x rest IH]; intros prev; [reflexivity |].
  cbn [scan]. unfold crossing.
  destruct (Z.ltb_spec minPeakDist (now - lastPeakTime data)) as [L | _]; [lia |].
  destruct (Qltb threshold x && Qle_bool prev threshold); apply IH.
Qed.

(** The scan counts one peak when the buffer has a rising edge and the
    last counted peak is more than 150 ms old, and none otherwise. *)
Lemma scan_spec (now : Z) (rest : list Q) (prev : Q) (data : Data) :
  scan now prev rest data
  = if (0 <? risingEdges prev rest)%nat && (minPeakDist <? now - lastPeakTime data)%Z
    then mkData (peaks data + 1) (startTime data) now
    else data.
Proof.
  revert prev. induction rest as [| x rest IH]; intros prev; [reflexivity |].
  cbn [scan risingEdges]. unfold crossing.
  destruct (Qltb threshold x && Qle_bool prev threshold).
  - destruct (Z.ltb_spec minPeakDist (now - lastPeakTime data)) as [L | G].
    + rewrite scan_blocked; [reflexivity |]. cbn. unfold minPeakDist. lia.
    + rewrite scan_blocked by exact G. rewrite andb_false_r. reflexivity.
  - rewrite IH. reflexivity.
Qed.

Lemma countPeaks_spec (now : Z) (inputData : Float32Array) (data : Data) :
  countPeaks now inputData data
  = if (0 <? edges inputData)%nat && (minPeakDist <? now - lastPeakTime data)%Z
    then mkData (peaks data + 1) (startTime data) now
    else data.
Proof.
  destruct inputData as [| x0 rest]; [reflexivity |]. apply scan_spec.
Qed.

(** C10: one invocation of the analyzer on one buffer raises the peak
    count by at most one, however many rising edges the buffer has: after
    the window block the count is what it was or 0, and the scan adds one
    exactly when the buffer has a rising edge and the last counted peak
    is more than 150 ms before this invocation's time, stamping that
    time; it adds nothing otherwise.  So a count that is not negative
    ends not negative and at most one higher. *)
Theorem one_peak_per_buffer (aiSpeaking : bool) (now : Z)
    (inputData : Float32Array) (data : Data) :
  let data1 := fst (window aiSpeaking now data) in
  let data2 := fst (analyzeSpeechRate aiSpeaking now inputData data) in
  (peaks data1 = peaks data \/ peaks data1 = 0%Z)
  /\ (peaks data2 = peaks data1 \/ peaks data2 = (peaks data1 + 1)%Z)
  /\ ((0 <= peaks data)%Z -> (0 <= peaks data2 <= peaks data + 1)%Z)
  /\ (peaks data2 = (peaks data1 + 1)%Z
      <-> ((0 < edges inputData)%nat /\ (minPeakDist < now - lastPeakTime data)%Z))
  /\ (peaks data2 = (peaks data1 + 1)%Z -> lastPeakTime data2 = now).
Proof.
  cbv zeta. unfold analyzeSpeechRate.
  assert (W : (peaks (window aiSpeaking now data).1 = peaks data
               \/ peaks (window aiSpeaking now data).1 = 0%Z)
              /\ lastPeakTime (window aiSpeaking now data).1 = lastPeakTime data).
  { unfold window. destruct (3000 <? now - startTime data)%Z; cbn; auto. }
  destruct (window aiSpeaking now data) as [data1 calls]. cbn [fst] in *.
  destruct W as [W1 W2]. rewrite countPeaks_spec, W2.
  split; [exact W1 |].
  destruct (Nat.ltb_spec 0 (edges inputData)) as [E | E];
    destruct (Z.ltb_spec minPeakDist (now - lastPeakTime data)) as [L | L];
    cbn [andb peaks lastPeakTime];
    (split; [auto |]); (split; [lia |]); (split; [| intros; try reflexivity; lia]);
    split; try tauto; try lia.
Qed.

(** A buffer that crosses the threshold three times counts one peak. *)
Example three_crossings_one_peak :
  edges [0; 1 # 2; 0; 1 # 2; 0; 1 # 2] = 3%nat
  /\ analyzeSpeechRate false 1000 [0; 1 # 2; 0; 1 # 2; 0; 1 # 2] (started 0)
     = (mkData 1 0 1000, []).
Proof. split; reflexivity. Qed.

(** The advisory calls of an invocation are those of its window
    block. *)
Lemma analyzeSpeechRate_calls (aiSpeaking : bool) (now : Z)
    (inputData : Float32Array) (data : Data) :
  snd (analyzeSpeechRate aiSpeaking now inputData data)
  = snd (window aiSpeaking now data).
Proof.
  unfold analyzeSpeechRate. destruct (window aiSpeaking now data). reflexivity.
Qed.

(** Before the window is over 3000 ms old the analyzer calls nothing and
    keeps the window. *)
Lemma window_open (aiSpeaking : bool) (now : Z) (data : Data) :
  (now - startTime data <= 3000)%Z -> window aiSpeaking now data = (data, []).
Proof.
  intros H. unfold window.
  destruct (Z.ltb_spec 3000 (now - startTime data)); [lia | reflexivity].
Qed.

(** The rate times the age of the window in ms is a thousand times the
    peak count, so a comparison of the rate with a constant is linear in
    the count and the age. *)
Lemma rate_bounds (now : Z) (data : Data) (c : Q) :
  (0 < now - startTime data)%Z ->
  let r := rate now data in
  let e := inject_Z (now - startTime data) in
  (r < c <-> inject_Z (peaks data) * 1000 < c * e)
  /\ (c < r <-> c * e < inject_Z (peaks data) * 1000).
Proof.
  intros H. cbv zeta. unfold rate.
  set (e := inject_Z (now - startTime data)).
  set (p := inject_Z (peaks data)).
  assert (He : 0 < e).
  { unfold e. change 0 with (inject_Z 0). rewrite <- Zlt_Qlt. exact H. }
  assert (E : p / (e / 1000) * e == p * 1000).
  { field. lra. }
  rewrite <- E.
  split; symmetry; apply Qmult_lt_r; exact He.
Qed.

(** The window block once the window is over. *)
Lemma window_closed (aiSpeaking : bool) (now : Z) (data : Data) :
  (3000 < now - startTime data)%Z ->
  window aiSpeaking now data
  = (mkData 0 now (lastPeakTime data), classify aiSpeaking now data).
Proof.
  intros H. unfold window.
  destruct (Z.ltb_spec 3000 (now - startTime data)); [reflexivity | lia].
Qed.

Lemma classify_cases (aiSpeaking : bool) (now : Z) (data : Data) :
  let calls := classify aiSpeaking now data in
  calls = [tooFast] \/ calls = [uncertain] \/ calls = [].
Proof.
  cbv zeta. unfold classify.
  destruct ((2 <? peaks data)%Z && negb aiSpeaking); [| auto].
  destruct (Qltb (9 # 2) (rate now data)); [auto |].
  destruct (Qltb (rate now data) (3 # 2)); auto.
Qed.

Lemma classify_tooFast (aiSpeaking : bool) (now : Z) (data : Data) :
  classify aiSpeaking now data = [tooFast]
  <-> (2 < peaks data)%Z /\ aiSpeaking = false /\ 9 # 2 < rate now data.
Proof.
  unfold classify. rewrite <- Qltb_lt, <- Z.ltb_lt.
  destruct (2 <? peaks data)%Z, aiSpeaking; cbn [andb negb];
    try (split; [discriminate | intros (A & B & C); discriminate]).
  destruct (Qltb (9 # 2) (rate now data)); [tauto |].
  split; [| intros (A & B & C); discriminate].
  destruct (Qltb (rate now data) (3 # 2)); discriminate.
Qed.

Lemma classify_uncertain (aiSpeaking : bool) (now : Z) (data : Data) :
  classify aiSpeaking now data = [uncertain]
  <-> (2 < peaks data)%Z /\ aiSpeaking = false /\ rate now data < 3 # 2.
Proof.
  unfold classify. rewrite <- (Qltb_lt (rate now data)), <- Z.ltb_lt.
  destruct (2 <? peaks data)%Z, aiSpeaking; cbn [andb negb];
    try (split; [discriminate | intros (A & B & C); discriminate]).
  destruct (Qltb (9 # 2) (rate now data)) eqn:F.
  - split; [discriminate |]. intros (_ & _ & S).
    apply Qltb_lt in F, S. lra.
  - destruct (Qltb (rate now data) (3 # 2)); [tauto |].
    split; [discriminate | intros (A & B & C); discriminate].
Qed.

(** The window block for any value of the AI-speaking flag the analyzer
    reads: when the window is more than 3000 ms old, the analyzer calls
    for the "too fast" advisory exactly when peakCount > 2, the flag is
    off and rate > 4.5, for the "uncertain" advisory exactly when
    peakCount > 2, the flag is off and rate < 1.5, and for nothing
    otherwise; the window is reset, after which the scan of this buffer
    counts at most one peak. *)
Lemma window_block (aiSpeaking : bool) (now : Z)
    (inputData : Float32Array) (data : Data) :
  (3000 < now - startTime data)%Z ->
  let r := rate now data in
  let calls := snd (analyzeSpeechRate aiSpeaking now inputData data) in
  let data1 := fst (window aiSpeaking now data) in
  let data2 := fst (analyzeSpeechRate aiSpeaking now inputData data) in
  (calls = [tooFast] <-> (2 < peaks data)%Z /\ aiSpeaking = false /\ 9 # 2 < r)
  /\ (calls = [uncertain] <-> (2 < peaks data)%Z /\ aiSpeaking = false /\ r < 3 # 2)
  /\ (calls = [tooFast] \/ calls = [uncertain] \/ calls = [])
  /\ data1 = mkData 0 now (lastPeakTime data)
  /\ startTime data2 = now
  /\ (peaks data2 = 0%Z \/ peaks data2 = 1%Z)
  /\ (peaks data = 10%Z -> (now - startTime data <= 6666)%Z -> calls = [])
  /\ (peaks data = 20%Z -> (now - startTime data <= 4444)%Z -> aiSpeaking = false ->
      calls = [tooFast]).
Proof.
  intros H. cbv zeta.
  rewrite analyzeSpeechRate_calls.
  unfold analyzeSpeechRate. rewrite (window_closed aiSpeaking now data H).
  cbn [fst snd]. rewrite countPeaks_spec. cbn [peaks startTime lastPeakTime].
  assert (Hpos : (0 < now - startTime data)%Z) by lia.
  assert (He : 3000 < inject_Z (now - startTime data)).
  { change 3000 with (inject_Z 3000). rewrite <- Zlt_Qlt. exact H. }
  destruct (rate_bounds now data (9 # 2) Hpos) as [_ Fast].
  destruct (rate_bounds now data (3 # 2) Hpos) as [Slow _].
  split; [apply classify_tooFast |].
  split; [apply classify_uncertain |].
  split; [apply classify_cases |].
  split; [reflexivity |].
  split; [destruct (_ && _); reflexivity |].
  split; [destruct (_ && _); auto |].
  split.
  - intros Ten Age.
    assert (A : inject_Z (now - startTime data) <= 6666).
    { change 6666 with (inject_Z 6666). rewrite <- Zle_Qle. exact Age. }
    rewrite Ten in Fast, Slow. change (inject_Z 10) with 10 in Fast, Slow.
    destruct (classify_cases aiSpeaking now data) as [C | [C | C]]; [| | exact C].
    + apply classify_tooFast in C. destruct C as (_ & _ & C). apply Fast in C. lra.
    + apply classify_uncertain in C. destruct C as (_ & _ & C). apply Slow in C. lra.
  - intros Twenty Age Off.
    assert (A : inject_Z (now - startTime data) <= 4444).
    { change 4444 with (inject_Z 4444). rewrite <- Zle_Qle. exact Age. }
    apply classify_tooFast. split; [lia |]. split; [exact Off |].
    apply Fast. rewrite Twenty. change (inject_Z 20) with 20. lra.
Qed.

(** C4: while the AI is not speaking, that is with the AI-speaking flag
    the analyzer reads off (the flag of the render that created the
    capture callback is), whenever the analyzer processes a buffer and the
    window is more than 3000 ms old, with rate = peakCount /
    elapsedSeconds, it calls for the "too fast" advisory exactly when
    peakCount > 2 and rate > 4.5, for the "uncertain" advisory exactly
    when peakCount > 2 and rate < 1.5, and for nothing otherwise; it then
    resets the window (peakCount = 0, windowStartTime = now), after which
    the scan of this buffer counts at most one peak.  In particular 10
    peaks in a window between 3000 and 6666 ms old call for nothing, and
    20 peaks in a window between 3000 and 4444 ms old call once for
    "too fast". *)
Theorem window_classification (now : Z) (inputData : Float32Array) (data : Data) :
  (3000 < now - startTime data)%Z ->
  let r := inject_Z (peaks data) / (inject_Z (now - startTime data) / 1000) in
  let calls := snd (analyzeSpeechRate false now inputData data) in
  let data1 := fst (window false now data) in
  let data2 := fst (analyzeSpeechRate false now inputData data) in
  (calls = [tooFast] <-> (2 < peaks data)%Z /\ 9 # 2 < r)
  /\ (calls = [uncertain] <-> (2 < peaks data)%Z /\ r < 3 # 2)
  /\ (calls = [tooFast] \/ calls = [uncertain] \/ calls = [])
  /\ data1 = mkData 0 now (lastPeakTime data)
  /\ startTime data2 = now
  /\ (peaks data2 = 0%Z \/ peaks data2 = 1%Z)
  /\ (peaks data = 10%Z -> (now - startTime data <= 6666)%Z -> calls = [])
  /\ (peaks data = 20%Z -> (now - startTime data <= 4444)%Z -> calls = [tooFast]).
Proof.
  intros H. cbv zeta.
  destruct (window_block false now inputData data H)
    as (Fast & Slow & Cases & Reset & Start & Count & Ten & Twenty).
  fold (rate now data).
  split; [rewrite Fast; tauto |].
  split; [rewrite Slow; tauto |].
  split; [exact Cases |]. split; [exact Reset |]. split; [exact Start |].
  split; [exact Count |]. split; [exact Ten |].
  intros P A. apply Twenty; auto.
Qed.

Lemma window_classification_witness :
  let data := mkData 20 0 2869 in
  let r := inject_Z (peaks data) / (inject_Z (3001 - startTime data) / 1000) in
  let calls := snd (analyzeSpeechRate false 3001 [0; 1 # 2] data) in
  let data1 := fst (window false 3001 data) in
  let data2 := fst (analyzeSpeechRate false 3001 [0; 1 # 2] data) in
  (calls = [tooFast] <-> (2 < peaks data)%Z /\ 9 # 2 < r)
  /\ (calls = [uncertain] <-> (2 < peaks data)%Z /\ r < 3 # 2)
  /\ (calls = [tooFast] \/ calls = [uncertain] \/ calls = [])
  /\ data1 = mkData 0 3001 (lastPeakTime data)
  /\ startTime data2 = 3001%Z
  /\ (peaks data2 = 0%Z \/ peaks data2 = 1%Z)
  /\ (peaks data = 10%Z -> (3001 - startTime data <= 6666)%Z -> calls = [])
  /\ (peaks data = 20%Z -> (3001 - startTime data <= 4444)%Z -> calls = [tooFast]).
Proof.
  apply (window_classification 3001 [0; 1 # 2] (mkData 20 0 2869)).
  reflexivity.
Defined.

(** With the flag on the analyzer calls for nothing, whatever the count
    and the rate are, and resets the window all the same: here with 20
    peaks in a window 3001 ms old. *)
Example speaking_flag_silences_trigger :
  let data := mkData 20 0 2869 in
  (3000 < 3001 - startTime data)%Z
  /\ (2 < peaks data)%Z
  /\ 9 # 2 < rate 3001 data
  /\ analyzeSpeechRate true 3001 [0; 1 # 2] data = (mkData 0 3001 2869, []).
Proof.
  cbv zeta. repeat split.
Qed.

(** Ten peaks evenly spread over the three seconds after a session start
    at t = 1000000 ms: the buffer that closes the window calls for
    nothing. *)
Example ten_peaks_no_trigger :
  fst (analyzeAll (pulsesAt [1000000; 1000300; 1000600; 1000900; 1001200; 1001500;
                             1001800; 1002100; 1002400; 1002700]%Z)
                  (started 1000000))
  = mkData 10 1000000 1002700
  /\ analyzeAll (pulsesAt [1000000; 1000300; 1000600; 1000900; 1001200; 1001500;
                           1001800; 1002100; 1002400; 1002700; 1003001]%Z)
                (started 1000000)
     = (mkData 1 1003001 1003001, [[]; []; []; []; []; []; []; []; []; []; []]).
Proof. split; reflexivity. Qed.

(** Twenty peaks in those three seconds: the buffer that closes the
    window calls once for "too fast", and the next window starts
    afresh. *)
Example twenty_peaks_too_fast :
  fst (analyzeAll
         (pulsesAt [1000000; 1000151; 1000302; 1000453; 1000604; 1000755; 1000906;
                    1001057; 1001208; 1001359; 1001510; 1001661; 1001812; 1001963;
                    1002114; 1002265; 1002416; 1002567; 1002718; 1002869]%Z)
         (started 1000000))
  = mkData 20 1000000 1002869
  /\ analyzeAll
       (pulsesAt [1000000; 1000151; 1000302; 1000453; 1000604; 1000755; 1000906;
                  1001057; 1001208; 1001359; 1001510; 1001661; 1001812; 1001963;
                  1002114; 1002265; 1002416; 1002567; 1002718; 1002869; 1003001;
                  1003200]%Z)
       (started 1000000)
     = (mkData 1 1003001 1003200,
        [[]; []; []; []; []; []; []; []; []; []; []; []; []; []; []; []; []; []; [];
         []; [tooFast]; []]).
Proof. split; reflexivity. Qed.

End SpeechRateFacts.

(** ** Nudge advisory manager *)

Module AdvisoryFacts.
Import Advisory.

Lemma addNudge_rejected (nudges : list Nudge) (now : Z) (rnd : string)
    (type : NudgeType) (message : string) (st : State) :
  admits nudges now type st = false ->
  addNudge nudges now rnd type message st = st.
Proof.
  unfold admits, addNudge.
  destruct (0 <? Z.of_nat (length nudges))%Z; [reflexivity |].
  destruct (now - default 0%Z (lastNudgeTime st !! type) <? NUDGE_COOLDOWN)%Z;
    [reflexivity | discriminate].
Qed.

Lemma addNudge_admitted (nudges : list Nudge) (now : Z) (rnd : string)
    (type : NudgeType) (message : string) (st : State) :
  admits nudges now type st = true ->
  addNudge nudges now rnd type message st
  = mkState [mkNudge rnd type message now]
            (<[type := now]> (lastNudgeTime st))
            (timers st ++ [((now + NUDGE_DISPLAY_TIME)%Z, rnd)]).
Proof.
  unfold admits, addNudge.
  destruct (0 <? Z.of_nat (length nudges))%Z; [discriminate |].
  destruct (now - default 0%Z (lastNudgeTime st !! type) <? NUDGE_COOLDOWN)%Z;
    [discriminate | reflexivity].
Qed.

(** The two guards, spelled out. *)
Lemma admits_iff (nudges : list Nudge) (now : Z) (type : NudgeType) (st : State) :
  admits nudges now type st = true
  <-> nudges = []
      /\ (NUDGE_COOLDOWN <= now - default 0 (lastNudgeTime st !! type))%Z.
Proof.
  unfold admits. rewrite andb_true_iff, !negb_true_iff, Z.ltb_ge, Z.ltb_ge.
  split; intros [A B]; (split; [| exact B]).
  - destruct nudges; [reflexivity | cbn in A; lia].
  - subst nudges. cbn. lia.
Qed.

(** The state cell never holds more than one nudge. *)
Lemma addNudge_at_most_one nudges now rnd type message st :
  (length (nudgeCell st) <= 1)%nat ->
  (length (nudgeCell (addNudge nudges now rnd type message st)) <= 1)%nat.
Proof.
  intros H. destruct (admits nudges now type st) eqn:A.
  - rewrite addNudge_admitted by exact A. cbn. lia.
  - rewrite addNudge_rejected by exact A. exact H.
Qed.

Lemma removeNudge_at_most_one nid st :
  (length (nudgeCell st) <= 1)%nat ->
  (length (nudgeCell (removeNudge nid st)) <= 1)%nat.
Proof.
  intros H. unfold removeNudge. cbn [nudgeCell].
  pose proof (length_filter (fun n => id n <> nid) (nudgeCell st)). lia.
Qed.

Lemma run_at_most_one (actions : list Action) (st : State) :
  (length (nudgeCell st) <= 1)%nat ->
  (length (nudgeCell (run st actions)) <= 1)%nat.
Proof.
  revert st. induction actions as [| a actions IH]; intros st H; [exact H |].
  cbn [run fold_left]. apply IH.
  destruct a; cbn [step]; [apply addNudge_at_most_one | apply removeNudge_at_most_one];
    exact H.
Qed.


(** C6: with lastFired[C] the ledger entry of category C (0 while C has
    not fired), a trigger for C arriving while now - lastFired[C] < 30000
    is rejected, whatever the call sees of the active set; a trigger
    arriving when the call sees no active advisory and now - lastFired[C]
    >= 30000 is admitted and sets lastFired[C] to the admission time; so
    of two triggers of one category less than 30000 ms apart only the
    first is admitted, and a repeat 30000 ms or more after an admission
    is admitted. *)
Theorem cooldown_per_category (type : NudgeType) (st : State) :
  let lastFired := fun s : State => default 0%Z (lastNudgeTime s !! type) in
  (forall nudges now rnd message,
      (now - lastFired st < 30000)%Z ->
      addNudge nudges now rnd type message st = st)
  /\ (forall now rnd message,
      (30000 <= now - lastFired st)%Z ->
      let st' := addNudge [] now rnd type message st in
      nudgeCell st' = [mkNudge rnd type message now]
      /\ lastNudgeTime st' !! type = Some now
      /\ lastFired st' = now)
  /\ (forall nudges1 t1 rnd1 m1,
      admits nudges1 t1 type st = true ->
      let st1 := addNudge nudges1 t1 rnd1 type m1 st in
      nudgeCell st1 = [mkNudge rnd1 type m1 t1]
      /\ lastFired st1 = t1
      /\ (forall nudges2 t2 rnd2 m2,
            (t2 - t1 < 30000)%Z ->
            addNudge nudges2 t2 rnd2 type m2 st1 = st1)
      /\ (forall t2 rnd2 m2,
            (30000 <= t2 - t1)%Z ->
            let st2 := addNudge [] t2 rnd2 type m2 st1 in
            nudgeCell st2 = [mkNudge rnd2 type m2 t2] /\ lastFired st2 = t2)).
Proof.
  cbv zeta.
  assert (Reject : forall s nudges now rnd message,
             (now - default 0 (lastNudgeTime s !! type) < 30000)%Z ->
             addNudge nudges now rnd type message s = s).
  { intros s nudges now rnd message H. apply addNudge_rejected.
    unfold admits. apply andb_false_iff. right.
    apply negb_false_iff, Z.ltb_lt. exact H. }
  assert (Admit : forall s now rnd message,
             (30000 <= now - default 0 (lastNudgeTime s !! type))%Z ->
             addNudge [] now rnd type message s
             = mkState [mkNudge rnd type message now]
                       (<[type := now]> (lastNudgeTime s))
                       (timers s ++ [((now + NUDGE_DISPLAY_TIME)%Z, rnd)])).
  { intros s now rnd message H. apply addNudge_admitted, admits_iff.
    split; [reflexivity | exact H]. }
  split; [apply Reject |].
  split.
  - intros now rnd message H. rewrite (Admit st now rnd message H).
    cbn [nudgeCell lastNudgeTime]. rewrite lookup_insert_eq. auto.
  - intros nudges1 t1 rnd1 m1 A.
    rewrite (addNudge_admitted _ _ rnd1 _ m1 _ A).
    cbn [nudgeCell lastNudgeTime].
    split; [reflexivity |]. split; [rewrite lookup_insert_eq; reflexivity |].
    split.
    + intros nudges2 t2 rnd2 m2 H. apply Reject.
      cbn [lastNudgeTime]. rewrite lookup_insert_eq. exact H.
    + intros t2 rnd2 m2 H. rewrite Admit.
      * cbn [nudgeCell lastNudgeTime]. rewrite lookup_insert_eq. auto.
      * cbn [lastNudgeTime]. rewrite lookup_insert_eq. exact H.
Qed.

(** The instance of the cooldown rule at the session's first audio
    advisory, admitted at t = 1700000000000 ms. *)
Lemma cooldown_per_category_witness :
  let t1 := 1700000000000%Z in
  let st1 := addNudge [] t1 "0.25" audio "Speaking too fast. Breathe." initial in
  admits [] t1 audio initial = true
  /\ addNudge [] (t1 + 29999) "0.5" audio "Speaking too fast. Breathe." st1 = st1
  /\ nudgeCell (addNudge [] (t1 + 30000) "0.5" audio "Speaking too fast. Breathe." st1)
     = [mkNudge "0.5" audio "Speaking too fast. Breathe." (t1 + 30000)].
Proof.
  cbv zeta.
  destruct (cooldown_per_category audio initial) as (_ & _ & Twice).
  assert (A : admits [] 1700000000000 audio initial = true) by reflexivity.
  destruct (Twice [] 1700000000000%Z "0.25" "Speaking too fast. Breathe." A)
    as (_ & _ & Within & After).
  split; [exact A |]. split.
  - apply Within. lia.
  - apply After. lia.
Defined.




(** The two calls of one tick of the polling loop that reports both an
    eye-contact and a posture issue, as lines 281-282 are written: both
    go through the one closure, and the second replaces the first. *)
Example same_tick_second_replaces_first :
  let now := 1700000000000%Z in
  let both := mkVisionResult true true "" in
  let st := tickNudges (render initial) now "0.25" now "0.75" both initial in
  nudgeCell st = [mkNudge "0.75" posture "Check your posture." now]
  /\ timers st = [((now + 5000)%Z, "0.25"); ((now + 5000)%Z, "0.75")].
Proof. cbv zeta. split; vm_compute; reflexivity. Qed.

(** The same through any closure that captured an empty [nudges]: a
    trigger of another category is admitted over a nudge that is still
    active, and replaces it. *)
Lemma stale_closure_admits_over_active (now1 now2 : Z) (rnd1 rnd2 m1 m2 : string)
    (t1 t2 : NudgeType) (st : State) :
  t1 <> t2 ->
  admits [] now1 t1 st = true -> admits [] now2 t2 st = true ->
  let st1 := addNudge [] now1 rnd1 t1 m1 st in
  let st2 := addNudge [] now2 rnd2 t2 m2 st1 in
  nudgeCell st1 = [mkNudge rnd1 t1 m1 now1]
  /\ nudgeCell st2 = [mkNudge rnd2 t2 m2 now2].
Proof.
  intros Ne A1 A2. cbv zeta.
  rewrite (addNudge_admitted _ _ rnd1 _ m1 _ A1).
  split; [reflexivity |].
  rewrite addNudge_admitted; [reflexivity |].
  apply admits_iff. apply admits_iff in A2. destruct A2 as [_ A2].
  split; [reflexivity |]. cbn [lastNudgeTime].
  rewrite lookup_insert_ne by exact Ne. exact A2.
Qed.

End AdvisoryFacts.

(** ** Visual analyzer *)

Module VisionFacts.
Import Advisory Vision.

Section Guard.

Context {Video : Type}.
Variable models : Landmarkers Video.

(** A call that does not get past the guards returns null, runs no
    detection and leaves the service as it was. *)
Lemma analyze_rejected (s : Service) (video : Video) (timestamp : Q) :
  accepts s timestamp = false -> analyze models s video timestamp = (None, s, []).
Proof.
  unfold accepts, analyze.
  destruct (isInitialized s), (faceLandmarker s), (poseLandmarker s);
    cbn [andb negb orb]; try reflexivity.
  destruct (Qle_bool timestamp (lastTimestamp s) || Qle_bool timestamp 0);
    [reflexivity | discriminate].
Qed.

(** A call that gets past the guards stores its timestamp and runs the
    face detection first. *)
Lemma analyze_accepted (s : Service) (video : Video) (timestamp : Q) :
  accepts s timestamp = true ->
  let '(_, s', calls) := analyze models s video timestamp in
  lastTimestamp s' = timestamp /\ hd_error calls = Some (FaceDetect timestamp).
Proof.
  unfold accepts, analyze.
  destruct (isInitialized s), (faceLandmarker s), (poseLandmarker s);
    cbn [andb negb orb]; try discriminate.
  destruct (Qle_bool timestamp (lastTimestamp s) || Qle_bool timestamp 0);
    [discriminate |]. intros _. unfold detect.
  destruct (detectFace models video timestamp) as [face |]; [| split; reflexivity].
  destruct (detectPose models video timestamp) as [pose |]; [| split; reflexivity].
  destruct (shoulderIssue pose) as [[issue msg] |]; split; reflexivity.
Qed.

(** Over a sequence of calls the stored timestamp is the latest one
    that got past the guards, or the one stored before. *)
Lemma analyzeAll_lastTimestamp (frames : list (Video * Q)) (s : Service) :
  lastTimestamp (fst (analyzeAll models s frames))
  = hd (lastTimestamp s) (snd (analyzeAll models s frames)).
Proof.
  revert s. induction frames as [| [video timestamp] frames IH]; intros s;
    [reflexivity |].
  cbn [analyzeAll].
  specialize (IH (analyze models s video timestamp).1.2).
  destruct (analyzeAll models (analyze models s video timestamp).1.2 frames) as [s2 accepted].
  cbn [fst snd] in *. rewrite IH.
  destruct (accepts s timestamp) eqn:A.
  - pose proof (analyze_accepted s video timestamp A) as H.
    destruct (analyze models s video timestamp) as [[r s1] calls]. cbn [fst snd].
    destruct H as [-> _]. destruct accepted; reflexivity.
  - rewrite (analyze_rejected s video timestamp A). cbn [fst snd].
    rewrite app_nil_r. reflexivity.
Qed.

(** C8: after any sequence of calls, a call of [analyze] with a
    timestamp less than or equal to the previously accepted one (the
    latest that got past the guard, or the stored one when none did),
    or with a non-positive timestamp, returns null, runs no landmark
    detection and leaves the service unchanged, frame counters
    included. *)
Theorem timestamp_guard (s : Service) (frames : list (Video * Q))
    (video : Video) (timestamp : Q) :
  timestamp <= hd (lastTimestamp s) (snd (analyzeAll models s frames)) \/ timestamp <= 0 ->
  let s' := fst (analyzeAll models s frames) in
  analyze models s' video timestamp = (None, s', [])
  /\ totalFrames (analyze models s' video timestamp).1.2 = totalFrames s'
  /\ eyeContactFrames (analyze models s' video timestamp).1.2 = eyeContactFrames s'
  /\ goodPostureFrames (analyze models s' video timestamp).1.2 = goodPostureFrames s'.
Proof.
  intros H. cbv zeta. rewrite <- analyzeAll_lastTimestamp in H.
  assert (R : analyze models (fst (analyzeAll models s frames)) video timestamp
              = (None, fst (analyzeAll models s frames), [])).
  { apply analyze_rejected. unfold accepts.
    rewrite !andb_false_iff, negb_false_iff, orb_true_iff, !Qle_bool_iff. auto. }
  rewrite R. auto.
Qed.

End Guard.

Lemma timestamp_guard_witness :
  let s' := fst (analyzeAll calm loaded [(tt, 100)]) in
  analyze calm s' tt 100 = (None, s', [])
  /\ totalFrames (analyze calm s' tt 100).1.2 = totalFrames s'
  /\ eyeContactFrames (analyze calm s' tt 100).1.2 = eyeContactFrames s'
  /\ goodPostureFrames (analyze calm s' tt 100).1.2 = goodPostureFrames s'.
Proof.
  apply (timestamp_guard calm loaded [(tt, 100)] tt 100).
  left. vm_compute. discriminate.
Defined.

(** An accepted frame runs both detections and is counted; the same
    timestamp again, an older one and zero are turned away. *)
Example analyze_then_repeat :
  analyze calm loaded tt 100
  = (Some (mkVisionResult false false ""),
     mkService true true true 100 1 1 1,
     [FaceDetect 100; PoseDetect 100])
  /\ snd (analyzeAll calm loaded
            [(tt, 100); (tt, 100); (tt, 50); (tt, 0); (tt, 200)])
     = [200; 100].
Proof. split; reflexivity. Qed.

End VisionFacts.

(** ** Report screen *)

Module ReportFacts.
Import Report.


(** A report with a property missing does not. *)
Example empty_object_does_not_conform : conforms REPORT_JSON_SCHEMA (JObj []) = false.
Proof. vm_compute. reflexivity. Qed.

Section Generate.

Variable platform : Platform.



End Generate.


Example report_fallback_rejected :
  view (finished (generate rejecting []
                    (mkUserConfig "Engineer" "" 15 PRACTICE) mounted))
  = Result fallbackReport.
Proof. reflexivity. Qed.

End ReportFacts.

(** ** PCM conversions: ranges, order and composition *)

Module CodecFacts.
Import PCM.

Ltac over_32768 :=
  unfold Qdiv in *; change (/ 32768)%Q with (1 # 32768)%Q in *.

Lemma Qfloor_unique (q : Q) (n : Z) :
  inject_Z n <= q -> q < inject_Z n + 1 -> Qfloor q = n.
Proof.
  intros L U.
  pose proof (Qfloor_le q) as A. pose proof (Qlt_floor q) as B.
  rewrite inject_Z_plus in B. change (inject_Z 1) with 1 in B.
  apply Z.le_antisymm.
  - apply Z.lt_succ_r. rewrite Zlt_Qlt. unfold Z.succ.
    rewrite inject_Z_plus. change (inject_Z 1) with 1. lra.
  - apply Z.lt_succ_r. rewrite Zlt_Qlt. unfold Z.succ.
    rewrite inject_Z_plus. change (inject_Z 1) with 1. lra.
Qed.

Lemma truncate_Z (v : Z) : truncate (inject_Z v) = v.
Proof.
  unfold truncate. destruct (Qle_bool 0 (inject_Z v)); [apply Qfloor_Z | apply Qceiling_Z].
Qed.

(** Truncation keeps the order. *)
Lemma truncate_monotone (x y : Q) : x <= y -> (truncate x <= truncate y)%Z.
Proof.
  intros H.
  destruct (Qlt_le_dec x 0) as [Nx | Px], (Qlt_le_dec y 0) as [Ny | Py].
  - unfold truncate. apply Qle_bool_gt in Nx, Ny. rewrite Nx, Ny.
    apply Qceiling_resp_le, H.
  - destruct (truncate_neg x Nx) as [_ A], (truncate_nonneg y Py) as [_ B].
    assert (Tx : (truncate x < 1)%Z).
    { rewrite Zlt_Qlt. change (inject_Z 1) with 1. lra. }
    assert (Ty : (-1 < truncate y)%Z).
    { rewrite Zlt_Qlt. change (inject_Z (-1)) with (-1 # 1). lra. }
    lia.
  - lra.
  - unfold truncate. apply Qle_bool_iff in Px, Py. rewrite Px, Py.
    apply Qfloor_resp_le, H.
Qed.

(** The clamp keeps the order and stays in [[-1, 1]]. *)
Lemma clamp_range (x : Q) : -1 <= clamp x <= 1.
Proof.
  unfold clamp.
  destruct (Qmax_cases (-1) (Qmin 1 x)) as [[E' H'] | [E' H']]; rewrite E';
    destruct (Qmin_cases 1 x) as [[E H] | [E H]]; rewrite E in *; lra.
Qed.

Lemma clamp_monotone (x y : Q) : x <= y -> clamp x <= clamp y.
Proof.
  intros H. unfold clamp.
  destruct (Qmax_cases (-1) (Qmin 1 x)) as [[E1 H1] | [E1 H1]]; rewrite E1;
    destruct (Qmax_cases (-1) (Qmin 1 y)) as [[E2 H2] | [E2 H2]]; rewrite E2;
    destruct (Qmin_cases 1 x) as [[E3 H3] | [E3 H3]]; rewrite E3 in *;
    destruct (Qmin_cases 1 y) as [[E4 H4] | [E4 H4]]; rewrite E4 in *; lra.
Qed.

Lemma clamp_high (x : Q) : 1 <= x -> clamp x == 1.
Proof.
  intros H. unfold clamp.
  destruct (Qmax_cases (-1) (Qmin 1 x)) as [[E' H'] | [E' H']]; rewrite E';
    destruct (Qmin_cases 1 x) as [[E H1] | [E H1]]; rewrite E in *; lra.
Qed.

Lemma clamp_low (x : Q) : x <= -1 -> clamp x == -1.
Proof.
  intros H. unfold clamp.
  destruct (Qmax_cases (-1) (Qmin 1 x)) as [[E' H'] | [E' H']]; rewrite E';
    destruct (Qmin_cases 1 x) as [[E H1] | [E H1]]; rewrite E in *; lra.
Qed.

(** The integer [floatTo16BitPCM] writes for a sample, without the
    wrap-around of [ToInt16], which never applies. *)
Lemma encodeSample_truncate (x : Q) :
  encodeSample x
  = truncate (if Qltb (clamp x) 0 then clamp x * 32768 else clamp x * 32767).
Proof.
  unfold encodeSample. cbv zeta. apply ToInt16_in_range.
  pose proof (clamp_range x) as [L U].
  assert (B : forall e : Q, -32768 <= e -> e <= 32767 ->
                (-32768 <= truncate e <= 32767)%Z).
  { intros e Lo Hi.
    pose proof (truncate_monotone (inject_Z (-32768)) e) as A1.
    pose proof (truncate_monotone e (inject_Z 32767)) as A2.
    rewrite truncate_Z in A1, A2. split; [apply A1 | apply A2]; exact Lo || exact Hi. }
  destruct (Qltb (clamp x) 0) eqn:S.
  - apply Qltb_lt in S. apply B; lra.
  - apply Qltb_ge in S. apply B; lra.
Qed.

(** X1: [floatTo16BitPCM] keeps the order of samples and saturates: a
    larger sample never gets a smaller integer, every sample at or above
    1 gets 32767 and every sample at or below -1 gets -32768, so no sample
    wraps around. *)
Theorem encodeSample_monotone (x y : Q) :
  x <= y ->
  (encodeSample x <= encodeSample y)%Z
  /\ (1 <= y -> encodeSample y = 32767%Z)
  /\ (x <= -1 -> encodeSample x = (-32768)%Z).
Proof.
  intros H. rewrite !encodeSample_truncate.
  pose proof (clamp_monotone x y H) as M.
  pose proof (clamp_range x) as [Lx Ux]. pose proof (clamp_range y) as [Ly Uy].
  split; [| split].
  - destruct (Qltb (clamp x) 0) eqn:Sx, (Qltb (clamp y) 0) eqn:Sy;
      try apply Qltb_lt in Sx; try apply Qltb_ge in Sx;
      try apply Qltb_lt in Sy; try apply Qltb_ge in Sy;
      apply truncate_monotone; lra.
  - intros Hy. pose proof (clamp_high y Hy) as E.
    assert (S : Qltb (clamp y) 0 = false) by (apply Qltb_ge; lra).
    rewrite S, (PCMFacts.truncate_comp (clamp y * 32767) (inject_Z 32767)).
    + apply truncate_Z.
    + rewrite E. reflexivity.
  - intros Hx. pose proof (clamp_low x Hx) as E.
    assert (S : Qltb (clamp x) 0 = true) by (apply Qltb_lt; lra).
    rewrite S, (PCMFacts.truncate_comp (clamp x * 32768) (inject_Z (-32768))).
    + apply truncate_Z.
    + rewrite E. reflexivity.
Qed.

Lemma encodeSample_monotone_witness :
  (encodeSample (-3) <= encodeSample (5 # 2))%Z
  /\ (1 <= 5 # 2 -> encodeSample (5 # 2) = 32767%Z)
  /\ (-3 <= -1 -> encodeSample (-3) = (-32768)%Z).
Proof.
  apply (encodeSample_monotone (-3) (5 # 2)). vm_compute. discriminate.
Defined.

(** The sample a 16-bit integer decodes to. *)
Lemma decoded_inside (v : Z) :
  (-32768 <= v <= 32767)%Z ->
  -1 <= inject_Z v / 32768 /\ inject_Z v / 32768 < 1.
Proof.
  intros [L U]. rewrite Zle_Qle in L. rewrite Zle_Qle in U.
  change (inject_Z (-32768)) with (-32768 # 1) in L.
  change (inject_Z 32767) with 32767 in U.
  over_32768. split; lra.
Qed.

(** X2: decoding and encoding again with [floatTo16BitPCM] is exact on
    integers at or below zero and loses one step on every positive
    integer: the sample decoded from v > 0 is written back as v - 1. *)
Theorem reencode_loses_a_step (v : Z) :
  (-32768 <= v <= 32767)%Z ->
  encodeSample (inject_Z v / 32768) = (if 0 <? v then v - 1 else v)%Z.
Proof.
  intros R. destruct (decoded_inside v R) as [L U].
  rewrite encodeSample_truncate.
  assert (E : clamp (inject_Z v / 32768) == inject_Z v / 32768)
    by (apply PCMFacts.clamp_inside; lra).
  destruct (Z.ltb_spec 0 v) as [P | N].
  - assert (Pq : 0 < inject_Z v).
    { change 0 with (inject_Z 0). rewrite <- Zlt_Qlt. exact P. }
    assert (Uq : inject_Z v <= 32767).
    { change 32767 with (inject_Z 32767). rewrite <- Zle_Qle. lia. }
    assert (S : Qltb (clamp (inject_Z v / 32768)) 0 = false).
    { apply Qltb_ge. rewrite E. over_32768. lra. }
    rewrite S. unfold truncate.
    assert (G : Qle_bool 0 (clamp (inject_Z v / 32768) * 32767) = true).
    { apply Qle_bool_iff. rewrite E. over_32768. lra. }
    rewrite G. apply Qfloor_unique.
    + rewrite E. unfold Z.sub. rewrite inject_Z_plus, inject_Z_opp.
      change (inject_Z 1) with 1. over_32768. lra.
    + rewrite E. unfold Z.sub. rewrite inject_Z_plus, inject_Z_opp.
      change (inject_Z 1) with 1. over_32768. lra.
  - assert (Nq : inject_Z v <= 0).
    { change 0 with (inject_Z 0). rewrite <- Zle_Qle. exact N. }
    destruct (Qltb (clamp (inject_Z v / 32768)) 0) eqn:S.
    + rewrite (PCMFacts.truncate_comp _ (inject_Z v)); [apply truncate_Z |].
      rewrite E. field.
    + apply Qltb_ge in S. rewrite E in S.
      assert (Z0 : inject_Z v == 0) by (over_32768; lra).
      rewrite (PCMFacts.truncate_comp _ (inject_Z v)); [apply truncate_Z |].
      rewrite E, Z0. reflexivity.
Qed.

Lemma reencode_loses_a_step_witness :
  encodeSample (inject_Z 16384 / 32768) = (if 0 <? 16384 then 16384 - 1 else 16384)%Z.
Proof. apply (reencode_loses_a_step 16384). lia. Defined.

(** The conversion of [sendAudioChunk] on a sample of [[-1, 1)]: the
    product truncated, with no wrap-around. *)
Lemma chunkSample_inside (x : Q) :
  -1 <= x -> x < 1 -> chunkSample x = truncate (x * 32768).
Proof.
  intros L U. unfold chunkSample. apply ToInt16_in_range.
  pose proof (truncate_monotone (inject_Z (-32768)) (x * 32768)) as A.
  rewrite truncate_Z in A. split.
  - apply A. change (inject_Z (-32768)) with (-32768 # 1). lra.
  - destruct (Qlt_le_dec (x * 32768) 0) as [N | P].
    + destruct (truncate_neg _ N) as [_ B].
      apply Z.lt_le_incl. rewrite Zlt_Qlt. change (inject_Z 32767) with 32767. lra.
    + destruct (truncate_nonneg _ P) as [B _].
      apply Z.lt_succ_r. rewrite Zlt_Qlt. change (inject_Z (Z.succ 32767)) with 32768.
      lra.
Qed.

(** The bytes [sendAudioChunk] packs: two per sample, holding the
    integers of the samples. *)
Lemma chunkBytes_bytes (x : Float32Array) : Forall is_byte (chunkBytes x).
Proof.
  induction x as [| s x IH]; [constructor |].
  cbn [chunkBytes flat_map]. apply Forall_app.
  split; [apply PCMFacts.int16_le_bytes | exact IH].
Qed.

Lemma chunkBytes_length (x : Float32Array) :
  length (chunkBytes x) = (2 * length x)%nat.
Proof.
  induction x as [| s x IH]; [reflexivity |].
  cbn [chunkBytes flat_map]. fold (chunkBytes x).
  rewrite length_app, IH. cbn [int16_le length]. lia.
Qed.

Lemma chunkBytes_view (x : Float32Array) :
  Int16Array_of_buffer (chunkBytes x) = Some (map chunkSample x).
Proof.
  induction x as [| s x IH]; [reflexivity |].
  cbn [chunkBytes flat_map int16_le app map Int16Array_of_buffer].
  fold (chunkBytes x). rewrite IH.
  rewrite PCMFacts.int16_of_le_bytes by apply ToInt16_range. reflexivity.
Qed.

(** X3: on samples of [[-1, 1)] the conversion of [sendAudioChunk] is
    accurate to one step: what [decodePCMData]'s sample loop reads back
    from the bytes sent lies toward zero from each sample, less than
    1/32768 away. *)
Theorem chunk_round_trip_error (x : Float32Array) :
  Forall (fun s => -1 <= s /\ s < 1) x ->
  exists y : Float32Array,
    decodeSamples (chunkBytes x) = Some y
    /\ Forall2 (fun s t => Qabs (t - s) < 1 # 32768 /\ Qabs t <= Qabs s) x y.
Proof.
  intros H. exists (map (fun s => inject_Z (chunkSample s) / 32768) x).
  split.
  - unfold decodeSamples. rewrite chunkBytes_view, map_map. reflexivity.
  - induction H as [| s x [L U] _ IH]; cbn [map]; constructor; [| exact IH].
    rewrite (chunkSample_inside s L U). over_32768.
    destruct (Qlt_le_dec s 0) as [N | P].
    + destruct (truncate_neg (s * 32768)) as [A B]; [lra |].
      assert (T : inject_Z (truncate (s * 32768)) <= 0).
      { change 0 with (inject_Z 0). rewrite <- Zle_Qle.
        rewrite <- (truncate_Z 0). apply truncate_monotone.
        change (inject_Z 0) with 0. lra. }
      split; [apply Qabs_Qlt_condition; lra |].
      rewrite (Qabs_neg s) by lra. apply Qabs_Qle_condition. lra.
    + destruct (truncate_nonneg (s * 32768)) as [A B]; [lra |].
      assert (T : 0 <= inject_Z (truncate (s * 32768))).
      { change 0 with (inject_Z 0). rewrite <- Zle_Qle.
        rewrite <- (truncate_Z 0). apply truncate_monotone.
        change (inject_Z 0) with 0. lra. }
      split; [apply Qabs_Qlt_condition; lra |].
      rewrite (Qabs_pos s) by lra. apply Qabs_Qle_condition. lra.
Qed.

Lemma chunk_round_trip_error_witness :
  exists y : Float32Array,
    decodeSamples (chunkBytes [ -1; 1 # 3; 0]) = Some y
    /\ Forall2 (fun s t => Qabs (t - s) < 1 # 32768 /\ Qabs t <= Qabs s)
               [ -1; 1 # 3; 0] y.
Proof.
  apply (chunk_round_trip_error [ -1; 1 # 3; 0]).
  repeat constructor; vm_compute; (discriminate || reflexivity).
Defined.

(** Two bytes, least significant first, as a number. *)
Lemma int16_of_le_value (lo hi : Z) :
  is_byte lo -> is_byte hi ->
  int16_of_le lo hi
  = (if 32768 <=? lo + hi * 256 then lo + hi * 256 - 65536 else lo + hi * 256)%Z.
Proof.
  unfold is_byte, int16_of_le. intros Hlo Hhi.
  pose proof (Z.add_lor_land lo (Z.shiftl hi 8)) as A.
  rewrite (PCMFacts.low_high_disjoint _ _ Hlo), Z.add_0_r in A.
  rewrite A, Z.shiftl_mul_pow2 by lia. reflexivity.
Qed.

Lemma int16_of_le_range (lo hi : Z) :
  is_byte lo -> is_byte hi -> (-32768 <= int16_of_le lo hi <= 32767)%Z.
Proof.
  intros Hlo Hhi. rewrite (int16_of_le_value lo hi Hlo Hhi).
  unfold is_byte in *.
  destruct (Z.leb_spec 32768 (lo + hi * 256)); lia.
Qed.

Lemma int16_le_of_le (lo hi : Z) :
  is_byte lo -> is_byte hi -> int16_le (int16_of_le lo hi) = [lo; hi].
Proof.
  intros Hlo Hhi. rewrite (int16_of_le_value lo hi Hlo Hhi).
  unfold is_byte, int16_le in *. change 255%Z with (Z.ones 8).
  rewrite !Z.land_ones, Z.shiftr_div_pow2 by lia.
  change (2 ^ 8)%Z with 256%Z.
  destruct (Z.leb_spec 32768 (lo + hi * 256));
    (f_equal; [| f_equal]); Z.to_euclidean_division_equations; lia.
Qed.

(** Sent again, the sample a 16-bit integer decodes to is that
    integer. *)
Lemma chunkSample_decoded (v : Z) :
  (-32768 <= v <= 32767)%Z -> chunkSample (inject_Z v / 32768) = v.
Proof.
  intros R. destruct (decoded_inside v R) as [L U].
  rewrite (chunkSample_inside _ L U).
  rewrite (PCMFacts.truncate_comp _ (inject_Z v)); [apply truncate_Z | field].
Qed.

(** What the sample loop of [decodePCMData] gives: one sample of
    [[-1, 1)] for every two bytes. *)
Lemma decodeSamples_inside (buffer : ArrayBuffer) (float32Data : Float32Array) :
  Forall is_byte buffer ->
  decodeSamples buffer = Some float32Data ->
  Forall (fun t => -1 <= t /\ t < 1) float32Data
  /\ length buffer = (2 * length float32Data)%nat.
Proof.
  unfold decodeSamples.
  destruct (Int16Array_of_buffer buffer) as [pcm |] eqn:E; [| discriminate].
  intros B [= <-]. rewrite (PlaybackFacts.Int16Array_length buffer pcm E), length_map.
  split; [| reflexivity]. revert pcm E.
  induction buffer as [| a | lo hi rest IH] using PlaybackFacts.byte_pairs_ind;
    intros pcm E; cbn in E.
  - injection E as <-. constructor.
  - discriminate.
  - destruct (Int16Array_of_buffer rest) as [pcm' |]; [| discriminate].
    injection E as <-.
    inversion_clear B as [| ? ? Hlo B']. inversion_clear B' as [| ? ? Hhi Brest].
    cbn [map]. constructor; [| apply (IH Brest pcm' eq_refl)].
    apply decoded_inside, int16_of_le_range; assumption.
Qed.

(** X4: the conversion of [sendAudioChunk] undoes the sample loop of
    [decodePCMData]: for every buffer of bytes that decodes, the
    decoded samples lie in [[-1, 1)], there is one for every two bytes,
    and [sendAudioChunk] packs them into the very bytes they came
    from. *)
Theorem resend_decoded (buffer : ArrayBuffer) (float32Data : Float32Array) :
  Forall is_byte buffer ->
  decodeSamples buffer = Some float32Data ->
  chunkBytes float32Data = buffer
  /\ Forall (fun t => -1 <= t /\ t < 1) float32Data
  /\ length buffer = (2 * length float32Data)%nat.
Proof.
  intros B D. split; [| exact (decodeSamples_inside buffer float32Data B D)].
  revert D. unfold decodeSamples.
  destruct (Int16Array_of_buffer buffer) as [pcm |] eqn:E; [| discriminate].
  intros [= <-]. revert pcm E.
  induction buffer as [| a | lo hi rest IH] using PlaybackFacts.byte_pairs_ind;
    intros pcm E; cbn in E.
  - injection E as <-. reflexivity.
  - discriminate.
  - destruct (Int16Array_of_buffer rest) as [pcm' |]; [| discriminate].
    injection E as <-.
    inversion_clear B as [| ? ? Hlo B']. inversion_clear B' as [| ? ? Hhi Brest].
    pose proof (int16_of_le_range lo hi Hlo Hhi) as V.
    cbn [map chunkBytes flat_map]. fold (chunkBytes (map (fun v => inject_Z v / 32768) pcm')).
    rewrite (IH Brest pcm' eq_refl), (chunkSample_decoded _ V), (int16_le_of_le lo hi Hlo Hhi).
    reflexivity.
Qed.

Lemma resend_decoded_witness :
  chunkBytes [inject_Z 32767 / 32768; inject_Z (-32768) / 32768] = [255; 127; 0; 128]%Z
  /\ Forall (fun t => -1 <= t /\ t < 1)
            [inject_Z 32767 / 32768; inject_Z (-32768) / 32768]
  /\ length [255; 127; 0; 128]%Z
     = (2 * length [inject_Z 32767 / 32768; inject_Z (-32768) / 32768]%Q)%nat.
Proof.
  apply (resend_decoded [255; 127; 0; 128]%Z).
  - unfold is_byte. repeat constructor; lia.
  - reflexivity.
Defined.

(** X5: [decodePCMData] throws exactly on a payload that is empty or has
    an odd number of bytes; every other payload becomes an audio buffer
    at 24000 Hz with one sample in [[-1, 1)] for every two bytes, so that
    its duration in seconds is the number of bytes over 48000, and is
    positive. *)
Theorem decodePCMData_shape (buffer : ArrayBuffer) :
  Forall is_byte buffer ->
  match decodePCMData buffer with
  | None => buffer = [] \/ Nat.Odd (length buffer)
  | Some audio =>
      buffer <> [] /\ Nat.Even (length buffer)
      /\ sampleRate audio = 24000%Z
      /\ length buffer = (2 * length (channelData audio))%nat
      /\ Forall (fun t => -1 <= t /\ t < 1) (channelData audio)
      /\ duration audio == inject_Z (Z.of_nat (length buffer)) / 48000
      /\ 0 < duration audio
  end.
Proof.
  intros B. destruct (decodePCMData buffer) as [audio |] eqn:D.
  - destruct (PlaybackFacts.decodePCMData_Some buffer audio D) as (R & N & L).
    pose proof (PlaybackFacts.duration_decoded buffer audio D) as P.
    split; [intros ->; destruct (channelData audio); [contradiction | discriminate] |].
    split; [exists (length (channelData audio)); exact L |].
    split; [exact R |]. split; [exact L |].
    unfold decodePCMData in D.
    destruct (decodeSamples buffer) as [float32Data |] eqn:E; [| discriminate].
    destruct (decodeSamples_inside buffer float32Data B E) as (In & _).
    unfold createBuffer in D. destruct float32Data; [discriminate |].
    injection D as <-. cbn [channelData sampleRate] in *.
    split; [exact In |]. split; [| exact P].
    unfold duration. cbn [channelData sampleRate]. rewrite L.
    rewrite Nat2Z.inj_mul, inject_Z_mult. change (inject_Z (Z.of_nat 2)) with 2.
    field.
  - apply PlaybackFacts.decodePCMData_None, D.
Qed.

Lemma decodePCMData_shape_witness :
  match decodePCMData [0; 64; 0; 192]%Z with
  | None => [0; 64; 0; 192]%Z = [] \/ Nat.Odd (length [0; 64; 0; 192]%Z)
  | Some audio =>
      [0; 64; 0; 192]%Z <> [] /\ Nat.Even (length [0; 64; 0; 192]%Z)
      /\ sampleRate audio = 24000%Z
      /\ length [0; 64; 0; 192]%Z = (2 * length (channelData audio))%nat
      /\ Forall (fun t => -1 <= t /\ t < 1) (channelData audio)
      /\ duration audio == inject_Z (Z.of_nat (length [0; 64; 0; 192]%Z)) / 48000
      /\ 0 < duration audio
  end.
Proof.
  apply (decodePCMData_shape [0; 64; 0; 192]%Z).
  unfold is_byte. repeat constructor; lia.
Defined.

(** X6: inside [[-1, 1)] the conversion of [sendAudioChunk] stays within
    one step of [floatTo16BitPCM]: it writes the same integer for every
    negative sample, and the same integer or the next one up for every
    other sample. *)
Theorem chunk_within_one_step_of_codec (x : Q) :
  -1 <= x -> x < 1 ->
  (encodeSample x <= chunkSample x <= encodeSample x + 1)%Z
  /\ (x < 0 -> chunkSample x = encodeSample x).
Proof.
  intros L U.
  assert (Neg : x < 0 -> chunkSample x = encodeSample x)
    by (intros N; apply PCMFacts.chunkSample_negative; assumption).
  split; [| exact Neg].
  destruct (Qlt_le_dec x 0) as [N | P]; [rewrite (Neg N); lia |].
  rewrite (chunkSample_inside x L U), encodeSample_truncate.
  assert (E : clamp x == x) by (apply PCMFacts.clamp_inside; lra).
  assert (S : Qltb (clamp x) 0 = false) by (apply Qltb_ge; lra).
  rewrite S, (PCMFacts.truncate_comp (clamp x * 32767) (x * 32767))
    by (rewrite E; reflexivity).
  destruct (truncate_nonneg (x * 32768)) as [A1 A2]; [lra |].
  destruct (truncate_nonneg (x * 32767)) as [B1 B2]; [lra |].
  pose proof (truncate_monotone (x * 32767) (x * 32768)) as M.
  split; [apply M; lra |].
  apply Z.lt_succ_r. rewrite Zlt_Qlt. unfold Z.succ.
  rewrite !inject_Z_plus. change (inject_Z 1) with 1. lra.
Qed.

Lemma chunk_within_one_step_of_codec_witness :
  (encodeSample (1 # 2) <= chunkSample (1 # 2) <= encodeSample (1 # 2) + 1)%Z
  /\ (1 # 2 < 0 -> chunkSample (1 # 2) = encodeSample (1 # 2)).
Proof.
  apply (chunk_within_one_step_of_codec (1 # 2)); vm_compute;
    (discriminate || reflexivity).
Defined.

End CodecFacts.

(** ** Text transport of audio *)

Module TransportFacts.
Import PCM Session Transport.

(** Induction over a byte sequence three bytes at a time, as base64
    reads it. *)
Lemma byte_triples_ind (P : list Z -> Prop) :
  P [] -> (forall a, P [a]) -> (forall a b, P [a; b]) ->
  (forall a b c rest, P rest -> P (a :: b :: c :: rest)) ->
  forall bytes, P bytes.
Proof.
  intros H0 H1 H2 H3 bytes.
  enough (P bytes /\ (forall a, P (a :: bytes)) /\ (forall a b, P (a :: b :: bytes)))
    by tauto.
  induction bytes as [| c bytes (IH0 & IH1 & IH2)]; repeat split; auto.
Qed.

Lemma sextet_facts (n : Z) :
  (0 <= n < 64)%Z ->
  sextetOf (sextet n) = Some n
  /\ isSpace (sextet n) = false
  /\ Ascii.eqb (sextet n) "=" = false.
Proof.
  intros H.
  assert (A : forallb (fun k : nat =>
                let c := sextet (Z.of_nat k) in
                match sextetOf c with
                | Some m => (m =? Z.of_nat k)%Z
                | None => false
                end && negb (isSpace c) && negb (Ascii.eqb c "="))
              (seq 0 64) = true) by (vm_compute; reflexivity).
  rewrite forallb_forall in A.
  specialize (A (Z.to_nat n)). rewrite Z2Nat.id in A by lia.
  assert (I : In (Z.to_nat n) (seq 0 64)) by (apply in_seq; lia).
  apply A in I. cbv zeta in I.
  apply andb_true_iff in I. destruct I as [I E].
  apply andb_true_iff in I. destruct I as [I S].
  apply negb_true_iff in E, S.
  destruct (sextetOf (sextet n)) as [m |]; [| discriminate].
  apply Z.eqb_eq in I. subst m. auto.
Qed.

(** The sextets of bytes are sextets. *)
Lemma sextetsOfBytes_range (bytes : list Z) :
  Forall is_byte bytes -> Forall (fun n => 0 <= n < 64)%Z (sextetsOfBytes bytes).
Proof.
  unfold is_byte.
  induction bytes as [| a | a b | a b c rest IH] using byte_triples_ind; intros H.
  - constructor.
  - inversion_clear H as [| ? ? Ha _]. cbn.
    repeat constructor; Z.to_euclidean_division_equations; lia.
  - inversion_clear H as [| ? ? Ha H']. inversion_clear H' as [| ? ? Hb _]. cbn.
    repeat constructor; Z.to_euclidean_division_equations; lia.
  - inversion_clear H as [| ? ? Ha H']. inversion_clear H' as [| ? ? Hb H''].
    inversion_clear H'' as [| ? ? Hc Hrest].
    cbn [sextetsOfBytes].
    repeat (constructor; [Z.to_euclidean_division_equations; lia |]).
    apply IH, Hrest.
Qed.

(** The text [btoa] writes is the alphabet characters of those sextets
    followed by the padding. *)
Lemma btoa_chars (bytes : list Z) :
  list_ascii_of_string (btoa bytes)
  = map sextet (sextetsOfBytes bytes) ++ repeat "="%char (padCount bytes).
Proof.
  induction bytes as [| a | a b | a b c rest IH] using byte_triples_ind;
    try reflexivity.
  cbn [btoa sextetsOfBytes padCount list_ascii_of_string map app].
  rewrite IH. reflexivity.
Qed.

(** Every three bytes give four characters, and a rest of one or two
    bytes is padded to four. *)
Lemma btoa_length (bytes : list Z) :
  String.length (btoa bytes) = (4 * ((length bytes + 2) / 3))%nat.
Proof.
  induction bytes as [| a | a b | a b c rest IH] using byte_triples_ind;
    try reflexivity.
  cbn [btoa String.length length]. rewrite IH.
  replace (S (S (S (length rest))) + 2)%nat with (length rest + 2 + 1 * 3)%nat by lia.
  rewrite Nat.div_add by lia. lia.
Qed.

Lemma sextets_length_mod (bytes : list Z) :
  ((length (sextetsOfBytes bytes) + padCount bytes) mod 4 = 0)%nat
  /\ (length (sextetsOfBytes bytes) mod 4 <> 1)%nat
  /\ (padCount bytes <= 2)%nat
  /\ ((0 < padCount bytes)%nat -> sextetsOfBytes bytes <> []).
Proof.
  induction bytes as [| a | a b | a b c rest IH] using byte_triples_ind;
    try (cbn; repeat split; (lia || discriminate)).
  destruct IH as (A & B & C & D).
  cbn [sextetsOfBytes padCount length].
  replace (S (S (S (S (length (sextetsOfBytes rest))))) + padCount rest)%nat
    with (length (sextetsOfBytes rest) + padCount rest + 1 * 4)%nat by lia.
  replace (S (S (S (S (length (sextetsOfBytes rest))))))
    with (length (sextetsOfBytes rest) + 1 * 4)%nat by lia.
  rewrite !Nat.Div0.mod_add. repeat split; try assumption. discriminate.
Qed.

(** Decoding the sextets of bytes gives the bytes back. *)
Lemma bytesOf_sextetsOfBytes (bytes : list Z) :
  Forall is_byte bytes -> bytesOf (sextetsOfBytes bytes) = bytes.
Proof.
  unfold is_byte.
  induction bytes as [| a | a b | a b c rest IH] using byte_triples_ind; intros H.
  - reflexivity.
  - inversion_clear H as [| ? ? Ha _]. cbn. f_equal.
    Z.to_euclidean_division_equations; lia.
  - inversion_clear H as [| ? ? Ha H']. inversion_clear H' as [| ? ? Hb _]. cbn.
    f_equal; [| f_equal]; Z.to_euclidean_division_equations; lia.
  - inversion_clear H as [| ? ? Ha H']. inversion_clear H' as [| ? ? Hb H''].
    inversion_clear H'' as [| ? ? Hc Hrest].
    cbn [sextetsOfBytes bytesOf]. rewrite (IH Hrest).
    f_equal; [| f_equal; [| f_equal]]; Z.to_euclidean_division_equations; lia.
Qed.

Lemma sextets_of_chars (ns : list Z) :
  Forall (fun n => 0 <= n < 64)%Z ns -> sextets (map sextet ns) = Some ns.
Proof.
  induction 1 as [| n ns Hn _ IH]; [reflexivity |].
  cbn [map sextets]. destruct (sextet_facts n Hn) as (-> & _ & _).
  rewrite IH. reflexivity.
Qed.

Lemma filter_spaces (ns : list Z) (p : nat) :
  Forall (fun n => 0 <= n < 64)%Z ns ->
  List.filter (fun c => negb (isSpace c)) (map sextet ns ++ repeat "="%char p)
  = map sextet ns ++ repeat "="%char p.
Proof.
  intros H. rewrite List.filter_app. f_equal.
  - induction H as [| n ns Hn _ IH]; [reflexivity |].
    cbn [map List.filter]. destruct (sextet_facts n Hn) as (_ & -> & _).
    cbn [negb]. rewrite IH. reflexivity.
  - induction p as [| p IH]; [reflexivity |]. cbn. rewrite IH. reflexivity.
Qed.

Lemma dropPadding_chars (ns : list Z) (p : nat) :
  Forall (fun n => 0 <= n < 64)%Z ns ->
  ((length ns + p) mod 4 = 0)%nat -> (p <= 2)%nat -> ((0 < p)%nat -> ns <> []) ->
  dropPadding (map sextet ns ++ repeat "="%char p) = map sextet ns.
Proof.
  intros R L P N. unfold dropPadding.
  rewrite length_app, length_map, repeat_length, L. cbn [Nat.eqb].
  rewrite rev_app_distr, rev_repeat.
  assert (Last : match rev (map sextet ns) with
                 | [] => ns = []
                 | c :: _ => Ascii.eqb c "=" = false
                 end).
  { destruct (rev (map sextet ns)) as [| c r] eqn:E.
    - apply (f_equal (@rev ascii)) in E. rewrite rev_involutive in E.
      destruct ns; [reflexivity | discriminate].
    - assert (I : In c (map sextet ns)).
      { apply in_rev. rewrite E. left. reflexivity. }
      apply in_map_iff in I. destruct I as (n & <- & I).
      rewrite Forall_forall in R. apply list_elem_of_In, R in I.
      apply (sextet_facts n I). }
  destruct p as [| [| [| p]]]; [| | | lia]; cbn [repeat app].
  - destruct (rev (map sextet ns)) as [| c [| c2 r]] eqn:E.
    + rewrite app_nil_r. reflexivity.
    + rewrite Last, app_nil_r. reflexivity.
    + rewrite Last, app_nil_r. reflexivity.
  - destruct (rev (map sextet ns)) as [| c r] eqn:E.
    + exfalso. apply N; [lia | exact Last].
    + cbn [Ascii.eqb Bool.eqb]. rewrite Last.
      rewrite <- E, rev_involutive. reflexivity.
  - cbn [Ascii.eqb Bool.eqb].
    rewrite rev_involutive. reflexivity.
Qed.

(** [atob] reads back what [btoa] writes. *)
Lemma atob_btoa (bytes : list Z) :
  Forall is_byte bytes -> atob (btoa bytes) = Some bytes.
Proof.
  intros H. pose proof (sextetsOfBytes_range bytes H) as R.
  destruct (sextets_length_mod bytes) as (L & M & P & N).
  unfold atob.
  rewrite btoa_chars, (filter_spaces _ _ R), (dropPadding_chars _ _ R L P N).
  rewrite length_map.
  destruct (Nat.eqb_spec (length (sextetsOfBytes bytes) mod 4) 1) as [E | _];
    [contradiction |].
  rewrite (sextets_of_chars _ R), (bytesOf_sextetsOfBytes _ H). reflexivity.
Qed.

(** X7: the text transport is lossless: decoding with
    [base64ToUint8Array] the text [btoa] writes for a sequence of bytes
    gives that sequence back, for every sequence of bytes. *)
Theorem base64_round_trip (bytes : list Z) :
  Forall is_byte bytes -> base64ToUint8Array (btoa bytes) = Some bytes.
Proof.
  intros H. unfold base64ToUint8Array. apply atob_btoa, H.
Qed.

Lemma base64_round_trip_witness :
  base64ToUint8Array (btoa [0; 128; 255; 127; 1]%Z) = Some [0; 128; 255; 127; 1]%Z.
Proof.
  apply (base64_round_trip [0; 128; 255; 127; 1]%Z).
  unfold is_byte. repeat constructor; lia.
Defined.

(** X8: what [sendAudioChunk] sends on a connected session decodes, on
    the receiving side of the same transport, to two bytes per sample,
    the little-endian 16-bit integers of the samples, as long as the
    engine takes that many bytes as the arguments of one call; a longer
    chunk makes the function throw before anything is sent; and without a
    session the function returns without sending and without throwing. *)
Theorem sendAudioChunk_payload (maxArguments : nat) (float32Data : Float32Array) :
  ((2 * length float32Data <= maxArguments)%nat ->
   exists media,
     sendAudioChunkWithin maxArguments true float32Data = Some (Some media)
     /\ mimeType media = "audio/pcm;rate=16000"
     /\ base64ToUint8Array (data media) = Some (chunkBytes float32Data)
     /\ length (chunkBytes float32Data) = (2 * length float32Data)%nat
     /\ Int16Array_of_buffer (chunkBytes float32Data)
        = Some (map chunkSample float32Data))
  /\ ((maxArguments < 2 * length float32Data)%nat ->
      sendAudioChunkWithin maxArguments true float32Data = None)
  /\ sendAudioChunkWithin maxArguments false float32Data = Some None.
Proof.
  pose proof (CodecFacts.chunkBytes_length float32Data) as L.
  split; [| split; [| reflexivity]].
  - intros Fit. unfold sendAudioChunkWithin. cbn [negb].
    destruct (Nat.ltb_spec maxArguments (length (chunkBytes float32Data))) as [Over | _];
      [lia |].
    eexists. split; [reflexivity |]. split; [reflexivity |].
    cbn [data].
    split; [apply atob_btoa, CodecFacts.chunkBytes_bytes |].
    split; [exact L | apply CodecFacts.chunkBytes_view].
  - intros Over. unfold sendAudioChunkWithin. cbn [negb].
    destruct (Nat.ltb_spec maxArguments (length (chunkBytes float32Data))) as [_ | Fit];
      [reflexivity | lia].
Qed.

(** Two samples with an engine that takes 1000 arguments, and with one
    that takes three. *)
Lemma sendAudioChunk_payload_witness :
  sendAudioChunkWithin 1000 true [1 # 2; -1]
  = Some (Some (mkMedia "audio/pcm;rate=16000" "AEAAgA=="))
  /\ base64ToUint8Array "AEAAgA==" = Some [0; 64; 0; 128]%Z
  /\ sendAudioChunkWithin 3 true [1 # 2; -1] = None.
Proof.
  destruct (sendAudioChunk_payload 1000 [1 # 2; -1]) as (Fit & _ & _).
  destruct (sendAudioChunk_payload 3 [1 # 2; -1]) as (_ & Over & _).
  destruct Fit as (media & S & _ & B & _); [cbn; lia |].
  split; [reflexivity |]. split; [reflexivity |].
  apply Over. cbn. lia.
Defined.

End TransportFacts.

(** ** Playback scheduler: back-to-back segments *)

Module TimelineFacts.
Import PCM Playback Timeline.

Lemma Qmax_keeps_cursor (cursor clock : Q) : clock <= cursor -> Qmax cursor clock = cursor.
Proof.
  intros H. unfold Qmax, GenericMinMax.gmax.
  destruct (Qcompare_spec cursor clock) as [E | L | G]; try reflexivity. lra.
Qed.

Lemma run_contiguous (events : list Inbound) (cursor : Q) :
  Forall (fun c => clock (event c) <= before c) (run cursor events) ->
  contiguous cursor (timeline (run cursor events)).
Proof.
  revert cursor. induction events as [| e events IH]; intros cursor H; [exact I |].
  cbn [run] in *. unfold onAudioData in *.
  destruct (ready e); cbn [negb] in *.
  - destruct (decodePCMData (payload e)) as [b |].
    + inversion_clear H as [| ? ? Hc Hrest]. cbn [before event] in Hc.
      rewrite (Qmax_keeps_cursor _ _ Hc) in *.
      unfold timeline. cbn [flat_map effects scheduled app].
      split; [reflexivity |]. apply IH, Hrest.
    + inversion_clear H as [| ? ? Hc Hrest]. cbn [before event] in Hc.
      rewrite (Qmax_keeps_cursor _ _ Hc) in *.
      unfold timeline. cbn [flat_map effects scheduled app]. apply IH, Hrest.
  - inversion_clear H as [| ? ? Hc Hrest].
    unfold timeline. cbn [flat_map effects scheduled app]. apply IH, Hrest.
Qed.

Lemma contiguous_lookup (segments : list (Q * AudioBuffer)) (cursor : Q) :
  contiguous cursor segments ->
  (forall s, segments !! 0%nat = Some s -> fst s = cursor)
  /\ (forall i s1 s2, segments !! i = Some s1 -> segments !! S i = Some s2 ->
                      fst s2 = segmentEnd s1).
Proof.
  revert cursor. induction segments as [| s rest IH]; intros cursor C.
  - split; intros; discriminate.
  - destruct C as [E C]. destruct (IH _ C) as [First Next].
    split.
    + intros s' [= <-]. exact E.
    + intros [| i] s1 s2 H1 H2; cbn in H1, H2.
      * injection H1 as <-. apply First, H2.
      * apply (Next i); assumption.
Qed.

(** X9: when inbound audio arrives faster than it plays, that is when at
    every call the playback clock has not passed the cursor, playback is
    gapless: the first segment scheduled starts at the cursor the run
    began with, and every later segment starts at the very instant the
    segment before it ends, dropped payloads in between included. *)
Theorem back_to_back (cursor : Q) (events : list Inbound) :
  Forall (fun c => clock (event c) <= before c) (run cursor events) ->
  let segments := timeline (run cursor events) in
  (forall s, segments !! 0%nat = Some s -> fst s = cursor)
  /\ (forall i s1 s2, segments !! i = Some s1 -> segments !! S i = Some s2 ->
                      fst s2 = fst s1 + duration (snd s1)).
Proof.
  intros H. apply contiguous_lookup, run_contiguous, H.
Qed.

Lemma back_to_back_witness :
  let events := [mkInbound true 0 [0; 0; 0; 0]%Z; mkInbound true (1 # 24000) [7]%Z;
                 mkInbound true (2 # 24000) [0; 0]%Z] in
  let segments := timeline (run 0 events) in
  (forall s, segments !! 0%nat = Some s -> fst s = 0)
  /\ (forall i s1 s2, segments !! i = Some s1 -> segments !! S i = Some s2 ->
                      fst s2 = fst s1 + duration (snd s1)).
Proof.
  apply (back_to_back 0
           [mkInbound true 0 [0; 0; 0; 0]%Z; mkInbound true (1 # 24000) [7]%Z;
            mkInbound true (2 # 24000) [0; 0]%Z]).
  repeat constructor; vm_compute; discriminate.
Defined.

Lemma Qmax_absorb (cursor currentTime later : Q) :
  currentTime <= later -> Qmax (Qmax cursor currentTime) later == Qmax cursor later.
Proof.
  intros H.
  destruct (Qmax_cases cursor currentTime) as [[-> H1] | [-> H1]]; [reflexivity |].
  destruct (Qmax_cases currentTime later) as [[-> H2] | [-> H2]];
    destruct (Qmax_cases cursor later) as [[-> H3] | [-> H3]]; lra.
Qed.

Lemma Qmax_equal (cursor1 cursor2 currentTime : Q) :
  cursor1 == cursor2 -> Qmax cursor1 currentTime == Qmax cursor2 currentTime.
Proof.
  intros H.
  destruct (Qmax_cases cursor1 currentTime) as [[-> H1] | [-> H1]];
    destruct (Qmax_cases cursor2 currentTime) as [[-> H2] | [-> H2]]; lra.
Qed.

(** Equal cursors schedule the same buffers at equal times. *)
Lemma timeline_equal (events : list Inbound) (cursor1 cursor2 : Q) :
  cursor1 == cursor2 ->
  Forall2 (fun s1 s2 => fst s1 == fst s2 /\ snd s1 = snd s2)
          (timeline (run cursor1 events)) (timeline (run cursor2 events)).
Proof.
  revert cursor1 cursor2. induction events as [| e events IH]; intros cursor1 cursor2 H;
    [constructor |].
  cbn [run]. unfold onAudioData.
  pose proof (Qmax_equal cursor1 cursor2 (clock e) H) as M.
  destruct (ready e); cbn [negb].
  - destruct (decodePCMData (payload e)) as [b |];
      unfold timeline; cbn [flat_map effects scheduled app].
    + constructor; [split; [exact M | reflexivity] |].
      apply IH. rewrite M. reflexivity.
    + apply IH, M.
  - unfold timeline. cbn [flat_map effects scheduled app]. apply IH, H.
Qed.

(** A cursor raised to a clock reading schedules as the cursor itself
    would, when no later call reads an earlier clock. *)
Lemma timeline_raised (currentTime : Q) (events : list Inbound) (cursor : Q) :
  Forall (fun e => currentTime <= clock e) events ->
  Forall2 (fun s1 s2 => fst s1 == fst s2 /\ snd s1 = snd s2)
          (timeline (run (Qmax cursor currentTime) events)) (timeline (run cursor events)).
Proof.
  intros H. revert cursor. induction H as [| e events He _ IH]; intros cursor;
    [constructor |].
  cbn [run]. unfold onAudioData.
  pose proof (Qmax_absorb cursor currentTime (clock e) He) as M.
  destruct (ready e); cbn [negb].
  - destruct (decodePCMData (payload e)) as [b |];
      unfold timeline; cbn [flat_map effects scheduled app].
    + constructor; [split; [exact M | reflexivity] |].
      apply timeline_equal. rewrite M. reflexivity.
    + apply timeline_equal, M.
  - unfold timeline. cbn [flat_map effects scheduled app]. apply IH.
Qed.

(** X10: a payload that is dropped leaves no trace on playback: when the
    playback clock does not run backwards, the segments scheduled after a
    call whose decode failed, or that found no output context, are the
    segments that would have been scheduled without that call: the same
    buffers at the same start times. *)
Theorem dropped_payload_leaves_no_trace (outputReady : bool) (currentTime : Q)
    (raw : ArrayBuffer) (cursor : Q) (events : list Inbound) :
  outputReady = false \/ decodePCMData raw = None ->
  Forall (fun e => currentTime <= clock e) events ->
  Forall2 (fun s1 s2 => fst s1 == fst s2 /\ snd s1 = snd s2)
          (timeline (run cursor (mkInbound outputReady currentTime raw :: events)))
          (timeline (run cursor events)).
Proof.
  intros D H. cbn [run ready clock payload]. unfold onAudioData.
  destruct outputReady; cbn [negb].
  - destruct D as [D | D]; [discriminate |]. rewrite D.
    unfold timeline. cbn [flat_map effects scheduled app].
    apply timeline_raised, H.
  - unfold timeline. cbn [flat_map effects scheduled app].
    apply timeline_equal. reflexivity.
Qed.

Lemma dropped_payload_leaves_no_trace_witness :
  Forall2 (fun s1 s2 => fst s1 == fst s2 /\ snd s1 = snd s2)
          (timeline (run 0 [mkInbound true 5 [7]%Z; mkInbound true 6 [0; 64]%Z]))
          (timeline (run 0 [mkInbound true 6 [0; 64]%Z])).
Proof.
  apply (dropped_payload_leaves_no_trace true 5 [7]%Z 0 [mkInbound true 6 [0; 64]%Z]).
  - right. reflexivity.
  - repeat constructor. vm_compute. discriminate.
Defined.

End TimelineFacts.

(** ** Speech-rate analyzer over streams *)

Module CaptureFacts.
Import PCM Advisory SpeechRate Capture.

(** The peaks of a window are at least [d] ms apart when the buffers
    are, so the count stays below the age of the window over [d]. *)
Lemma spaced_never_tooFast (d : Z) (buffers : list Buffer) (data : Data) (earliest : Z) :
  (223 <= d)%Z ->
  (0 <= peaks data)%Z ->
  (peaks data * d <= earliest - startTime data)%Z ->
  spaced d earliest buffers ->
  Forall (fun calls => ~ In tooFast calls) (snd (analyzeAll buffers data)).
Proof.
  intros Hd. revert data earliest.
  induction buffers as [| b rest IH]; intros data earliest P0 Inv Sp; [constructor |].
  destruct Sp as [T Sp]. cbn [analyzeAll]. unfold analyzeSpeechRate.
  destruct (Z.ltb_spec 3000 (at_ms b - startTime data)) as [Closed | Open].
  - rewrite (SpeechRateFacts.window_closed _ _ _ Closed).
    rewrite SpeechRateFacts.countPeaks_spec. cbn [peaks startTime lastPeakTime].
    set (data2 := if _ && _ then _ else _).
    specialize (IH data2 (at_ms b + d)%Z).
    destruct (analyzeAll rest data2) as [data3 later]. cbn [snd] in *.
    constructor.
    + intros I.
      destruct (SpeechRateFacts.classify_cases (speaking b) (at_ms b) data) as [C | [C | C]];
        rewrite C in I; cbn in I.
      * clear I. apply SpeechRateFacts.classify_tooFast in C.
        destruct C as (_ & _ & C).
        apply (SpeechRateFacts.rate_bounds (at_ms b) data (9 # 2)) in C; [| lia].
        assert (K : (223 * peaks data <= at_ms b - startTime data)%Z) by nia.
        rewrite Zle_Qle, inject_Z_mult in K. change (inject_Z 223) with 223 in K.
        assert (0 <= inject_Z (peaks data)).
        { change 0 with (inject_Z 0). rewrite <- Zle_Qle. exact P0. }
        lra.
      * destruct I as [I | []]. discriminate I.
      * destruct I.
    + apply IH; [| | exact Sp]; subst data2;
        destruct (_ && _); cbn [peaks startTime]; lia.
  - unfold window.
    destruct (Z.ltb_spec 3000 (at_ms b - startTime data)) as [Closed | _]; [lia |].
    rewrite SpeechRateFacts.countPeaks_spec.
    set (data2 := if _ && _ then _ else _).
    specialize (IH data2 (at_ms b + d)%Z).
    destruct (analyzeAll rest data2) as [data3 later]. cbn [snd] in *.
    constructor; [intros [] |].
    apply IH; [| | exact Sp]; subst data2;
      destruct (_ && _); cbn [peaks startTime]; nia.
Qed.

(** X11: when the capture buffers are analyzed at least 223 ms apart (a
    4096-frame buffer at 16000 Hz comes every 256 ms), the analyzer never
    calls for the "too fast" advisory in a session, whatever the samples
    and the speaking flag are: with at most one peak per buffer the rate
    stays below 4.5 peaks a second. *)
Theorem real_time_never_tooFast (d t0 : Z) (buffers : list Buffer) :
  (223 <= d)%Z ->
  spaced d t0 buffers ->
  Forall (fun calls => ~ In tooFast calls) (snd (analyzeAll buffers (started t0))).
Proof.
  intros Hd Sp. apply (spaced_never_tooFast d buffers (started t0) t0 Hd); cbn; [lia | lia | exact Sp].
Qed.

Lemma real_time_never_tooFast_witness :
  Forall (fun calls => ~ In tooFast calls)
         (snd (analyzeAll (pulsesAt [1000000; 1000256; 1000512; 1003100]%Z)
                          (started 1000000))).
Proof.
  apply (real_time_never_tooFast 256 1000000
           (pulsesAt [1000000; 1000256; 1000512; 1003100]%Z)).
  - lia.
  - cbn. lia.
Defined.

Lemma edges_above (prev : Q) (rest : list Q) :
  threshold < prev -> Forall (fun x => threshold < x) rest -> risingEdges prev rest = 0%nat.
Proof.
  intros P H. revert prev P. induction H as [| x rest Hx _ IH]; intros prev P; [reflexivity |].
  cbn [risingEdges]. apply Qle_bool_gt in P. rewrite P, andb_false_r.
  rewrite (IH x Hx). reflexivity.
Qed.

Lemma edges_below (prev : Q) (rest : list Q) :
  Forall (fun x => x <= threshold) rest -> risingEdges prev rest = 0%nat.
Proof.
  intros H. revert prev. induction H as [| x rest Hx _ IH]; intros prev; [reflexivity |].
  cbn [risingEdges]. apply Qltb_ge in Hx. rewrite Hx. cbn [andb].
  rewrite (IH x). reflexivity.
Qed.

(** X12: a buffer that stays above the threshold, or stays at or below
    it, counts no peak, whatever came before it: a rising edge that falls
    between two buffers is not seen, since the scan starts at the second
    sample of each buffer. *)
Theorem steady_buffer_counts_nothing (now : Z) (inputData : Float32Array) (data : Data) :
  Forall (fun x => threshold < x) inputData \/ Forall (fun x => x <= threshold) inputData ->
  countPeaks now inputData data = data.
Proof.
  intros H. rewrite SpeechRateFacts.countPeaks_spec.
  assert (E : edges inputData = 0%nat).
  { destruct inputData as [| x0 rest]; [reflexivity |]. cbn [edges].
    destruct H as [H | H]; inversion_clear H as [| ? ? H0 Hrest].
    - apply edges_above; assumption.
    - apply edges_below; assumption. }
  rewrite E. reflexivity.
Qed.

Lemma steady_buffer_counts_nothing_witness :
  countPeaks 5000 [1 # 2; 3 # 4; 1 # 2] (mkData 3 0 4000) = mkData 3 0 4000.
Proof.
  apply (steady_buffer_counts_nothing 5000 [1 # 2; 3 # 4; 1 # 2] (mkData 3 0 4000)).
  left. repeat constructor.
Defined.

End CaptureFacts.

(** ** Nudge advisory manager over runs *)

Module AdvisoryRunFacts.
Import Advisory AdvisoryInvariant.

(** X13: over any sequence of advisory calls, from whatever closures, and
    of removal timers, the set of active nudges never holds more than one
    nudge. *)
Theorem cell_holds_at_most_one (actions : list Action) :
  (length (nudgeCell (run initial actions)) <= 1)%nat.
Proof.
  apply AdvisoryFacts.run_at_most_one. cbn. lia.
Qed.

(** X14: an admitted nudge arms one removal timer, due 5000 ms after the
    admission; when that timer goes off the nudge is removed and the
    active set is empty, while a timer left by another nudge (one with a
    different id) leaves the active nudge in place. *)
Theorem removal_timer (nudges : list Nudge) (now : Z) (rnd : string)
    (type : NudgeType) (message : string) (st : State) :
  admits nudges now type st = true ->
  let st1 := addNudge nudges now rnd type message st in
  timers st1 = timers st ++ [((now + 5000)%Z, rnd)]
  /\ nudgeCell (removeNudge rnd st1) = []
  /\ (forall other, other <> rnd ->
        nudgeCell (removeNudge other st1) = [mkNudge rnd type message now])
  /\ lastNudgeTime (removeNudge rnd st1) = lastNudgeTime st1.
Proof.
  intros A. cbv zeta. rewrite (AdvisoryFacts.addNudge_admitted _ _ rnd _ message _ A).
  unfold removeNudge. cbn [nudgeCell lastNudgeTime timers id].
  split; [reflexivity |]. split.
  - cbn. destruct (decide (rnd <> rnd)) as [N | _]; [contradiction | reflexivity].
  - split; [| reflexivity]. intros other Ne. cbn.
    destruct (decide (rnd <> other)) as [_ | N]; [reflexivity |].
    exfalso. apply N. congruence.
Qed.

Lemma removal_timer_witness :
  let st1 := addNudge [] 1700000000000 "0.25" audio "Speaking too fast. Breathe." initial in
  timers st1 = timers initial ++ [((1700000000000 + 5000)%Z, "0.25")]
  /\ nudgeCell (removeNudge "0.25" st1) = []
  /\ (forall other, other <> "0.25" ->
        nudgeCell (removeNudge other st1)
        = [mkNudge "0.25" audio "Speaking too fast. Breathe." 1700000000000])
  /\ lastNudgeTime (removeNudge "0.25" st1) = lastNudgeTime st1.
Proof.
  apply (removal_timer [] 1700000000000 "0.25" audio "Speaking too fast. Breathe." initial).
  reflexivity.
Defined.

Lemma step_ledger (st : State) (a : Action) (type : NudgeType) :
  is_Some (lastNudgeTime st !! type) -> is_Some (lastNudgeTime (step st a) !! type).
Proof.
  intros H. destruct a as [nudges now rnd t message | nid]; cbn [step].
  - destruct (admits nudges now t st) eqn:A.
    + rewrite (AdvisoryFacts.addNudge_admitted _ _ rnd _ message _ A). cbn [lastNudgeTime].
      destruct (decide (t = type)) as [-> | Ne].
      * rewrite lookup_insert_eq. eauto.
      * rewrite lookup_insert_ne by exact Ne. exact H.
    + rewrite (AdvisoryFacts.addNudge_rejected _ _ rnd _ message _ A). exact H.
  - exact H.
Qed.

(** X15: the cooldown ledger is never cleared: over any sequence of
    advisory calls and removal timers a category that has an entry keeps
    one, and a call for one category leaves the entries of all other
    categories as they were. *)
Theorem ledger_never_cleared (st : State) (actions : list Action) (type : NudgeType) :
  (is_Some (lastNudgeTime st !! type) ->
   is_Some (lastNudgeTime (run st actions) !! type))
  /\ (forall nudges now rnd other message,
        other <> type ->
        lastNudgeTime (addNudge nudges now rnd other message st) !! type
        = lastNudgeTime st !! type).
Proof.
  split.
  - revert st. induction actions as [| a actions IH]; intros st H; [exact H |].
    cbn [run fold_left]. apply IH, step_ledger, H.
  - intros nudges now rnd other message Ne.
    destruct (admits nudges now other st) eqn:A.
    + rewrite (AdvisoryFacts.addNudge_admitted _ _ rnd _ message _ A). cbn [lastNudgeTime].
      apply lookup_insert_ne, Ne.
    + rewrite (AdvisoryFacts.addNudge_rejected _ _ rnd _ message _ A). reflexivity.
Qed.

Lemma step_stamped (st : State) (a : Action) : stamped st -> stamped (step st a).
Proof.
  unfold stamped. intros H. destruct a as [nudges now rnd t message | nid]; cbn [step].
  - destruct (admits nudges now t st) eqn:A.
    + rewrite (AdvisoryFacts.addNudge_admitted _ _ rnd _ message _ A).
      cbn [nudgeCell lastNudgeTime]. repeat constructor.
      cbn [type timestamp]. apply lookup_insert_eq.
    + rewrite (AdvisoryFacts.addNudge_rejected _ _ rnd _ message _ A). exact H.
  - unfold removeNudge. cbn [nudgeCell lastNudgeTime].
    apply Forall_forall. intros n I. rewrite Forall_forall in H. apply H.
    apply list_elem_of_filter in I. apply I.
Qed.

Lemma run_stamped (actions : list Action) (st : State) :
  stamped st -> stamped (run st actions).
Proof.
  revert st. induction actions as [| a actions IH]; intros st H; [exact H |].
  cbn [run fold_left]. apply IH, step_stamped, H.
Qed.

(** X16: in any state a session reaches, a nudge that is active is safe
    from its own category: a trigger of the same category that arrives
    less than 30000 ms after the nudge was created is rejected and changes
    nothing, whichever closure makes the call. *)
Theorem active_nudge_protected (actions : list Action) (n : Nudge)
    (nudges : list Nudge) (now : Z) (rnd message : string) :
  let st := run initial actions in
  n ∈ nudgeCell st ->
  (now - timestamp n < 30000)%Z ->
  addNudge nudges now rnd (type n) message st = st.
Proof.
  cbv zeta. intros I C.
  assert (S : stamped (run initial actions)) by (apply run_stamped; constructor).
  unfold stamped in S. rewrite Forall_forall in S. specialize (S n I).
  apply AdvisoryFacts.addNudge_rejected. unfold admits.
  rewrite S. cbn [default]. apply andb_false_iff. right.
  apply negb_false_iff, Z.ltb_lt. exact C.
Qed.

Lemma active_nudge_protected_witness :
  let actions := [Add [] 1700000000000 "0.25" audio "Speaking too fast. Breathe."] in
  let n := mkNudge "0.25" audio "Speaking too fast. Breathe." 1700000000000 in
  addNudge [] 1700000004000 "0.5" (type n) "Sounding uncertain. Project confidence."
           (run initial actions)
  = run initial actions.
Proof.
  apply (active_nudge_protected
           [Add [] 1700000000000 "0.25" audio "Speaking too fast. Breathe."]
           (mkNudge "0.25" audio "Speaking too fast. Breathe." 1700000000000)).
  - vm_compute. left.
  - cbn. lia.
Defined.

End AdvisoryRunFacts.

(** ** Visual analyzer: counters, failures and the summary *)

Module SummaryFacts.
Import Advisory Vision Summary.

Section Counters.

Context {Video : Type}.
Variable models : Landmarkers Video.

(** One call keeps the counters counting, and never lowers one. *)
Lemma analyze_counted (s : Service) (video : Video) (timestamp : Q) :
  counted s ->
  let s' := (analyze models s video timestamp).1.2 in
  counted s'
  /\ (totalFrames s <= totalFrames s' <= totalFrames s + 1)%Z
  /\ (eyeContactFrames s <= eyeContactFrames s')%Z
  /\ (goodPostureFrames s <= goodPostureFrames s')%Z.
Proof.
  unfold counted. intros (E & P). cbv zeta. unfold analyze.
  destruct (negb (isInitialized s) || negb (faceLandmarker s) || negb (poseLandmarker s));
    [cbn; lia |].
  destruct (Qle_bool timestamp (lastTimestamp s) || Qle_bool timestamp 0); [cbn; lia |].
  unfold detect.
  destruct (detectFace models video timestamp) as [face |]; [| cbn; lia].
  destruct (detectPose models video timestamp) as [pose |]; [| cbn; lia].
  destruct (shoulderIssue pose) as [[issue msg] |]; [| cbn; lia].
  cbn. destruct (eyeIssue face), issue; lia.
Qed.

(** X17: from a reset service, over any sequence of calls of [analyze],
    the eye-contact counter and the posture counter stay between 0 and
    the frame counter, and the frame counter is at most the number of
    calls that got past the timestamp guard. *)
Theorem counters_count (s : Service) (frames : list (Video * Q)) :
  let '(s', accepted) := analyzeAll models (reset s) frames in
  counted s' /\ (0 <= totalFrames s' <= Z.of_nat (length accepted))%Z.
Proof.
  assert (G : forall frames s0, counted s0 ->
            let '(s', accepted) := analyzeAll models s0 frames in
            counted s'
            /\ (totalFrames s0 <= totalFrames s'
                <= totalFrames s0 + Z.of_nat (length accepted))%Z).
  { clear. induction frames as [| [video timestamp] frames IH]; intros s0 C.
    - cbn. split; [exact C | lia].
    - cbn [analyzeAll].
      destruct (analyze_counted s0 video timestamp C) as (C1 & T & _).
      specialize (IH _ C1).
      destruct (analyzeAll models (analyze models s0 video timestamp).1.2 frames)
        as [s2 accepted].
      destruct IH as (C2 & T2). split; [exact C2 |].
      rewrite length_app, Nat2Z.inj_add.
      destruct (accepts s0 timestamp) eqn:A; cbn [length].
      + lia.
      + rewrite (VisionFacts.analyze_rejected models s0 video timestamp A) in *.
        cbn [fst snd] in *. lia. }
  specialize (G frames (reset s)).
  destruct (analyzeAll models (reset s) frames) as [s' accepted].
  destruct G as (C & T); [unfold counted; cbn; lia |].
  split; [exact C |]. cbn [reset totalFrames] in T. lia.
Qed.

(** X18: a detection that throws uses up its timestamp: the call returns
    null with the counters as they were, but the timestamp is stored, so
    calling again with the same timestamp is turned away before any
    detection runs. *)
Theorem failed_detection_consumes_timestamp (s : Service) (video : Video)
    (timestamp : Q) :
  accepts s timestamp = true ->
  detectFace models video timestamp = None ->
  let '(result, s', calls) := analyze models s video timestamp in
  result = None
  /\ calls = [FaceDetect timestamp]
  /\ lastTimestamp s' = timestamp
  /\ totalFrames s' = totalFrames s
  /\ eyeContactFrames s' = eyeContactFrames s
  /\ goodPostureFrames s' = goodPostureFrames s
  /\ analyze models s' video timestamp = (None, s', []).
Proof.
  intros A F. unfold accepts in A.
  apply andb_true_iff in A. destruct A as [A G].
  apply andb_true_iff in A. destruct A as [A P].
  apply andb_true_iff in A. destruct A as [I Fa].
  apply negb_true_iff in G.
  unfold analyze at 1. rewrite I, Fa, P, G. cbn [negb orb].
  unfold detect. rewrite F. repeat split.
  apply VisionFacts.analyze_rejected. unfold accepts. cbn [lastTimestamp].
  rewrite !andb_false_iff, negb_false_iff, orb_true_iff, Qle_bool_iff.
  right. left. apply Qle_refl.
Qed.

End Counters.

(** Models whose face detection throws. *)
Lemma failed_detection_consumes_timestamp_witness :
  let broken := mkLandmarkers unit (fun _ _ => None) (fun _ _ => None) in
  let '(result, s', calls) := analyze broken loaded tt 100 in
  result = None
  /\ calls = [FaceDetect 100]
  /\ lastTimestamp s' = 100
  /\ totalFrames s' = totalFrames loaded
  /\ eyeContactFrames s' = eyeContactFrames loaded
  /\ goodPostureFrames s' = goodPostureFrames loaded
  /\ analyze broken s' tt 100 = (None, s', []).
Proof.
  apply (failed_detection_consumes_timestamp
           (mkLandmarkers unit (fun _ _ => None) (fun _ _ => None)) loaded tt 100);
    reflexivity.
Defined.

Section Percent.

Variable fl : Q -> Q.
Hypothesis fl_monotone : forall x y, x <= y -> fl x <= fl y.
Hypothesis fl_0 : fl 0 == 0.
Hypothesis fl_1 : fl 1 == 1.
Hypothesis fl_100 : fl 100 == 100.

Lemma fl_between (x lo hi : Q) :
  fl lo == lo -> fl hi == hi -> lo <= x <= hi -> lo <= fl x <= hi.
Proof.
  intros L H [A B]. pose proof (fl_monotone _ _ A). pose proof (fl_monotone _ _ B).
  split; lra.
Qed.

Lemma percent_range (part total : Z) :
  (0 <= part <= total)%Z -> (0 < total)%Z ->
  (0 <= percent fl part total <= 100)%Z
  /\ (part = total -> percent fl part total = 100%Z)
  /\ (part = 0%Z -> percent fl part total = 0%Z).
Proof.
  intros [P0 PT] T. unfold percent, Math_round.
  assert (Tq : 0 < inject_Z total).
  { change 0 with (inject_Z 0). rewrite <- Zlt_Qlt. exact T. }
  assert (Pq : 0 <= inject_Z part).
  { change 0 with (inject_Z 0). rewrite <- Zle_Qle. exact P0. }
  assert (PTq : inject_Z part <= inject_Z total) by (rewrite <- Zle_Qle; exact PT).
  assert (R : 0 <= inject_Z part / inject_Z total <= 1).
  { split.
    - apply Qle_shift_div_l; [exact Tq | lra].
    - apply Qle_shift_div_r; [exact Tq | lra]. }
  pose proof (fl_between _ 0 1 fl_0 fl_1 R) as R1.
  assert (R2 : 0 <= fl (inject_Z part / inject_Z total) * 100 <= 100) by (split; lra).
  pose proof (fl_between _ 0 100 fl_0 fl_100 R2) as R3.
  set (v := fl (fl (inject_Z part / inject_Z total) * 100)) in *.
  split; [| split].
  - pose proof (Qfloor_resp_le 0 (v + (1 # 2))) as A.
    pose proof (Qfloor_resp_le (v + (1 # 2)) (201 # 2)) as B.
    change (Qfloor 0) with 0%Z in A. change (Qfloor (201 # 2)) with 100%Z in B.
    split; [apply A | apply B]; lra.
  - intros ->.
    assert (E : inject_Z total / inject_Z total == 1) by (field; lra).
    assert (V : v == 100).
    { subst v.
      assert (F1 : fl (inject_Z total / inject_Z total) == 1).
      { pose proof (fl_between (inject_Z total / inject_Z total) 1 1 fl_1 fl_1). lra. }
      pose proof (fl_between (fl (inject_Z total / inject_Z total) * 100) 100 100
                    fl_100 fl_100). lra. }
    apply CodecFacts.Qfloor_unique; change (inject_Z 100) with 100; lra.
  - intros ->.
    assert (E : inject_Z 0 / inject_Z total == 0) by (field; lra).
    assert (V : v == 0).
    { subst v.
      assert (F1 : fl (inject_Z 0 / inject_Z total) == 0).
      { pose proof (fl_between (inject_Z 0 / inject_Z total) 0 0 fl_0 fl_0). lra. }
      pose proof (fl_between (fl (inject_Z 0 / inject_Z total) * 100) 0 0 fl_0 fl_0).
      lra. }
    apply CodecFacts.Qfloor_unique; change (inject_Z 0) with 0; lra.
Qed.

(** X19: the summary never divides by zero and never shows a percentage
    outside 0..100: with no frame analyzed it is the "no data" sentence;
    otherwise, for counters that count, it is the three-line summary with
    two whole percentages between 0 and 100.  The rounding to doubles of
    the quotient and of the product is any monotone rounding that is
    exact on 0, 1 and 100. *)
Theorem getSummary_percentages (s : Service) :
  counted s ->
  (totalFrames s = 0%Z /\ getSummary fl s = "No visual analysis data available.")
  \/ (exists eye posture : Z,
        (0 < totalFrames s)%Z
        /\ (0 <= eye <= 100)%Z /\ (0 <= posture <= 100)%Z
        /\ getSummary fl s
           = ("VISUAL ANALYSIS SUMMARY:" ++ nl
              ++ "    - Eye Contact Maintained: " ++ pretty eye ++ "%" ++ nl
              ++ "    - Good Posture Maintained: " ++ pretty posture ++ "%")%string).
Proof.
  intros (E & P). unfold getSummary.
  destruct (Z.eqb_spec (totalFrames s) 0) as [Z0 | NZ].
  - left. split; [exact Z0 | reflexivity].
  - right. assert (Pos : (0 < totalFrames s)%Z) by lia.
    exists (percent fl (eyeContactFrames s) (totalFrames s)),
           (percent fl (goodPostureFrames s) (totalFrames s)).
    split; [exact Pos |].
    split; [apply percent_range; assumption |].
    split; [apply percent_range; assumption | reflexivity].
Qed.

End Percent.

Lemma getSummary_percentages_witness :
  let s := mkService true true true 900 3 2 3 in
  (totalFrames s = 0%Z
   /\ getSummary (fun x => x) s = "No visual analysis data available.")
  \/ (exists eye posture : Z,
        (0 < totalFrames s)%Z
        /\ (0 <= eye <= 100)%Z /\ (0 <= posture <= 100)%Z
        /\ getSummary (fun x => x) s
           = ("VISUAL ANALYSIS SUMMARY:" ++ nl
              ++ "    - Eye Contact Maintained: " ++ pretty eye ++ "%" ++ nl
              ++ "    - Good Posture Maintained: " ++ pretty posture ++ "%")%string).
Proof.
  apply (getSummary_percentages (fun x => x)
           (fun x y H => H) (Qeq_refl 0) (Qeq_refl 1) (Qeq_refl 100)
           (mkService true true true 900 3 2 3)).
  unfold counted. cbn. lia.
Defined.

(** Two frames out of three with eye contact, all three with good
    posture. *)
Example getSummary_two_thirds :
  getSummary (fun x => x) (mkService true true true 900 3 2 3)
  = ("VISUAL ANALYSIS SUMMARY:" ++ nl
     ++ "    - Eye Contact Maintained: 67%" ++ nl
     ++ "    - Good Posture Maintained: 100%")%string.
Proof. vm_compute. reflexivity. Qed.

End SummaryFacts.

(** ** Inbound events and the transcript *)

Module InboxFacts.
Import PCM Transport Report Inbox Vision Summary.

(** X20: the transcript is append-only under inbound messages.  The
    handler throws exactly when the message carries an audio string that
    is not empty and that [atob] rejects, and then before it has changed
    anything.  Otherwise the new transcript is the old one followed by
    the items of the message: one "model" item for the text of the model
    turn, one "model" item for the output transcription and one "user"
    item for the input transcription, in this order, each only when its
    text is there and not empty; exactly these items are passed to the
    transcript callback, in the same order, and the decoded audio, when
    there is some, is passed to the audio callback before them. *)
Theorem onmessage_appends (now1 now2 now3 : Z) (message : ServerMessage)
    (transcript : list TranscriptItem) :
  let item := fun role field now =>
    match present field with
    | Some text => [mkTranscriptItem role text now]
    | None => []
    end in
  let items := (item "model" (modelText message) now1
                ++ item "model" (outputTranscription message) now2
                ++ item "user" (inputTranscription message) now3)%list in
  (onmessage now1 now2 now3 message transcript = None
   <-> exists audioStr,
         present (inlineData message) = Some audioStr
         /\ base64ToUint8Array audioStr = None)
  /\ (forall transcript' calls,
        onmessage now1 now2 now3 message transcript = Some (transcript', calls) ->
        transcript' = (transcript ++ items)%list
        /\ transcribed calls = items
        /\ (length items <= 3)%nat
        /\ Forall (fun i => (role i = "model"%string \/ role i = "user"%string)
                            /\ text i <> ""%string) items
        /\ calls
           = (match present (inlineData message) with
              | Some audioStr =>
                  match base64ToUint8Array audioStr with
                  | Some audioData => [OnAudioData audioData]
                  | None => []
                  end
              | None => []
              end ++ map OnTranscript items)%list).
Proof.
  cbv zeta.
  assert (N : forall role field now (t : list TranscriptItem) (c : list Callback),
            note role field now (t, c)
            = ((t ++ match present field with
                     | Some text => [mkTranscriptItem role text now]
                     | None => []
                     end)%list,
               (c ++ map OnTranscript
                       match present field with
                       | Some text => [mkTranscriptItem role text now]
                       | None => []
                       end)%list)).
  { intros role field now t c. unfold note. cbn [fst snd].
    destruct (present field); [reflexivity |]. cbn [map]. rewrite !app_nil_r. reflexivity. }
  assert (T : forall l, transcribed (map OnTranscript l) = l).
  { induction l as [| i l IH]; [reflexivity |]. cbn. f_equal. exact IH. }
  assert (P : forall role field now,
            Forall (fun i => Report.role i = role /\ text i <> ""%string)
                   match present field with
                   | Some text => [mkTranscriptItem role text now]
                   | None => []
                   end
            /\ (length match present field with
                       | Some text => [mkTranscriptItem role text now]
                       | None => []
                       end <= 1)%nat).
  { intros role field now. unfold present. destruct field as [s |]; [| split; [constructor | cbn; lia]].
    destruct (String.eqb_spec s "") as [-> | Ne]; [split; [constructor | cbn; lia] |].
    split; [| cbn; lia]. repeat constructor. exact Ne. }
  assert (Tail : forall audio, transcribed audio = [] ->
            forall transcript' calls,
            Some (note "user" (inputTranscription message) now3
                    (note "model" (outputTranscription message) now2
                       (note "model" (modelText message) now1 (transcript, audio))))
            = Some (transcript', calls) ->
            let items :=
              (match present (modelText message) with
               | Some text => [mkTranscriptItem "model" text now1]
               | None => []
               end
               ++ match present (outputTranscription message) with
                  | Some text => [mkTranscriptItem "model" text now2]
                  | None => []
                  end
               ++ match present (inputTranscription message) with
                  | Some text => [mkTranscriptItem "user" text now3]
                  | None => []
                  end)%list in
            transcript' = (transcript ++ items)%list
            /\ transcribed calls = items
            /\ (length items <= 3)%nat
            /\ Forall (fun i => (role i = "model"%string \/ role i = "user"%string)
                                /\ text i <> ""%string) items
            /\ calls = (audio ++ map OnTranscript items)%list).
  { intros audio TA transcript' calls H. cbv zeta.
    rewrite !N in H. injection H as <- <-.
    destruct (P "model"%string (modelText message) now1) as [F1 L1].
    destruct (P "model"%string (outputTranscription message) now2) as [F2 L2].
    destruct (P "user"%string (inputTranscription message) now3) as [F3 L3].
    split; [rewrite <- !app_assoc; reflexivity |].
    split.
    { rewrite <- !app_assoc, <- !map_app.
      unfold transcribed at 1. rewrite flat_map_app. fold (transcribed audio).
      rewrite TA. cbn [app]. apply T. }
    split; [rewrite !length_app; lia |].
    split; [| rewrite !map_app, <- !app_assoc; reflexivity].
    repeat (apply Forall_app; split);
      (eapply Forall_impl; [eassumption |]); cbn beta; intros i [R X]; auto. }
  unfold onmessage.
  destruct (present (inlineData message)) as [audioStr |].
  - destruct (base64ToUint8Array audioStr) as [audioData |] eqn:B.
    + split.
      * split; [discriminate |]. intros (a & [= <-] & E). congruence.
      * intros transcript' calls H. apply (Tail [OnAudioData audioData] eq_refl _ _ H).
    + split.
      * split; [| reflexivity]. intros _. exists audioStr. auto.
      * intros transcript' calls H. discriminate H.
  - split.
    + split; [discriminate |]. intros (a & E & _). discriminate.
    + intros transcript' calls H. apply (Tail [] eq_refl _ _ H).
Qed.

(** A message with audio and both transcriptions. *)
Example onmessage_full :
  onmessage 10 11 12 (mkServerMessage (Some "AIA=") None (Some "Hello") (Some "Hi")) []
  = Some ([mkTranscriptItem "model" "Hello" 11; mkTranscriptItem "user" "Hi" 12],
          [OnAudioData [0; 128]%Z;
           OnTranscript (mkTranscriptItem "model" "Hello" 11);
           OnTranscript (mkTranscriptItem "user" "Hi" 12)]).
Proof. reflexivity. Qed.

(** X21: ending a session in which no frame was analyzed: whatever the
    rounding of doubles, the transcript gets one item more, a
    "SYSTEM_NOTE" that says that no visual data is available (and no
    percentage), after all the items it had; without a running recorder
    that transcript is handed on at once with a null recording, and with
    a running recorder nothing is handed on before the timer. *)
Theorem end_without_frames (fl : Q -> Q) (s : Service) (now : Z)
    (recorder : Recorder) (transcript : list TranscriptItem) (Chunk : Type) :
  totalFrames s = 0%Z ->
  let note := mkTranscriptItem "SYSTEM_NOTE" "No visual analysis data available." now in
  let '(transcript', handed) :=
    handleEndSession (Chunk := Chunk) (getSummary fl s) now recorder transcript in
  transcript' = transcript ++ [note]
  /\ (recorder <> Recording -> handed = Some (mkFinish (transcript ++ [note]) None))
  /\ (recorder = Recording ->
      handed = None
      /\ forall (chunks : list Chunk) late,
           finishLater chunks (transcript' ++ late)
           = mkFinish (transcript ++ [note] ++ late) (Some chunks)).
Proof.
  intros Z0. cbv zeta. unfold handleEndSession, getSummary, addLocalTranscriptItem.
  rewrite Z0. cbn [Z.eqb].
  destruct recorder; (split; [reflexivity |]); split;
    try (intros _; reflexivity); try (intros N; (contradiction || discriminate)).
  intros _. split; [reflexivity |]. intros chunks late.
  unfold finishLater. rewrite <- app_assoc. reflexivity.
Qed.

Lemma end_without_frames_witness :
  let note := mkTranscriptItem "SYSTEM_NOTE" "No visual analysis data available." 99 in
  let '(transcript', handed) :=
    handleEndSession (Chunk := unit) (getSummary (fun x => x) (reset loaded)) 99
                     NoRecorder [mkTranscriptItem "user" "Hi" 12] in
  transcript' = [mkTranscriptItem "user" "Hi" 12] ++ [note]
  /\ (NoRecorder <> Recording ->
      handed = Some (mkFinish ([mkTranscriptItem "user" "Hi" 12] ++ [note]) None))
  /\ (NoRecorder = Recording ->
      handed = None
      /\ forall (chunks : list unit) late,
           finishLater chunks (transcript' ++ late)
           = mkFinish ([mkTranscriptItem "user" "Hi" 12] ++ [note] ++ late) (Some chunks)).
Proof.
  apply (end_without_frames (fun x => x) (reset loaded) 99 NoRecorder
           [mkTranscriptItem "user" "Hi" 12] unit).
  reflexivity.
Defined.

End InboxFacts.

(** ** The countdown *)

Module CountdownFacts.
Import Countdown.

Lemma ticks_before_end (k : nat) (timeLeft : Z) :
  (Z.of_nat k < timeLeft)%Z ->
  ticks k timeLeft = ((timeLeft - Z.of_nat k)%Z, repeat false k).
Proof.
  revert timeLeft. induction k as [| k IH]; intros timeLeft H.
  - cbn. f_equal. lia.
  - cbn [ticks]. unfold tick.
    destruct (Z.leb_spec timeLeft 1) as [L | G]; [lia |].
    rewrite IH by lia. cbn [repeat]. f_equal. lia.
Qed.

Lemma ticks_nonneg (k : nat) (timeLeft : Z) :
  (0 <= timeLeft)%Z -> (0 <= fst (ticks k timeLeft))%Z.
Proof.
  revert timeLeft. induction k as [| k IH]; intros timeLeft H; [exact H |].
  cbn [ticks]. unfold tick.
  destruct (Z.leb_spec timeLeft 1) as [L | G].
  - specialize (IH 0%Z ltac:(lia)). destruct (ticks k 0). exact IH.
  - specialize (IH (timeLeft - 1)%Z ltac:(lia)). destruct (ticks k (timeLeft - 1)). exact IH.
Qed.

(** X22: a countdown from n seconds, n at least 1, ends the session at
    its n-th tick and not before: after k < n ticks n - k seconds are
    left and no tick has ended the session, the n-th tick leaves 0 and
    ends it; the time left never goes below 0; and a tick at 0 ends the
    session once more, so the interval has to be cleared for the
    countdown to stop ending it. *)
Theorem countdown_ends_once (n : nat) :
  (1 <= n)%nat ->
  (forall k, (k < n)%nat -> ticks k (Z.of_nat n) = ((Z.of_nat n - Z.of_nat k)%Z, repeat false k))
  /\ ticks n (Z.of_nat n) = (0%Z, repeat false (n - 1) ++ [true])
  /\ (forall k, (0 <= fst (ticks k (Z.of_nat n)))%Z)
  /\ tick 0 = (0%Z, true).
Proof.
  intros H. split; [| split; [| split]].
  - intros k Hk. apply ticks_before_end. lia.
  - assert (G : forall m t, t = Z.of_nat (S m) ->
              ticks (S m) t = (0%Z, repeat false m ++ [true])).
    { induction m as [| m IH]; intros t ->.
      - reflexivity.
      - cbn [ticks] in *. unfold tick at 1.
        destruct (Z.leb_spec (Z.of_nat (S (S m))) 1) as [L | G]; [lia |].
        specialize (IH (Z.of_nat (S (S m)) - 1)%Z ltac:(lia)).
        destruct (tick (Z.of_nat (S (S m)) - 1)) as [r e].
        destruct (ticks m r) as [f l]. injection IH as -> ->. reflexivity. }
    destruct n as [| m]; [lia |]. rewrite (G m _ eq_refl).
    replace (S m - 1)%nat with m by lia. reflexivity.
  - intros k. apply ticks_nonneg. lia.
  - reflexivity.
Qed.

Lemma countdown_ends_once_witness :
  (forall k, (k < 900)%nat ->
     ticks k (Z.of_nat 900) = ((Z.of_nat 900 - Z.of_nat k)%Z, repeat false k))
  /\ ticks 900 (Z.of_nat 900) = (0%Z, repeat false (900 - 1) ++ [true])
  /\ (forall k, (0 <= fst (ticks k (Z.of_nat 900)))%Z)
  /\ tick 0 = (0%Z, true).
Proof. apply (countdown_ends_once 900). lia. Defined.

End CountdownFacts.

(** ** The report screen over time *)

Module LoadingFacts.
Import Report Loading.

Lemma step_keeps (s : Screen) (a : Action) :
  (loadingStepIndex s < LOADING_STEPS)%nat ->
  (loadingStepIndex (step s a) < LOADING_STEPS)%nat
  /\ (loading s = false -> loading (step s a) = false).
Proof.
  intros H. destruct a as [| result |]; cbn [step].
  - destruct (loading s) eqn:L; cbn [loadingStepIndex loading].
    + unfold advance, LOADING_STEPS in *.
      destruct (Nat.ltb_spec (loadingStepIndex s) (5 - 1)); split; auto; lia.
    + split; auto.
  - cbn [loadingStepIndex loading]. unfold LOADING_STEPS. split; [lia | auto].
  - unfold finished. cbn [loadingStepIndex loading]. split; auto.
Qed.

Lemma generated_stays (actions : list Action) (result : option Json) :
  fold_left (fun acc a => match a with Generated r => Some r | _ => acc end)
            actions (Some result) <> None.
Proof.
  revert result. induction actions as [| a actions IH]; intros result; [discriminate |].
  cbn [fold_left]. destruct a; apply IH.
Qed.

(** The report after a run is the one the last generation set, and the
    one before the run when no generation ended in it. *)
Lemma run_report (actions : list Action) (s : Screen) (acc : option (option Json)) :
  match acc with
  | None => True
  | Some (Some data) => report s = setReport data
  | Some None => report s = Some fallbackReport
  end ->
  report (run s actions)
  = match fold_left (fun acc a => match a with Generated result => Some result | _ => acc end)
                    actions acc with
    | None => report s
    | Some (Some data) => setReport data
    | Some None => Some fallbackReport
    end.
Proof.
  revert s acc. induction actions as [| a actions IH]; intros s acc H.
  - cbn. destruct acc as [[data |] |]; auto.
  - cbn [run fold_left]. fold (run (step s a) actions).
    destruct a as [| result |].
    + rewrite (IH (step s Tick) acc).
      * cbn [step]. destruct (loading s); [| reflexivity].
        destruct (fold_left _ actions acc) as [[data |] |]; reflexivity.
      * cbn [step]. destruct (loading s); exact H.
    + rewrite (IH (step s (Generated result)) (Some result)).
      * destruct (fold_left _ actions (Some result)) as [[data |] |] eqn:E; try reflexivity.
        exfalso. exact (generated_stays actions result E).
      * cbn [step report]. destruct result; reflexivity.
    + rewrite (IH (step s Timer) acc); [| exact H].
      destruct (fold_left _ actions acc) as [[data |] |]; reflexivity.
Qed.

(** X23: on the report screen, whatever the order of interval ticks, of
    ends of the generation and of timers that end loading, the index of
    the loading step stays below the number of steps, so it always names
    a step; once loading has ended it does not start again; and the
    report the screen holds is the one the generation that ended last
    set: what it generated (null when that was a JSON null) or, when it
    failed, the fallback report; before any generation has ended it is
    null.  Ticks and timers never change it. *)
Theorem loading_stays_in_range (actions later : list Action) :
  let s := run mounted actions in
  (loadingStepIndex s < LOADING_STEPS)%nat
  /\ (loading s = false -> loading (run s later) = false)
  /\ report s
     = match lastGenerated actions with
       | None => None
       | Some (Some data) => setReport data
       | Some None => Some fallbackReport
       end.
Proof.
  cbv zeta.
  assert (G : forall acts s, (loadingStepIndex s < LOADING_STEPS)%nat ->
            (loadingStepIndex (run s acts) < LOADING_STEPS)%nat
            /\ (loading s = false -> loading (run s acts) = false)).
  { induction acts as [| a acts IH]; intros s H; [cbn; auto |].
    cbn [run fold_left]. destruct (step_keeps s a H) as (A & B).
    destruct (IH (step s a) A) as (A' & B'). auto. }
  destruct (G actions mounted) as (A & _); [cbn; unfold LOADING_STEPS; lia |].
  split; [exact A |]. split; [apply (G later _ A) |].
  unfold lastGenerated. rewrite (run_report actions mounted None I). reflexivity.
Qed.

Section EmptyResponse.

Variable platform : Platform.

(** X24: the fallback is not used when the model answers with no text:
    an undefined or empty text is parsed as "{}", so with a parser that
    reads "{}" as the empty object [generateReport] returns the empty
    object, and when the timer of the [finally] block has gone off the
    screen is past its loader and the report it holds is the empty
    object, not the fallback report; that object has no [dimensions]
    (nor any other property) and does not conform to the schema. *)
Theorem empty_response_keeps_empty_object (transcript : list TranscriptItem)
    (config : UserConfig) (s : Screen) :
  generateContent platform (prompt platform transcript config) = Response None
  \/ generateContent platform (prompt platform transcript config) = Response (Some "") ->
  JSON_parse platform "{}" = Some (JObj []) ->
  let s' := finished (generate platform transcript config s) in
  generateReport platform transcript config = Some (JObj [])
  /\ loading s' = false
  /\ report s' = Some (JObj [])
  /\ report s' <> Some fallbackReport
  /\ property "dimensions" [] = None
  /\ conforms REPORT_JSON_SCHEMA (JObj []) = false.
Proof.
  intros R P. cbv zeta.
  assert (G : generateReport platform transcript config = Some (JObj [])).
  { unfold generateReport. destruct R as [-> | ->]; exact P. }
  split; [exact G |]. unfold generate. rewrite G. cbn [finished report loading].
  split; [reflexivity |]. split; [reflexivity |].
  split; [discriminate |]. split; [reflexivity |].
  vm_compute. reflexivity.
Qed.

End EmptyResponse.

Lemma empty_response_keeps_empty_object_witness :
  let silent := mkPlatform (fun _ _ => ""%string) (fun _ => Response None) parseEmptyObject in
  let config := mkUserConfig "Engineer" "" 15 PRACTICE in
  let s' := finished (generate silent [] config mounted) in
  generateReport silent [] config = Some (JObj [])
  /\ loading s' = false
  /\ report s' = Some (JObj [])
  /\ report s' <> Some fallbackReport
  /\ property "dimensions" [] = None
  /\ conforms REPORT_JSON_SCHEMA (JObj []) = false.
Proof.
  apply (empty_response_keeps_empty_object
           (mkPlatform (fun _ _ => ""%string) (fun _ => Response None) parseEmptyObject)
           [] (mkUserConfig "Engineer" "" 15 PRACTICE) mounted).
  - left. reflexivity.
  - reflexivity.
Defined.

End LoadingFacts.

(** ** Outbound video frames *)

Module FramesFacts.
Import Frames.

Lemma after_app (prefix s : string) : after prefix (prefix ++ s)%string = Some s.
Proof.
  induction prefix as [| c prefix IH]; [reflexivity |].
  change (String c prefix ++ s)%string with (String c (prefix ++ s)%string).
  cbn [after]. rewrite Ascii.eqb_refl. exact IH.
Qed.

Lemma skipWord_app (w rest : string) :
  allWord w = true -> skipWord (w ++ String ";" rest)%string = String ";" rest.
Proof.
  induction w as [| c w IH]; intros H; [reflexivity |].
  cbn in H. apply andb_true_iff in H. destruct H as [C W].
  change (String c w ++ String ";" rest)%string
    with (String c (w ++ String ";" rest)%string).
  cbn [skipWord]. rewrite C. apply IH, W.
Qed.

(** X25: [sendVideoFrame] sends the payload of a data URI without its
    header: for every image subtype made of one or more word characters
    and every payload, the frame sent for
    "data:image/<subtype>;base64,<payload>" is the payload, as
    "image/jpeg"; and nothing is sent without a session. *)
Theorem sendVideoFrame_strips_header (subtype payload : string) :
  subtype <> ""%string -> allWord subtype = true ->
  sendVideoFrame true ("data:image/" ++ subtype ++ ";base64," ++ payload)%string
  = Some (Session.mkMedia "image/jpeg" payload)
  /\ sendVideoFrame false ("data:image/" ++ subtype ++ ";base64," ++ payload)%string
     = None.
Proof.
  intros N W. split; [| reflexivity].
  unfold sendVideoFrame, stripDataUri. cbn [negb].
  rewrite after_app.
  destruct subtype as [| c subtype]; [contradiction |].
  change (String c subtype ++ ";base64," ++ payload)%string
    with (String c (subtype ++ ";base64," ++ payload)%string).
  pose proof W as W'. cbn in W'. apply andb_true_iff in W'. destruct W' as [C _].
  rewrite C.
  change (String c (subtype ++ ";base64," ++ payload))%string
    with (String c subtype ++ String ";" ("base64," ++ payload))%string.
  rewrite (skipWord_app _ _ W).
  change (String ";" ("base64," ++ payload))%string with (";base64," ++ payload)%string.
  rewrite after_app. reflexivity.
Qed.

Lemma sendVideoFrame_strips_header_witness :
  sendVideoFrame true ("data:image/" ++ "jpeg" ++ ";base64," ++ "/9j/4AAQ")%string
  = Some (Session.mkMedia "image/jpeg" "/9j/4AAQ")
  /\ sendVideoFrame false ("data:image/" ++ "jpeg" ++ ";base64," ++ "/9j/4AAQ")%string
     = None.
Proof.
  apply (sendVideoFrame_strips_header "jpeg" "/9j/4AAQ"); [discriminate | reflexivity].
Defined.

(** A frame without the header, or with a header of another kind, is
    sent as it is. *)
Example sendVideoFrame_unchanged :
  sendVideoFrame true "/9j/4AAQ" = Some (Session.mkMedia "image/jpeg" "/9j/4AAQ")
  /\ sendVideoFrame true "data:text/plain;base64,AAAA"
     = Some (Session.mkMedia "image/jpeg" "data:text/plain;base64,AAAA")
  /\ sendVideoFrame true "data:image/;base64,AAAA"
     = Some (Session.mkMedia "image/jpeg" "data:image/;base64,AAAA").
Proof. repeat split. Qed.

End FramesFacts.

(** ** The resume excerpt of the prompts *)

Module PromptFacts.
Import Prompt.

Lemma trimStart_length (s : JsString) : (length (trimStart s) <= length s)%nat.
Proof.
  induction s as [| u s IH]; [reflexivity |].
  cbn [trimStart]. destruct (isWhiteSpace u); cbn [length]; lia.
Qed.

Lemma trim_length (s : JsString) : (length (trim s) <= length s)%nat.
Proof.
  unfold trim. rewrite length_rev.
  pose proof (trimStart_length (rev (trimStart s))) as A.
  rewrite length_rev in A. pose proof (trimStart_length s). lia.
Qed.

Lemma trimStart_blank (s : JsString) :
  Forall (fun u => isWhiteSpace u = true) s -> trimStart s = [].
Proof.
  induction 1 as [| u s Hu _ IH]; [reflexivity |].
  cbn [trimStart]. rewrite Hu. exact IH.
Qed.

(** X26: the resume excerpt in a prompt is bounded: whatever the resume,
    the resume section of the system instruction has at most 529 code
    units and the resume context of the report prompt at most 1026; and a
    resume of at most ten code units, or of white space only, however
    long, counts as no resume and gives the fixed "no resume" texts. *)
Theorem resume_excerpt_bounded (resume : JsString) :
  (length (resumeSection resume) <= 529)%nat
  /\ (length (resumeContext resume) <= 1026)%nat
  /\ ((length resume <= 10)%nat \/ Forall (fun u => isWhiteSpace u = true) resume ->
      resumeSection resume
      = units "CANDIDATE RESUME SUMMARY:" ++ [10%Z]
        ++ units "[No resume provided. Ask about their background generally.]"
      /\ resumeContext resume
         = units "User Resume Context: N/A (The user did not provide a resume. Do not make up facts about their background.)").
Proof.
  split; [| split].
  - unfold resumeSection, slice0. destruct (hasResume resume).
    + rewrite !length_app. pose proof (firstn_le_length 500 resume) as A.
      pose proof (length_firstn 500 resume) as B.
      change (length (units "CANDIDATE RESUME SUMMARY:")) with 25%nat.
      change (length (units "...")) with 3%nat. cbn [length]. lia.
    + vm_compute. lia.
  - unfold resumeContext, slice0. destruct (hasResume resume).
    + rewrite !length_app. pose proof (length_firstn 1000 resume) as B.
      change (length (units "User Resume Context: ")) with 21%nat.
      change (length (units "...")) with 3%nat. cbn [length]. lia.
    + vm_compute. lia.
  - intros H.
    assert (N : hasResume resume = false).
    { unfold hasResume. apply Nat.ltb_ge. destruct H as [L | B].
      - pose proof (trim_length resume). lia.
      - unfold trim. rewrite (trimStart_blank resume B). cbn. lia. }
    unfold resumeSection, resumeContext. rewrite N. split; reflexivity.
Qed.

Lemma resume_excerpt_bounded_witness :
  let blank := repeat 32%Z 40 in
  (length (resumeSection blank) <= 529)%nat
  /\ (length (resumeContext blank) <= 1026)%nat
  /\ ((length blank <= 10)%nat \/ Forall (fun u => isWhiteSpace u = true) blank ->
      resumeSection blank
      = units "CANDIDATE RESUME SUMMARY:" ++ [10%Z]
        ++ units "[No resume provided. Ask about their background generally.]"
      /\ resumeContext blank
         = units "User Resume Context: N/A (The user did not provide a resume. Do not make up facts about their background.)").
Proof. apply (resume_excerpt_bounded (repeat 32%Z 40)). Defined.

End PromptFacts.

(** ** The polling loop *)

Module PollingFacts.
Import Advisory Vision Polling.

Section Loop.

Context {Video : Type}.
Variable models : Landmarkers Video.
Variable fl : Q -> Q.
Hypothesis fl_monotone : forall x y, x <= y -> fl x <= fl y.
Hypothesis fl_100 : fl 100 == 100.

(** A difference that tests above 100 is above 100. *)
Lemma throttle_open (now lastAnalysisTime : Q) :
  PCM.Qltb 100 (fl (now - lastAnalysisTime)) = true -> lastAnalysisTime + 100 < now.
Proof.
  intros T. apply Qltb_lt in T.
  destruct (Qlt_le_dec (lastAnalysisTime + 100) now) as [H | H]; [exact H |].
  assert (D : now - lastAnalysisTime <= 100) by lra.
  apply fl_monotone in D. lra.
Qed.

(** The timestamp a call of [analyze] leaves is the one it was given or
    the one it found. *)
Lemma analyze_lastTimestamp (s : Service) (video : Video) (timestamp : Q) :
  lastTimestamp (analyze models s video timestamp).1.2 = timestamp
  \/ lastTimestamp (analyze models s video timestamp).1.2 = lastTimestamp s.
Proof.
  destruct (accepts s timestamp) eqn:A.
  - left. pose proof (VisionFacts.analyze_accepted models s video timestamp A) as H.
    destruct (analyze models s video timestamp) as [[r s'] calls]. apply H.
  - right. rewrite (VisionFacts.analyze_rejected models s video timestamp A). reflexivity.
Qed.

Lemma poll_spaced (hasStarted : bool) (frames : list (Q * option Video))
    (lastAnalysisTime : Q) (s : Service) :
  0 <= lastAnalysisTime -> lastTimestamp s <= lastAnalysisTime ->
  let calls := poll models fl hasStarted frames lastAnalysisTime s in
  Forall (fun a => lastAnalysisTime + 100 < ts a
                   /\ lastTimestamp (serviceBefore a) < ts a) calls
  /\ (forall i a b, calls !! i = Some a -> calls !! S i = Some b ->
                    ts a + 100 < ts b).
Proof.
  cbv zeta. revert lastAnalysisTime s.
  induction frames as [| [now video] frames IH]; intros lastAnalysisTime s P L.
  - split; [constructor | intros i a b H; destruct i; discriminate].
  - cbn [poll]. unfold loop. destruct hasStarted; cbn [negb].
    2: { split; [constructor | intros i a b H; destruct i; discriminate]. }
    destruct (PCM.Qltb 100 (fl (now - lastAnalysisTime))) eqn:T.
    2: { cbn [app]. apply IH; assumption. }
    destruct video as [v |]; [| cbn [app]; apply IH; assumption].
    apply throttle_open in T.
    assert (M : Qmax 1 now = now).
    { destruct (Qmax_cases 1 now) as [[_ H] | [E _]]; [lra | exact E]. }
    rewrite M.
    pose proof (analyze_lastTimestamp s v now) as S.
    destruct (analyze models s v now) as [[r s'] calls] eqn:A. cbn [fst snd] in S.
    assert (L' : lastTimestamp s' <= now) by (destruct S as [-> | ->]; lra).
    destruct (IH now s' ltac:(lra) L') as [F C].
    cbn [app]. split.
    + constructor; [cbn [ts serviceBefore]; split; lra |].
      eapply Forall_impl; [exact F |]. cbn beta. intros a [H1 H2]. split; [lra | exact H2].
    + intros [| i] a b Ha Hb; cbn in Ha, Hb.
      * injection Ha as <-. cbn [ts].
        rewrite Forall_forall in F.
        apply list_elem_of_lookup_2, F in Hb. apply Hb.
      * apply (C i); assumption.
Qed.

(** X27: the throttle of the polling loop keeps the timestamp guard of
    [analyze] out of play.  From the start of a session, where the last
    analysis time is 0 and the service has been reset, every analysis the
    loop makes passes a timestamp above 100 and above the timestamp the
    service holds, so no call is turned away for its timestamp; two
    analyses in a row are more than 100 ms apart; and a loop whose
    closure captured [hasStarted] as false makes no analysis at all.  The
    rounding of the difference of two clock readings is any monotone
    rounding that is exact on 100. *)
Theorem polling_passes_timestamp_guard (hasStarted : bool)
    (frames : list (Q * option Video)) (s : Service) :
  let calls := poll models fl hasStarted frames 0 (reset s) in
  Forall (fun a => 100 < ts a /\ lastTimestamp (serviceBefore a) < ts a) calls
  /\ (forall i a b, calls !! i = Some a -> calls !! S i = Some b ->
                    ts a + 100 < ts b)
  /\ (hasStarted = false -> calls = []).
Proof.
  cbv zeta.
  destruct (poll_spaced hasStarted frames 0 (reset s)) as [F C];
    [lra | cbn; lra |].
  split; [| split; [exact C |]].
  - eapply Forall_impl; [exact F |]. cbn beta. intros a [H1 H2]. split; [lra | exact H2].
  - intros ->. destruct frames as [| [now video] frames]; reflexivity.
Qed.

End Loop.

Lemma polling_passes_timestamp_guard_witness :
  let frames := [(16 # 1, Some tt); (120, Some tt); (136, Some tt); (230, Some tt)] in
  let calls := poll calm (fun x => x) true frames 0 (reset loaded) in
  map ts calls = [120; 230]
  /\ Forall (fun a => 100 < ts a /\ lastTimestamp (serviceBefore a) < ts a) calls
  /\ (forall i a b, calls !! i = Some a -> calls !! S i = Some b ->
                    ts a + 100 < ts b)
  /\ (true = false -> calls = []).
Proof.
  split; [reflexivity |].
  apply (polling_passes_timestamp_guard calm (fun x => x) (fun x y H => H) (Qeq_refl 100) true
           [(16 # 1, Some tt); (120, Some tt); (136, Some tt); (230, Some tt)] loaded).
Defined.

End PollingFacts.
